(** * JIT visualizer: execution sampling and status classification

    A shallow embedding of the two page components of the repository
    ([src/app/page.tsx], the "real" variant that measures call latency, and
    its "simulated" sibling that synthesises timings), followed by the
    properties of the sampler that the specification states.

    Conventions of the embedding.
    - A JavaScript [number] that holds a duration, a sum of durations or an
      optimization level is a binary64 value: Rocq's primitive [float], whose
      operations are the IEEE 754 ones that JavaScript uses.
    - [callCount] and [iterations] only ever hold small non-negative
      integers, incremented by one; they are [nat] (the binary64 counter is
      exact below 2^53).
    - [null] is [None].
    - The two inputs that the code reads from its environment, the measured
      duration ([performance.now() - start]) and the random draw
      ([Math.random()]), are arguments of the step functions, as is the wall
      clock reading that stamps a log line.
    - A log line is kept as the values interpolated into its template; the
      rendering to text ([toFixed], emoji) is presentation.
    - React's [setFunctions (prev => ...)] and [setLogs (prev => ...)] are
      state transformers; the application state is the pair of both. *)

From Stdlib Require Import List ZArith Lia Bool String PeanoNat.
From Stdlib Require Uint63.
From Stdlib Require Import Floats.
Import ListNotations.

#[local] Set Warnings "-inexact-float".
#[local] Open Scope nat_scope.

(** ** JavaScript library functions used by the page *)

Module JS.

(** [Math.max a b]: NaN if either is NaN, and +0 counts as larger than -0. *)
Definition Math_max (a b : float) : float :=
  if is_nan a || is_nan b then nan
  else if (a <? b)%float then b
  else if (b <? a)%float then a
  else if get_sign a then b else a.

(** [Math.min a b]: NaN if either is NaN, and -0 counts as smaller than +0. *)
Definition Math_min (a b : float) : float :=
  if is_nan a || is_nan b then nan
  else if (a <? b)%float then a
  else if (b <? a)%float then b
  else if get_sign a then a else b.

(** [arr.slice(-n)] for [n > 0]: the last [n] elements, or all of them when
    there are fewer. *)
Definition slice_last {A : Type} (n : nat) (arr : list A) : list A :=
  skipn (List.length arr - n) arr.

(** [updated[i] = x] on a copy of the array, for [i] within bounds. *)
Fixpoint assign {A : Type} (i : nat) (x : A) (arr : list A) : list A :=
  match arr, i with
  | [], _ => []
  | _ :: rest, O => x :: rest
  | y :: rest, S j => y :: assign j x rest
  end.

(** An integer-valued counter read as a [number]. *)
Definition number_of_nat (n : nat) : float :=
  of_uint63 (Uint63.of_Z (Z.of_nat n)).

(** Truthiness of a [number | null] value: null, NaN and both zeros are falsy. *)
Definition truthy (x : option float) : bool :=
  match x with
  | None => false
  | Some v => negb (is_nan v || is_zero v)
  end.

End JS.

(** ** What both variants share *)

Inductive Status : Type := cold | warming | hot | optimized.

Definition Status_eqb (a b : Status) : bool :=
  match a, b with
  | cold, cold | warming, warming | hot, hot | optimized, optimized => true
  | _, _ => false
  end.

Definition OPTIMIZATION_THRESHOLD : nat := 5.
Definition HOT_THRESHOLD : nat := 10.
Definition OPTIMIZED_THRESHOLD : nat := 20.

(** [addLog]: [setLogs (prev => [...prev.slice(-50), line])]. *)
Definition addLog {Line : Type} (line : Line) (prev : list Line) : list Line :=
  JS.slice_last 50 prev ++ [line].

(** ** The real variant: measured durations *)

Module Real.

Record ExecutionStats : Type := mkStats {
  callCount : nat;
  totalTime : float;
  avgTime : float;
  status : Status;
  optimizationLevel : float;
  firstTime : option float;
  bestTime : option float
}.

(** The closures the page stores in [execute]. *)
Inductive Workload : Type :=
| run_calculateSum   (* () => calculateSum(testArray) *)
| run_fibonacci      (* () => fibonacci(30) *)
| run_matrixMultiply (* () => matrixMultiply(50) *).

Record FunctionRecord : Type := mkFunction {
  name : string;
  code : string;
  stats : ExecutionStats;
  history : list float;
  execute : Workload;
  iterations : nat
}.

(** The templates of the log lines, with the values they interpolate. *)
Inductive Message : Type :=
| FirstExecution (fname : string) (executionTime : float)
| NewBest (fname : string) (executionTime improvement : float)
| FullyOptimized (fname : string) (speedup : option float)
| MarkedHot (fname : string)
| WarmingUp (fname : string)
| Starting
| Complete
| StateReset.

Record LogLine : Type := mkLine { stamp : string; message : Message }.

Record State : Type := mkState {
  functions : list FunctionRecord;
  logs : list LogLine
}.

Definition zeroStats : ExecutionStats :=
  {| callCount := 0; totalTime := 0; avgTime := 0; status := cold;
     optimizationLevel := 0; firstTime := None; bestTime := None |}.

(** The initial value of the [functions] state. *)
Definition initialFunctions : list FunctionRecord :=
  [ {| name := "calculateSum"%string; code := "function calculateSum(arr) {
  let sum = 0;
  for (let i = 0; i < arr.length; i++) {
    sum += arr[i];
  }
  return sum;
}"%string;
       stats := zeroStats; history := [];
       execute := run_calculateSum; iterations := 100 |};
    {| name := "fibonacci"%string; code := "function fibonacci(n) {
  if (n <= 1) return n;
  return fibonacci(n - 1) + fibonacci(n - 2);
}"%string;
       stats := zeroStats; history := [];
       execute := run_fibonacci; iterations := 1 |};
    {| name := "matrixMultiply"%string; code := "function matrixMultiply(size) {
  // Create and multiply two NxN matrices
  const a = Array(size).fill(0).map(() => 
    Array(size).fill(0).map(() => Math.random())
  );
  // ... O(n³) complexity
}"%string;
       stats := zeroStats; history := [];
       execute := run_matrixMultiply; iterations := 1 |} ].

Definition initialState : State :=
  {| functions := initialFunctions; logs := [] |}.

(** [Number(improvement) > 5] where [improvement = x.toFixed(1)]: [toFixed]
    rounds the exact value of [x] to one decimal, ties upwards, so the test
    holds exactly when [x >= 5.05] as a real number.  The binary64 literal
    [5.05] lies just below that bound and its successor above it, hence the
    strict comparison. *)
Definition improvement_above_5 (x : float) : bool := (5.05 <? x)%float.

(** Lines 137-149: first and best times. *)
Definition trackTimes (fname : string) (executionTime : float)
    (stats : ExecutionStats) : ExecutionStats * list Message :=
  let '(first, log1) :=
    match firstTime stats with
    | None => (Some executionTime, [FirstExecution fname executionTime])
    | Some f => (Some f, [])
    end in
  let '(best, log2) :=
    match bestTime stats with
    | None => (Some executionTime, [])
    | Some b =>
        if (executionTime <? b)%float then
          let improvement := ((b - executionTime) / b * 100)%float in
          (Some executionTime,
           if improvement_above_5 improvement
           then [NewBest fname executionTime improvement] else [])
        else (Some b, [])
    end in
  ({| callCount := callCount stats; totalTime := totalTime stats;
      avgTime := avgTime stats; status := status stats;
      optimizationLevel := optimizationLevel stats;
      firstTime := first; bestTime := best |},
   log1 ++ log2).

(** Lines 151-153: the running count, sum and mean. *)
Definition accumulate (executionTime : float) (stats : ExecutionStats)
    : ExecutionStats :=
  let count := callCount stats + 1 in
  let total := (totalTime stats + executionTime)%float in
  {| callCount := count; totalTime := total;
     avgTime := (total / JS.number_of_nat count)%float;
     status := status stats;
     optimizationLevel := optimizationLevel stats;
     firstTime := firstTime stats; bestTime := bestTime stats |}.

(** Lines 156-159: the level from the improvement over the first execution. *)
Definition relevel (stats : ExecutionStats) : ExecutionStats :=
  match firstTime stats with
  | Some first =>
      if (0 <? first)%float then
        let best := match bestTime stats with Some b => b | None => first end in
        let improvementRatio := (1 - best / first)%float in
        {| callCount := callCount stats; totalTime := totalTime stats;
           avgTime := avgTime stats; status := status stats;
           optimizationLevel :=
             JS.Math_min 5 (JS.Math_max 0 (improvementRatio * 20)%float);
           firstTime := firstTime stats; bestTime := bestTime stats |}
      else stats
  | None => stats
  end.

Definition speedupOf (stats : ExecutionStats) : option float :=
  match firstTime stats, bestTime stats with
  | Some first, Some best =>
      if JS.truthy (Some first) && JS.truthy (Some best)
      then Some ((first - best) / first * 100)%float
      else None
  | _, _ => None
  end.

Definition setStatus (s : Status) (stats : ExecutionStats) : ExecutionStats :=
  {| callCount := callCount stats; totalTime := totalTime stats;
     avgTime := avgTime stats; status := s;
     optimizationLevel := optimizationLevel stats;
     firstTime := firstTime stats; bestTime := bestTime stats |}.

(** Lines 162-180: the status from the call count. *)
Definition classify (fname : string) (stats : ExecutionStats)
    : ExecutionStats * list Message :=
  if OPTIMIZED_THRESHOLD <=? callCount stats then
    (setStatus optimized stats,
     if Status_eqb (status stats) optimized then []
     else [FullyOptimized fname (speedupOf stats)])
  else if HOT_THRESHOLD <=? callCount stats then
    (setStatus hot stats,
     if Status_eqb (status stats) hot then [] else [MarkedHot fname])
  else if OPTIMIZATION_THRESHOLD <=? callCount stats then
    (setStatus warming stats,
     if Status_eqb (status stats) warming then [] else [WarmingUp fname])
  else (stats, []).

(** The body of the updater for the record it copies: the new record and
    the messages passed to [addLog], in order. *)
Definition applySample (func : FunctionRecord) (executionTime : float)
    : FunctionRecord * list Message :=
  let '(stats1, log1) := trackTimes (name func) executionTime (stats func) in
  let stats2 := relevel (accumulate executionTime stats1) in
  let '(stats3, log2) := classify (name func) stats2 in
  ({| name := name func; code := code func; stats := stats3;
      history := JS.slice_last 30 (history func) ++ [executionTime];
      execute := execute func; iterations := iterations func |},
   log1 ++ log2).

Definition addLogs (clock : string) (messages : list Message)
    (prev : list LogLine) : list LogLine :=
  fold_left (fun l m => addLog (mkLine clock m) l) messages prev.

(** [executeFunction funcIndex], given the duration the timer measures.
    An index outside the array does not occur (the callers pass an index of
    the rendered list or [floor (random * length)]); it is [None] here.
    This is the call with one run of the updater passed to [setFunctions];
    the lines of a call whose updater React runs more than once are those
    of [Real_executeFunctionReplayed] below. *)
Definition executeFunction (clock : string) (funcIndex : nat)
    (executionTime : float) (st : State) : option State :=
  match nth_error (functions st) funcIndex with
  | None => None
  | Some func =>
      let '(func', messages) := applySample func executionTime in
      Some {| functions := JS.assign funcIndex func' (functions st);
              logs := addLogs clock messages (logs st) |}
  end.

Definition resetRecord (f : FunctionRecord) : FunctionRecord :=
  {| name := name f; code := code f; stats := zeroStats; history := [];
     execute := execute f; iterations := iterations f |}.

(** [resetAll]: every record reset, the log emptied, one line logged. *)
Definition resetAll (clock : string) (st : State) : State :=
  {| functions := map resetRecord (functions st);
     logs := addLog (mkLine clock StateReset) [] |}.

End Real.

Module RealRun.
Import Real.

(** What the user and the timed run do to the state: one sample of a
    record, the reset button, and the two lines the timed run logs itself. *)
Inductive Event : Type :=
| Sampled (clock : string) (funcIndex : nat) (executionTime : float)
| ResetPressed (clock : string)
| Logged (clock : string) (m : Message).

Definition step (ev : Event) (st : State) : option State :=
  match ev with
  | Sampled clock i t => executeFunction clock i t st
  | ResetPressed clock => Some (resetAll clock st)
  | Logged clock m =>
      Some {| functions := functions st;
              logs := addLog (mkLine clock m) (logs st) |}
  end.

Fixpoint run (evs : list Event) (st : State) : option State :=
  match evs with
  | [] => Some st
  | ev :: rest =>
      match step ev st with
      | Some st' => run rest st'
      | None => None
      end
  end.

(** Every sample of the trace addresses a record of an array of [n] records. *)
Definition inRange (n : nat) (ev : Event) : Prop :=
  match ev with
  | Sampled _ i _ => i < n
  | _ => True
  end.

End RealRun.

(** ** The simulated variant: synthetic durations *)

Module Simulated.

Record ExecutionStats : Type := mkStats {
  callCount : nat;
  totalTime : float;
  avgTime : float;
  status : Status;
  optimizationLevel : float
}.

Record FunctionRecord : Type := mkFunction {
  name : string;
  code : string;
  stats : ExecutionStats;
  history : list float
}.

Inductive Message : Type :=
| FullyOptimized (fname : string)
| MarkedHot (fname : string)
| WarmingUp (fname : string)
| Starting
| Complete
| StateReset.

Record LogLine : Type := mkLine { stamp : string; message : Message }.

Record State : Type := mkState {
  functions : list FunctionRecord;
  logs : list LogLine
}.

Definition zeroStats : ExecutionStats :=
  {| callCount := 0; totalTime := 0; avgTime := 0; status := cold;
     optimizationLevel := 0 |}.

Definition initialFunctions : list FunctionRecord :=
  [ {| name := "calculateSum"%string;
       code := "function calculateSum(arr) {
  let sum = 0;
  for (let i = 0; i < arr.length; i++) {
    sum += arr[i];
  }
  return sum;
}"%string;
       stats := zeroStats; history := [] |};
    {| name := "fibonacci"%string;
       code := "function fibonacci(n) {
  if (n <= 1) return n;
  return fibonacci(n - 1) + fibonacci(n - 2);
}"%string;
       stats := zeroStats; history := [] |};
    {| name := "multiply"%string;
       code := "function multiply(a, b) {
  return a * b;
}"%string;
       stats := zeroStats; history := [] |} ].

Definition initialState : State :=
  {| functions := initialFunctions; logs := [] |}.

(** Lines 520-522: the synthetic duration, from the draw [Math.random()]
    and the record's current level. *)
Definition baseTime (random : float) : float := (random * 100 + 50)%float.

Definition optimizationFactor (level : float) : float :=
  (1 - level * 0.15)%float.

Definition preFloor (random level : float) : float :=
  (baseTime random * optimizationFactor level)%float.

Definition executionTime (random level : float) : float :=
  JS.Math_max 5 (preFloor random level).

(** Lines 524-526. *)
Definition accumulate (t : float) (stats : ExecutionStats) : ExecutionStats :=
  let count := callCount stats + 1 in
  let total := (totalTime stats + t)%float in
  {| callCount := count; totalTime := total;
     avgTime := (total / JS.number_of_nat count)%float;
     status := status stats;
     optimizationLevel := optimizationLevel stats |}.

Definition setTier (s : Status) (level : float) (stats : ExecutionStats)
    : ExecutionStats :=
  {| callCount := callCount stats; totalTime := totalTime stats;
     avgTime := avgTime stats; status := s; optimizationLevel := level |}.

(** Lines 529-547: the status from the call count, and the level stepped
    towards the ceiling of the tier. *)
Definition classify (fname : string) (stats : ExecutionStats)
    : ExecutionStats * list Message :=
  if OPTIMIZED_THRESHOLD <=? callCount stats then
    (setTier optimized (JS.Math_min 5 (optimizationLevel stats + 0.5)%float) stats,
     if Status_eqb (status stats) optimized then [] else [FullyOptimized fname])
  else if HOT_THRESHOLD <=? callCount stats then
    (setTier hot (JS.Math_min 4 (optimizationLevel stats + 0.3)%float) stats,
     if Status_eqb (status stats) hot then [] else [MarkedHot fname])
  else if OPTIMIZATION_THRESHOLD <=? callCount stats then
    (setTier warming (JS.Math_min 2 (optimizationLevel stats + 0.2)%float) stats,
     if Status_eqb (status stats) warming then [] else [WarmingUp fname])
  else (stats, []).

(** The body of the updater for the record it copies, given the draw. *)
Definition applySample (func : FunctionRecord) (random : float)
    : FunctionRecord * list Message :=
  let t := executionTime random (optimizationLevel (stats func)) in
  let '(stats', log) := classify (name func) (accumulate t (stats func)) in
  ({| name := name func; code := code func; stats := stats';
      history := JS.slice_last 20 (history func) ++ [t] |},
   log).

Definition addLogs (clock : string) (messages : list Message)
    (prev : list LogLine) : list LogLine :=
  fold_left (fun l m => addLog (mkLine clock m) l) messages prev.

(** [simulateExecution funcIndex], given the draw; [None] for an index
    outside the array, which no caller passes.  This is the call with one
    run of the updater passed to [setFunctions]; the lines of a call whose
    updater React runs more than once are those of
    [Simulated_simulateExecutionReplayed] below. *)
Definition simulateExecution (clock : string) (funcIndex : nat)
    (random : float) (st : State) : option State :=
  match nth_error (functions st) funcIndex with
  | None => None
  | Some func =>
      let '(func', messages) := applySample func random in
      Some {| functions := JS.assign funcIndex func' (functions st);
              logs := addLogs clock messages (logs st) |}
  end.

Definition resetRecord (f : FunctionRecord) : FunctionRecord :=
  {| name := name f; code := code f; stats := zeroStats; history := [] |}.

Definition resetAll (clock : string) (st : State) : State :=
  {| functions := map resetRecord (functions st);
     logs := addLog (mkLine clock StateReset) [] |}.

End Simulated.

Module SimulatedRun.
Import Simulated.

Inductive Event : Type :=
| Sampled (clock : string) (funcIndex : nat) (random : float)
| ResetPressed (clock : string)
| Logged (clock : string) (m : Message).

Definition step (ev : Event) (st : State) : option State :=
  match ev with
  | Sampled clock i r => simulateExecution clock i r st
  | ResetPressed clock => Some (resetAll clock st)
  | Logged clock m =>
      Some {| functions := functions st;
              logs := addLog (mkLine clock m) (logs st) |}
  end.

Fixpoint run (evs : list Event) (st : State) : option State :=
  match evs with
  | [] => Some st
  | ev :: rest =>
      match step ev st with
      | Some st' => run rest st'
      | None => None
      end
  end.

Definition inRange (n : nat) (ev : Event) : Prop :=
  match ev with
  | Sampled _ i _ => i < n
  | _ => True
  end.

End SimulatedRun.

(** ** Vocabulary of the specification *)

(** The classification table of the specification: the status as a function
    of the call count alone. *)
Definition thresholdStatus (callCount : nat) : Status :=
  if 20 <=? callCount then optimized
  else if 10 <=? callCount then hot
  else if 5 <=? callCount then warming
  else cold.

(** The order cold < warming < hot < optimized. *)
Definition rank (s : Status) : nat :=
  match s with cold => 0 | warming => 1 | hot => 2 | optimized => 3 end.

(** The status a log line announces, with the record it names. *)
Definition Real_announces (m : Real.Message) : list (string * Status) :=
  match m with
  | Real.FullyOptimized n _ => [(n, optimized)]
  | Real.MarkedHot n => [(n, hot)]
  | Real.WarmingUp n => [(n, warming)]
  | _ => []
  end.

Definition Simulated_announces (m : Simulated.Message) : list (string * Status) :=
  match m with
  | Simulated.FullyOptimized n => [(n, optimized)]
  | Simulated.MarkedHot n => [(n, hot)]
  | Simulated.WarmingUp n => [(n, warming)]
  | _ => []
  end.

(** The samples of one record in a row: the record they leave and all the
    messages they pass to [addLog], in order. *)
Fixpoint Real_sampleAll (f : Real.FunctionRecord) (ts : list float)
    : Real.FunctionRecord * list Real.Message :=
  match ts with
  | [] => (f, [])
  | t :: rest =>
      let '(f1, m1) := Real.applySample f t in
      let '(f2, m2) := Real_sampleAll f1 rest in
      (f2, m1 ++ m2)
  end.

Fixpoint Simulated_sampleAll (f : Simulated.FunctionRecord) (rs : list float)
    : Simulated.FunctionRecord * list Simulated.Message :=
  match rs with
  | [] => (f, [])
  | r :: rest =>
      let '(f1, m1) := Simulated.applySample f r in
      let '(f2, m2) := Simulated_sampleAll f1 rest in
      (f2, m1 ++ m2)
  end.

(** The call count at which a status is entered. *)
Definition threshold (s : Status) : nat :=
  match s with
  | cold => 0
  | warming => OPTIMIZATION_THRESHOLD
  | hot => HOT_THRESHOLD
  | optimized => OPTIMIZED_THRESHOLD
  end.

(** The statuses entered while the call count goes from [c] to [c + n]. *)
Definition entered (c n : nat) : list Status :=
  filter (fun s => (c <? threshold s) && (threshold s <=? c + n))
    [warming; hot; optimized].

(** A sequence of lines appended to a log, one [addLog] each. *)
Definition appendAll {Line : Type} (lines prev : list Line) : list Line :=
  fold_left (fun l x => addLog x l) lines prev.

(** The level rule of the specification for the simulated variant: the step
    and the ceiling of the tier the sample lands in; below the first
    threshold the level is left alone. *)
Definition tierLevel (tier : Status) (level : float) : float :=
  match tier with
  | cold => level
  | warming => JS.Math_min 2 (level + 0.2)%float
  | hot => JS.Math_min 4 (level + 0.3)%float
  | optimized => JS.Math_min 5 (level + 0.5)%float
  end.

(** The level of a simulated record [n] samples after a reset. *)
Fixpoint levelAfter (n : nat) : float :=
  match n with
  | O => 0%float
  | S k => tierLevel (thresholdStatus (S k)) (levelAfter k)
  end.

(** A level within [0, 5]. *)
Definition levelInRange (level : float) : Prop :=
  (0 <=? level)%float = true /\ (level <=? 5)%float = true.

(** A measured duration is a number: the difference of two timer readings is
    never NaN. *)
Definition measured (ev : RealRun.Event) : Prop :=
  match ev with
  | RealRun.Sampled _ _ t => is_nan t = false
  | _ => True
  end.

(** First and best time of a record: both unset, or both set with the best
    no larger than the first. *)
Definition bestWithinFirst (s : Real.ExecutionStats) : Prop :=
  match Real.firstTime s, Real.bestTime s with
  | None, None => Real.callCount s = 0
  | Some first, Some best => (best <=? first)%float = true
  | _, _ => False
  end.

(** [clamp(0, 5, x)] as the page writes it. *)
Definition clamp05 (x : float) : float := JS.Math_min 5 (JS.Math_max 0 x).

(** The exponent of the last place of binary64 at a magnitude. *)
Definition fexp64 (e : Z) : Z := fexp prec emax e.

(** The value of a non-negative finite binary64 number counted in units of
    2^-1200, small enough for every binary64 product to be a whole number
    of them. *)
Definition scale : Z := 1200.

Definition scaled (x : spec_float) : Z :=
  match x with
  | S754_finite false m e => (Zpos m * 2 ^ (e + scale))%Z
  | _ => 0%Z
  end.

(** Zero or a positive finite number. *)
Definition nonnegFinite (x : spec_float) : Prop :=
  match x with
  | S754_zero _ | S754_finite false _ _ => True
  | _ => False
  end.

(** ** The rest of the page *)

(** [getStatusColor] and [getStatusGlow], the same in both pages. *)
Definition getStatusColor (status : Status) : string :=
  match status with
  | cold => "bg-slate-500"
  | warming => "bg-yellow-500"
  | hot => "bg-orange-500"
  | optimized => "bg-green-500"
  end%string.

Definition getStatusGlow (status : Status) : string :=
  match status with
  | cold => ""
  | warming => "shadow-yellow-500/50 shadow-lg"
  | hot => "shadow-orange-500/50 shadow-xl animate-pulse"
  | optimized => "shadow-green-500/50 shadow-xl"
  end%string.

(** The width of the progress bar, in percent: [optimizationLevel * 20]. *)
Definition progressWidth (level : float) : float := (level * 20)%float.

(** The height of a bar of the execution time graph, in percent:
    [Math.min(100, time)]. *)
Definition barHeight (time : float) : float := JS.Math_min 100 time.

(** [runSimulation] of the real page: a line, 30 rounds of one sample each,
    a line.  A round reads the wall clock, an index (the page computes
    [Math.floor(Math.random() * functions.length)]) and the measured
    duration; [round i] is what round [i] reads. *)
Definition Real_runSimulation (startClock endClock : string)
    (round : nat -> string * nat * float) (st : Real.State)
    : option Real.State :=
  RealRun.run
    (RealRun.Logged startClock Real.Starting
     :: map (fun i => let '(clock, funcIndex, t) := round i in
                      RealRun.Sampled clock funcIndex t) (seq 0 30)
     ++ [RealRun.Logged endClock Real.Complete])
    st.

(** The same of the simulated page; a round reads the draw of the timer in
    place of a duration. *)
Definition Simulated_runSimulation (startClock endClock : string)
    (round : nat -> string * nat * float) (st : Simulated.State)
    : option Simulated.State :=
  SimulatedRun.run
    (SimulatedRun.Logged startClock Simulated.Starting
     :: map (fun i => let '(clock, funcIndex, r) := round i in
                      SimulatedRun.Sampled clock funcIndex r) (seq 0 30)
     ++ [SimulatedRun.Logged endClock Simulated.Complete])
    st.

(** The calls counted by all records of a page. *)
Definition Real_totalCalls (st : Real.State) : nat :=
  list_sum (map (fun f => Real.callCount (Real.stats f)) (Real.functions st)).

Definition Simulated_totalCalls (st : Simulated.State) : nat :=
  list_sum (map (fun f => Simulated.callCount (Simulated.stats f))
              (Simulated.functions st)).

(** The samples of a trace since its last reset, counted on from the
    [before] samples that precede the trace. *)
Fixpoint Real_samplesSinceReset (evs : list RealRun.Event) (before : nat) : nat :=
  match evs with
  | [] => before
  | RealRun.Sampled _ _ _ :: rest => Real_samplesSinceReset rest (S before)
  | RealRun.ResetPressed _ :: rest => Real_samplesSinceReset rest 0
  | RealRun.Logged _ _ :: rest => Real_samplesSinceReset rest before
  end.

Fixpoint Simulated_samplesSinceReset (evs : list SimulatedRun.Event)
    (before : nat) : nat :=
  match evs with
  | [] => before
  | SimulatedRun.Sampled _ _ _ :: rest =>
      Simulated_samplesSinceReset rest (S before)
  | SimulatedRun.ResetPressed _ :: rest => Simulated_samplesSinceReset rest 0
  | SimulatedRun.Logged _ _ :: rest => Simulated_samplesSinceReset rest before
  end.

(** The durations the simulated timer produces for the draws [rs] of one
    record, the first of them at call count [c] after a reset. *)
Fixpoint Simulated_durations (c : nat) (rs : list float) : list float :=
  match rs with
  | [] => []
  | r :: rest =>
      Simulated.executionTime r (levelAfter c) :: Simulated_durations (S c) rest
  end.

Definition Real_isFirstExecution (m : Real.Message) : bool :=
  match m with Real.FirstExecution _ _ => true | _ => false end.

(** A duration: a finite number that is not negative. *)
Definition finiteDuration (t : float) : Prop :=
  (0 <=? t)%float = true /\ (t <? infinity)%float = true.

Definition Real_finiteSample (ev : RealRun.Event) : Prop :=
  match ev with
  | RealRun.Sampled _ _ t => finiteDuration t
  | _ => True
  end.

(** The stored times of a record are durations. *)
Definition Real_timesFinite (s : Real.ExecutionStats) : Prop :=
  (forall x, Real.firstTime s = Some x -> finiteDuration x)
  /\ (forall x, Real.bestTime s = Some x -> finiteDuration x).

(** A draw of [Math.random()] read by a sample of the simulated page. *)
Definition Simulated_drawSample (ev : SimulatedRun.Event) : Prop :=
  match ev with
  | SimulatedRun.Sampled _ _ r => (0 <=? r)%float = true /\ (r <? 1)%float = true
  | _ => True
  end.

(** A simulated duration as the timer produces it from a reset. *)
Definition durationInRange (t : float) : Prop :=
  (12.5 <=? t)%float = true /\ (t <=? 150)%float = true.

(** A share of the whole, in percent. *)
Definition percentInRange (p : float) : Prop :=
  (0 <=? p)%float = true /\ (p <=? 100)%float = true.

(** [Math.floor x] of a finite number, as the integer it is; infinities and
    NaN have none. *)
Definition Math_floor (x : float) : option Z :=
  match Prim2SF x with
  | S754_zero _ => Some 0%Z
  | S754_finite s m e => Some (Z.shiftl (cond_Zopp s (Zpos m)) e)
  | _ => None
  end.

(** [Math.floor(Math.random() * functions.length)] of [runSimulation], read
    as an index of the array: a property key that is no index of the array
    reads [undefined]. *)
Definition runSimulation_funcIndex (random : float) (length : nat) : option nat :=
  match Math_floor (random * JS.number_of_nat length)%float with
  | Some z => if (0 <=? z)%Z then Some (Z.to_nat z) else None
  | None => None
  end.

(** ** The measured functions *)

(** An integer read as a [number]. *)
Definition number_of_Z (z : Z) : float := of_uint63 (Uint63.of_Z z).

(** [fibonacci(n)].  The recursion is bounded by [fuel]; [None] when it runs
    out. *)
Fixpoint fibonacci (fuel : nat) (n : float) : option float :=
  match fuel with
  | O => None
  | S fuel' =>
      if (n <=? 1)%float then Some n
      else
        match fibonacci fuel' (n - 1)%float, fibonacci fuel' (n - 2)%float with
        | Some a, Some b => Some (a + b)%float
        | _, _ => None
        end
  end.

(** [calculateSum(arr)]: the loop over the indices of the array; an index
    outside it would read [undefined], which adds as NaN. *)
Definition calculateSum (arr : list float) : float :=
  fold_left (fun sum i => (sum + nth i arr nan)%float)
    (seq 0 (List.length arr)) 0%float.

(** [Array.from({ length }, (_, i) => i)]; the page has [length = 10000]. *)
Definition testArrayOf (length : nat) : list float :=
  map (fun i => number_of_Z (Z.of_nat i)) (seq 0 length).

#[local] Set Warnings "-abstract-large-number".
Definition testArray : list float := testArrayOf 10000.

(** The Fibonacci numbers, by iteration on pairs. *)
Fixpoint Fib_pair (n : nat) : Z * Z :=
  match n with
  | O => (0%Z, 1%Z)
  | S k => let '(a, b) := Fib_pair k in (b, (a + b)%Z)
  end.

Definition Fib (n : nat) : Z := fst (Fib_pair n).

(** The sum of a list of integers. *)
Definition Zsum (zs : list Z) : Z := fold_left Z.add zs 0%Z.

(** A float that is the non-negative integer [z]: +0 or a positive finite
    number of that value. *)
Definition represents (x : float) (z : Z) : Prop :=
  match Prim2SF x with
  | S754_zero false => z = 0%Z
  | S754_finite false m e => (Zpos m * 2 ^ (e + scale) = z * 2 ^ scale)%Z
  | _ => False
  end.

(** What a record is, apart from what it measured. *)
Definition Real_identity (f : Real.FunctionRecord)
    : string * string * Real.Workload * nat :=
  (Real.name f, Real.code f, Real.execute f, Real.iterations f).

Definition Simulated_identity (f : Simulated.FunctionRecord) : string * string :=
  (Simulated.name f, Simulated.code f).

(** [Array(size).fill(0).map(() => Array(size).fill(0).map(() =>
    Math.random()))]: [draw i j] is the draw for row [i], column [j]. *)
Definition randomMatrix (size : nat) (draw : nat -> nat -> float)
    : list (list float) :=
  map (fun i => map (fun j => draw i j) (seq 0 size)) (seq 0 size).

(** [Array(size).fill(0).map(() => Array(size).fill(0))]. *)
Definition zeroMatrix (size : nat) : list (list float) :=
  repeat (repeat 0%float size) size.

(** [m[i][j]]; outside the matrix it reads [undefined]. *)
Definition entry (m : list (list float)) (i j : nat) : float :=
  nth j (nth i m []) nan.

(** [result[i][j] += x]. *)
Definition addAt (i j : nat) (x : float) (result : list (list float))
    : list (list float) :=
  JS.assign i (JS.assign j (entry result i j + x)%float (nth i result [])) result.

(** [matrixMultiply(size)], given the draws of its two matrices: the three
    nested loops over [i], [j] and [k]. *)
Definition matrixMultiply (size : nat) (drawA drawB : nat -> nat -> float)
    : list (list float) :=
  let a := randomMatrix size drawA in
  let b := randomMatrix size drawB in
  fold_left (fun result i =>
    fold_left (fun result j =>
      fold_left (fun result k =>
        addAt i j (entry a i k * entry b k j)%float result)
        (seq 0 size) result)
      (seq 0 size) result)
    (seq 0 size) (zeroMatrix size).

(** The entry of the product of two matrices, summed in the order of the
    loop. *)
Definition dotProduct (size : nat) (a b : nat -> nat -> float) (i j : nat)
    : float :=
  fold_left (fun acc k => (acc + a i k * b k j)%float) (seq 0 size) 0%float.

(** The entries [g] with the one in row [i], column [j] replaced. *)
Definition upd (g : nat -> nat -> float) (i j : nat) (v : float)
    : nat -> nat -> float :=
  fun i' j' => if (i' =? i) && (j' =? j) then v else g i' j'.

(** ** The updater run more than once *)

(** The body modelled by [applySample] is the function the page passes to
    [setFunctions], and React may run such a function more than once for one
    call (twice under StrictMode), each time on the same previous array; it
    keeps the array of the last run.  [addLog] is called inside that
    function, so every run passes its lines on, and in the real page every
    run measures a duration of its own.  One sample of a record whose
    updater runs once for each duration of [first :: more]: the record kept
    and the messages passed to [addLog], in the order of the runs. *)
Definition Real_replayedSample (func : Real.FunctionRecord) (first : float)
    (more : list float) : Real.FunctionRecord * list Real.Message :=
  (fst (Real.applySample func (last more first)),
   flat_map (fun t => snd (Real.applySample func t)) (first :: more)).

(** The same of the simulated page; every run draws a number of its own. *)
Definition Simulated_replayedSample (func : Simulated.FunctionRecord)
    (first : float) (more : list float)
    : Simulated.FunctionRecord * list Simulated.Message :=
  (fst (Simulated.applySample func (last more first)),
   flat_map (fun r => snd (Simulated.applySample func r)) (first :: more)).

(** [executeFunction funcIndex] when the updater runs once for each entry of
    [first :: more], an entry being the clock and the duration of a run. *)
Definition Real_executeFunctionReplayed (funcIndex : nat)
    (first : string * float) (more : list (string * float)) (st : Real.State)
    : option Real.State :=
  match nth_error (Real.functions st) funcIndex with
  | None => None
  | Some func =>
      Some {| Real.functions :=
                JS.assign funcIndex
                  (fst (Real.applySample func (snd (last more first))))
                  (Real.functions st);
              Real.logs :=
                fold_left
                  (fun l run =>
                     Real.addLogs (fst run)
                       (snd (Real.applySample func (snd run))) l)
                  (first :: more) (Real.logs st) |}
  end.

(** [simulateExecution funcIndex] when the updater runs once for each entry
    of [first :: more], an entry being the clock and the draw of a run. *)
Definition Simulated_simulateExecutionReplayed (funcIndex : nat)
    (first : string * float) (more : list (string * float))
    (st : Simulated.State) : option Simulated.State :=
  match nth_error (Simulated.functions st) funcIndex with
  | None => None
  | Some func =>
      Some {| Simulated.functions :=
                JS.assign funcIndex
                  (fst (Simulated.applySample func (snd (last more first))))
                  (Simulated.functions st);
              Simulated.logs :=
                fold_left
                  (fun l run =>
                     Simulated.addLogs (fst run)
                       (snd (Simulated.applySample func (snd run))) l)
                  (first :: more) (Simulated.logs st) |}
  end.

(** The samples of one record in a row, each with the runs of its updater. *)
Fixpoint Real_replayAll (f : Real.FunctionRecord)
    (samples : list (float * list float))
    : Real.FunctionRecord * list Real.Message :=
  match samples with
  | [] => (f, [])
  | (t, more) :: rest =>
      let '(f1, m1) := Real_replayedSample f t more in
      let '(f2, m2) := Real_replayAll f1 rest in
      (f2, m1 ++ m2)
  end.

(** Case analysis on the comparisons of call counts in a goal. *)
Ltac compare_counts :=
  repeat (match goal with
          | |- context [?a <? ?b] => destruct (Nat.ltb_spec a b)
          | |- context [?a <=? ?b] => destruct (Nat.leb_spec a b)
          end; try (exfalso; lia));
  reflexivity.

(** * Properties *)

(** ** Arrays *)

Section Arrays.
Context {A : Type}.
Implicit Types (arr lines prev : list A) (x : A) (n i j : nat).

Lemma slice_last_length n arr :
  List.length (JS.slice_last n arr) = Nat.min n (List.length arr).
Proof. unfold JS.slice_last. rewrite length_skipn. lia. Qed.

Lemma slice_last_suffix n arr :
  arr = firstn (List.length arr - n) arr ++ JS.slice_last n arr.
Proof. unfold JS.slice_last. now rewrite firstn_skipn. Qed.

Lemma slice_last_all n arr :
  List.length arr <= n -> JS.slice_last n arr = arr.
Proof.
  intros H. unfold JS.slice_last.
  replace (List.length arr - n) with 0 by lia. reflexivity.
Qed.

Lemma addLog_length x arr :
  List.length (addLog x arr) = Nat.min 50 (List.length arr) + 1.
Proof. unfold addLog. now rewrite length_app, slice_last_length. Qed.

Lemma appendAll_length lines : forall prev,
  List.length (appendAll lines prev)
  = if List.length lines =? 0 then List.length prev
    else Nat.min 51 (List.length prev + List.length lines).
Proof.
  unfold appendAll.
  induction lines as [|x lines IH]; intros prev; [reflexivity|].
  cbn [fold_left List.length Nat.eqb]. rewrite IH, addLog_length.
  destruct (List.length lines =? 0) eqn:E;
    [apply Nat.eqb_eq in E | apply Nat.eqb_neq in E]; lia.
Qed.

Lemma assign_length i x arr :
  List.length (JS.assign i x arr) = List.length arr.
Proof.
  revert i; induction arr as [|y arr IH]; intros [|i]; simpl; auto.
Qed.

Lemma nth_error_assign_same i x arr :
  i < List.length arr -> nth_error (JS.assign i x arr) i = Some x.
Proof.
  revert i; induction arr as [|y arr IH]; intros [|i]; simpl; intros H;
    try lia; auto. apply IH. lia.
Qed.

Lemma nth_error_assign_other i j x arr :
  j <> i -> nth_error (JS.assign i x arr) j = nth_error arr j.
Proof.
  revert i j; induction arr as [|y arr IH]; intros [|i] [|j] H; simpl; auto.
  congruence.
Qed.

Lemma Forall_assign (P : A -> Prop) i x arr :
  Forall P arr -> P x -> Forall P (JS.assign i x arr).
Proof.
  intros H Hx. revert i.
  induction H as [|y arr Hy H IH]; intros [|i]; simpl; auto.
Qed.

End Arrays.

(** ** The real variant, sample by sample *)

Module RealFacts.
Import Real RealRun.

Lemma applySample_stats func t :
  stats (fst (applySample func t))
  = fst (classify (name func)
           (relevel (accumulate t (fst (trackTimes (name func) t (stats func)))))).
Proof.
  unfold applySample.
  destruct (trackTimes (name func) t (stats func)) as [s1 l1]; simpl.
  now destruct (classify (name func) (relevel (accumulate t s1))).
Qed.

Lemma applySample_messages func t :
  snd (applySample func t)
  = snd (trackTimes (name func) t (stats func))
    ++ snd (classify (name func)
              (relevel (accumulate t (fst (trackTimes (name func) t (stats func)))))).
Proof.
  unfold applySample.
  destruct (trackTimes (name func) t (stats func)) as [s1 l1]; simpl.
  now destruct (classify (name func) (relevel (accumulate t s1))).
Qed.

Lemma applySample_history func t :
  history (fst (applySample func t)) = JS.slice_last 30 (history func) ++ [t].
Proof.
  unfold applySample.
  destruct (trackTimes (name func) t (stats func)) as [s1 l1].
  now destruct (classify (name func) (relevel (accumulate t s1))).
Qed.

Lemma applySample_frame func t :
  name (fst (applySample func t)) = name func
  /\ code (fst (applySample func t)) = code func
  /\ execute (fst (applySample func t)) = execute func
  /\ iterations (fst (applySample func t)) = iterations func.
Proof.
  unfold applySample.
  destruct (trackTimes (name func) t (stats func)) as [s1 l1].
  now destruct (classify (name func) (relevel (accumulate t s1))).
Qed.

Lemma trackTimes_count n t s :
  callCount (fst (trackTimes n t s)) = callCount s
  /\ status (fst (trackTimes n t s)) = status s
  /\ optimizationLevel (fst (trackTimes n t s)) = optimizationLevel s.
Proof.
  unfold trackTimes.
  destruct (firstTime s), (bestTime s) as [b|];
    try destruct (t <? b)%float; auto.
Qed.

Lemma trackTimes_silent n t s :
  flat_map Real_announces (snd (trackTimes n t s)) = [].
Proof.
  unfold trackTimes.
  destruct (firstTime s), (bestTime s) as [b|];
    try destruct (t <? b)%float;
    try destruct (improvement_above_5 _); reflexivity.
Qed.

Lemma relevel_count s :
  callCount (relevel s) = callCount s /\ status (relevel s) = status s
  /\ firstTime (relevel s) = firstTime s /\ bestTime (relevel s) = bestTime s.
Proof.
  unfold relevel. destruct (firstTime s) as [f|] eqn:E; auto.
  destruct (0 <? f)%float; simpl; auto.
Qed.

Lemma before_classify n t s :
  callCount (relevel (accumulate t (fst (trackTimes n t s)))) = callCount s + 1
  /\ status (relevel (accumulate t (fst (trackTimes n t s)))) = status s.
Proof.
  destruct (relevel_count (accumulate t (fst (trackTimes n t s))))
    as (-> & -> & _).
  simpl. destruct (trackTimes_count n t s) as (-> & -> & _). auto.
Qed.

Lemma callCount_applySample func t :
  callCount (stats (fst (applySample func t))) = callCount (stats func) + 1.
Proof.
  rewrite applySample_stats.
  destruct (before_classify (name func) t (stats func)) as [H _].
  unfold classify.
  destruct (_ <=? _); [|destruct (_ <=? _); [|destruct (_ <=? _)]]; exact H.
Qed.

(** The status after a sample: the table entry of the new count from the
    first threshold on, the previous status below it. *)
Lemma status_applySample func t :
  status (stats (fst (applySample func t)))
  = if OPTIMIZATION_THRESHOLD <=? callCount (stats func) + 1
    then thresholdStatus (callCount (stats func) + 1)
    else status (stats func).
Proof.
  rewrite applySample_stats.
  destruct (before_classify (name func) t (stats func)) as [Hc Hs].
  unfold classify, thresholdStatus,
    OPTIMIZED_THRESHOLD, HOT_THRESHOLD, OPTIMIZATION_THRESHOLD.
  rewrite Hc.
  destruct (20 <=? _) eqn:E20; [apply Nat.leb_le in E20|apply Nat.leb_gt in E20].
  { replace (5 <=? _) with true by (symmetry; apply Nat.leb_le; lia).
    reflexivity. }
  destruct (10 <=? _) eqn:E10; [apply Nat.leb_le in E10|apply Nat.leb_gt in E10].
  { replace (5 <=? _) with true by (symmetry; apply Nat.leb_le; lia).
    reflexivity. }
  destruct (5 <=? _); [reflexivity | exact Hs].
Qed.

Lemma announced_applySample func t :
  flat_map Real_announces (snd (applySample func t))
  = if Status_eqb (status (stats func)) (status (stats (fst (applySample func t))))
    then []
    else [(name func, status (stats (fst (applySample func t))))].
Proof.
  rewrite applySample_messages, applySample_stats, flat_map_app, trackTimes_silent.
  destruct (before_classify (name func) t (stats func)) as [_ Hs].
  unfold classify. rewrite Hs.
  destruct (_ <=? _); [|destruct (_ <=? _); [|destruct (_ <=? _)]]; simpl;
    try rewrite Hs; destruct (status (stats func)); reflexivity.
Qed.

Lemma addLogs_appendAll clock messages prev :
  addLogs clock messages prev = appendAll (map (mkLine clock) messages) prev.
Proof.
  unfold addLogs, appendAll. revert prev.
  induction messages as [|m ms IH]; intros prev; simpl; auto.
Qed.

Lemma step_length ev st st' :
  step ev st = Some st' ->
  List.length (functions st') = List.length (functions st).
Proof.
  destruct ev as [clock i t|clock|clock m]; simpl.
  - unfold executeFunction. destruct (nth_error _ i) as [f|]; [|discriminate].
    destruct (applySample f t) as [f' msgs]. intros [= <-]. simpl.
    apply assign_length.
  - intros [= <-]. simpl. apply length_map.
  - now intros [= <-].
Qed.

Lemma step_total ev st :
  inRange (List.length (functions st)) ev -> exists st', step ev st = Some st'.
Proof.
  destruct ev as [clock i t|clock|clock m]; simpl; intros H; eauto.
  unfold executeFunction.
  destruct (nth_error (functions st) i) as [f|] eqn:E.
  - destruct (applySample f t). eauto.
  - apply nth_error_None in E. lia.
Qed.

Lemma run_total evs : forall st,
  Forall (inRange (List.length (functions st))) evs ->
  exists st', run evs st = Some st'.
Proof.
  induction evs as [|ev evs IH]; intros st H; simpl; eauto.
  inversion H as [|? ? Hev Hevs]; subst.
  destruct (step_total ev st Hev) as [st1 E]. rewrite E.
  apply IH. now rewrite (step_length _ _ _ E).
Qed.

Lemma run_length evs : forall st st',
  run evs st = Some st' ->
  List.length (functions st') = List.length (functions st).
Proof.
  induction evs as [|ev evs IH]; intros st st'; simpl.
  - now intros [= <-].
  - destruct (step ev st) as [st1|] eqn:E; [|discriminate].
    intros H. rewrite (IH _ _ H). eapply step_length; eauto.
Qed.

Section RecordInvariant.
Variable Q : FunctionRecord -> Prop.
Hypothesis Q_sample : forall f t, Q f -> Q (fst (applySample f t)).
Hypothesis Q_reset : forall f, Q (resetRecord f).

Lemma step_records ev st st' :
  Forall Q (functions st) -> step ev st = Some st' -> Forall Q (functions st').
Proof.
  intros HQ. destruct ev as [clock i t|clock|clock m]; simpl.
  - unfold executeFunction.
    destruct (nth_error (functions st) i) as [f|] eqn:E; [|discriminate].
    pose proof (Q_sample f t) as Hf.
    destruct (applySample f t) as [f' msgs]. intros [= <-]. simpl in *.
    apply Forall_assign; auto. apply Hf.
    rewrite Forall_forall in HQ. apply HQ. eapply nth_error_In; eauto.
  - intros [= <-]. simpl. apply Forall_forall. intros f Hin.
    apply in_map_iff in Hin. destruct Hin as [g [<- _]]. apply Q_reset.
  - now intros [= <-].
Qed.

Lemma run_records evs : forall st st',
  Forall Q (functions st) -> run evs st = Some st' -> Forall Q (functions st').
Proof.
  induction evs as [|ev evs IH]; intros st st' HQ; simpl.
  - now intros [= <-].
  - destruct (step ev st) as [st1|] eqn:E; [|discriminate].
    apply IH. eapply step_records; eauto.
Qed.

End RecordInvariant.

Lemma step_logs ev st st' :
  List.length (logs st) <= 51 -> step ev st = Some st' ->
  List.length (logs st') <= 51.
Proof.
  intros HL. destruct ev as [clock i t|clock|clock m]; simpl.
  - unfold executeFunction.
    destruct (nth_error (functions st) i) as [f|]; [|discriminate].
    destruct (applySample f t) as [f' msgs]. intros [= <-]. simpl.
    rewrite addLogs_appendAll, appendAll_length.
    destruct (_ =? 0); lia.
  - intros [= <-]. cbn. lia.
  - intros [= <-]. cbn [logs]. rewrite addLog_length. lia.
Qed.

Lemma run_logs evs : forall st st',
  List.length (logs st) <= 51 -> run evs st = Some st' ->
  List.length (logs st') <= 51.
Proof.
  induction evs as [|ev evs IH]; intros st st' HL; simpl.
  - now intros [= <-].
  - destruct (step ev st) as [st1|] eqn:E; [|discriminate].
    apply IH. eapply step_logs; eauto.
Qed.

End RealFacts.

(** ** The simulated variant, sample by sample *)

Module SimulatedFacts.
Import Simulated SimulatedRun.

Lemma sim_applySample_stats func r :
  stats (fst (applySample func r))
  = fst (classify (name func)
           (accumulate (executionTime r (optimizationLevel (stats func)))
              (stats func))).
Proof.
  unfold applySample. now destruct (classify _ _).
Qed.

Lemma sim_applySample_messages func r :
  snd (applySample func r)
  = snd (classify (name func)
           (accumulate (executionTime r (optimizationLevel (stats func)))
              (stats func))).
Proof.
  unfold applySample. now destruct (classify _ _).
Qed.

Lemma sim_applySample_history func r :
  history (fst (applySample func r))
  = JS.slice_last 20 (history func)
    ++ [executionTime r (optimizationLevel (stats func))].
Proof.
  unfold applySample. now destruct (classify _ _).
Qed.

Lemma sim_applySample_frame func r :
  name (fst (applySample func r)) = name func
  /\ code (fst (applySample func r)) = code func.
Proof.
  unfold applySample. now destruct (classify _ _).
Qed.

Lemma sim_callCount_applySample func r :
  callCount (stats (fst (applySample func r))) = callCount (stats func) + 1.
Proof.
  rewrite sim_applySample_stats. unfold classify.
  destruct (_ <=? _); [|destruct (_ <=? _); [|destruct (_ <=? _)]]; reflexivity.
Qed.

Lemma sim_status_applySample func r :
  status (stats (fst (applySample func r)))
  = if OPTIMIZATION_THRESHOLD <=? callCount (stats func) + 1
    then thresholdStatus (callCount (stats func) + 1)
    else status (stats func).
Proof.
  rewrite sim_applySample_stats.
  unfold classify, thresholdStatus,
    OPTIMIZED_THRESHOLD, HOT_THRESHOLD, OPTIMIZATION_THRESHOLD.
  cbn [accumulate callCount].
  destruct (20 <=? _) eqn:E20; [apply Nat.leb_le in E20|apply Nat.leb_gt in E20].
  { replace (5 <=? _) with true by (symmetry; apply Nat.leb_le; lia).
    reflexivity. }
  destruct (10 <=? _) eqn:E10; [apply Nat.leb_le in E10|apply Nat.leb_gt in E10].
  { replace (5 <=? _) with true by (symmetry; apply Nat.leb_le; lia).
    reflexivity. }
  destruct (5 <=? _); reflexivity.
Qed.

Lemma sim_announced_applySample func r :
  flat_map Simulated_announces (snd (applySample func r))
  = if Status_eqb (status (stats func)) (status (stats (fst (applySample func r))))
    then []
    else [(name func, status (stats (fst (applySample func r))))].
Proof.
  rewrite sim_applySample_messages, sim_applySample_stats.
  unfold classify. cbn [accumulate callCount status].
  destruct (_ <=? _); [|destruct (_ <=? _); [|destruct (_ <=? _)]]; simpl;
    destruct (status (stats func)); reflexivity.
Qed.

Lemma sim_addLogs_appendAll clock messages prev :
  addLogs clock messages prev = appendAll (map (mkLine clock) messages) prev.
Proof.
  unfold addLogs, appendAll. revert prev.
  induction messages as [|m ms IH]; intros prev; simpl; auto.
Qed.

Lemma sim_step_length ev st st' :
  step ev st = Some st' ->
  List.length (functions st') = List.length (functions st).
Proof.
  destruct ev as [clock i r|clock|clock m]; simpl.
  - unfold simulateExecution. destruct (nth_error _ i) as [f|]; [|discriminate].
    destruct (applySample f r) as [f' msgs]. intros [= <-]. simpl.
    apply assign_length.
  - intros [= <-]. simpl. apply length_map.
  - now intros [= <-].
Qed.

Lemma sim_step_total ev st :
  inRange (List.length (functions st)) ev -> exists st', step ev st = Some st'.
Proof.
  destruct ev as [clock i r|clock|clock m]; simpl; intros H; eauto.
  unfold simulateExecution.
  destruct (nth_error (functions st) i) as [f|] eqn:E.
  - destruct (applySample f r). eauto.
  - apply nth_error_None in E. lia.
Qed.

Lemma sim_run_total evs : forall st,
  Forall (inRange (List.length (functions st))) evs ->
  exists st', run evs st = Some st'.
Proof.
  induction evs as [|ev evs IH]; intros st H; simpl; eauto.
  inversion H as [|? ? Hev Hevs]; subst.
  destruct (sim_step_total ev st Hev) as [st1 E]. rewrite E.
  apply IH. now rewrite (sim_step_length _ _ _ E).
Qed.

Lemma sim_run_length evs : forall st st',
  run evs st = Some st' ->
  List.length (functions st') = List.length (functions st).
Proof.
  induction evs as [|ev evs IH]; intros st st'; simpl.
  - now intros [= <-].
  - destruct (step ev st) as [st1|] eqn:E; [|discriminate].
    intros H. rewrite (IH _ _ H). eapply sim_step_length; eauto.
Qed.

Section RecordInvariant.
Variable Q : FunctionRecord -> Prop.
Hypothesis Q_sample : forall f r, Q f -> Q (fst (applySample f r)).
Hypothesis Q_reset : forall f, Q (resetRecord f).

Lemma sim_step_records ev st st' :
  Forall Q (functions st) -> step ev st = Some st' -> Forall Q (functions st').
Proof.
  intros HQ. destruct ev as [clock i r|clock|clock m]; simpl.
  - unfold simulateExecution.
    destruct (nth_error (functions st) i) as [f|] eqn:E; [|discriminate].
    pose proof (Q_sample f r) as Hf.
    destruct (applySample f r) as [f' msgs]. intros [= <-]. simpl in *.
    apply Forall_assign; auto. apply Hf.
    rewrite Forall_forall in HQ. apply HQ. eapply nth_error_In; eauto.
  - intros [= <-]. simpl. apply Forall_forall. intros f Hin.
    apply in_map_iff in Hin. destruct Hin as [g [<- _]]. apply Q_reset.
  - now intros [= <-].
Qed.

Lemma sim_run_records evs : forall st st',
  Forall Q (functions st) -> run evs st = Some st' -> Forall Q (functions st').
Proof.
  induction evs as [|ev evs IH]; intros st st' HQ; simpl.
  - now intros [= <-].
  - destruct (step ev st) as [st1|] eqn:E; [|discriminate].
    apply IH. eapply sim_step_records; eauto.
Qed.

End RecordInvariant.

Lemma sim_step_logs ev st st' :
  List.length (logs st) <= 51 -> step ev st = Some st' ->
  List.length (logs st') <= 51.
Proof.
  intros HL. destruct ev as [clock i r|clock|clock m]; simpl.
  - unfold simulateExecution.
    destruct (nth_error (functions st) i) as [f|]; [|discriminate].
    destruct (applySample f r) as [f' msgs]. intros [= <-]. simpl.
    rewrite sim_addLogs_appendAll, appendAll_length.
    destruct (_ =? 0); lia.
  - intros [= <-]. cbn. lia.
  - intros [= <-]. cbn [logs]. rewrite addLog_length. lia.
Qed.

Lemma sim_run_logs evs : forall st st',
  List.length (logs st) <= 51 -> run evs st = Some st' ->
  List.length (logs st') <= 51.
Proof.
  induction evs as [|ev evs IH]; intros st st' HL; simpl.
  - now intros [= <-].
  - destruct (step ev st) as [st1|] eqn:E; [|discriminate].
    apply IH. eapply sim_step_logs; eauto.
Qed.

End SimulatedFacts.

(** ** The statements of the specification *)

Lemma executeFunction_unfold clock i t st f :
  nth_error (Real.functions st) i = Some f ->
  Real.executeFunction clock i t st
  = Some {| Real.functions :=
              JS.assign i (fst (Real.applySample f t)) (Real.functions st);
            Real.logs :=
              Real.addLogs clock (snd (Real.applySample f t)) (Real.logs st) |}.
Proof.
  intros E. unfold Real.executeFunction. rewrite E.
  now destruct (Real.applySample f t).
Qed.

Lemma simulateExecution_unfold clock i r st f :
  nth_error (Simulated.functions st) i = Some f ->
  Simulated.simulateExecution clock i r st
  = Some {| Simulated.functions :=
              JS.assign i (fst (Simulated.applySample f r)) (Simulated.functions st);
            Simulated.logs :=
              Simulated.addLogs clock (snd (Simulated.applySample f r))
                (Simulated.logs st) |}.
Proof.
  intros E. unfold Simulated.simulateExecution. rewrite E.
  now destruct (Simulated.applySample f r).
Qed.

Lemma nth_error_defined {A : Type} (l : list A) i :
  i < List.length l -> exists x, nth_error l i = Some x.
Proof.
  intros H. destruct (nth_error l i) eqn:E; eauto.
  apply nth_error_None in E. lia.
Qed.

Lemma thresholdStatus_monotone c c' :
  c <= c' -> rank (thresholdStatus c) <= rank (thresholdStatus c').
Proof.
  intros H. unfold thresholdStatus.
  destruct (20 <=? c) eqn:A; destruct (10 <=? c) eqn:B; destruct (5 <=? c) eqn:C;
  destruct (20 <=? c') eqn:A'; destruct (10 <=? c') eqn:B';
  destruct (5 <=? c') eqn:C'; simpl; try lia;
  repeat match goal with
  | E : (_ <=? _) = true |- _ => apply Nat.leb_le in E
  | E : (_ <=? _) = false |- _ => apply Nat.leb_gt in E
  end; lia.
Qed.

Lemma thresholdStatus_next c s :
  s = thresholdStatus c ->
  (if OPTIMIZATION_THRESHOLD <=? c + 1 then thresholdStatus (c + 1) else s)
  = thresholdStatus (c + 1).
Proof.
  intros ->. unfold OPTIMIZATION_THRESHOLD.
  destruct (5 <=? c + 1) eqn:E; [reflexivity|].
  apply Nat.leb_gt in E. unfold thresholdStatus.
  repeat match goal with
  | |- context [?a <=? ?b] =>
      let H := fresh in
      destruct (a <=? b) eqn:H;
      [apply Nat.leb_le in H | apply Nat.leb_gt in H]; try lia
  end; reflexivity.
Qed.

(** C1.  From the reset state, whatever samples (and further resets) follow,
    every record's status is the table entry of its call count (below 5 cold,
    from 5 warming, from 10 hot, from 20 optimized), in both variants; each
    sample adds one to the count, and the status never moves down the order
    cold < warming < hot < optimized as the count grows. *)
Theorem status_follows_callCount :
  (forall clock st0 evs,
      Forall (RealRun.inRange (List.length (Real.functions st0))) evs ->
      exists st,
        RealRun.run evs (Real.resetAll clock st0) = Some st
        /\ Forall (fun f => Real.status (Real.stats f)
                            = thresholdStatus (Real.callCount (Real.stats f)))
             (Real.functions st))
  /\ (forall f t,
      Real.status (Real.stats f) = thresholdStatus (Real.callCount (Real.stats f)) ->
      Real.callCount (Real.stats (fst (Real.applySample f t)))
      = Real.callCount (Real.stats f) + 1
      /\ Real.status (Real.stats (fst (Real.applySample f t)))
         = thresholdStatus (Real.callCount (Real.stats f) + 1)
      /\ rank (Real.status (Real.stats f))
         <= rank (Real.status (Real.stats (fst (Real.applySample f t)))))
  /\ (forall clock st0 evs,
      Forall (SimulatedRun.inRange (List.length (Simulated.functions st0))) evs ->
      exists st,
        SimulatedRun.run evs (Simulated.resetAll clock st0) = Some st
        /\ Forall (fun f => Simulated.status (Simulated.stats f)
                            = thresholdStatus (Simulated.callCount (Simulated.stats f)))
             (Simulated.functions st))
  /\ (forall f r,
      Simulated.status (Simulated.stats f)
      = thresholdStatus (Simulated.callCount (Simulated.stats f)) ->
      Simulated.callCount (Simulated.stats (fst (Simulated.applySample f r)))
      = Simulated.callCount (Simulated.stats f) + 1
      /\ Simulated.status (Simulated.stats (fst (Simulated.applySample f r)))
         = thresholdStatus (Simulated.callCount (Simulated.stats f) + 1)
      /\ rank (Simulated.status (Simulated.stats f))
         <= rank (Simulated.status (Simulated.stats (fst (Simulated.applySample f r)))))
  /\ (forall c c', c <= c' -> rank (thresholdStatus c) <= rank (thresholdStatus c')).
Proof.
  assert (R : forall f t,
    Real.status (Real.stats f) = thresholdStatus (Real.callCount (Real.stats f)) ->
    Real.status (Real.stats (fst (Real.applySample f t)))
    = thresholdStatus (Real.callCount (Real.stats f) + 1)).
  { intros f t H. rewrite RealFacts.status_applySample.
    now apply thresholdStatus_next. }
  assert (S : forall f r,
    Simulated.status (Simulated.stats f)
    = thresholdStatus (Simulated.callCount (Simulated.stats f)) ->
    Simulated.status (Simulated.stats (fst (Simulated.applySample f r)))
    = thresholdStatus (Simulated.callCount (Simulated.stats f) + 1)).
  { intros f r H. rewrite SimulatedFacts.sim_status_applySample.
    now apply thresholdStatus_next. }
  repeat split.
  - intros clock st0 evs Hev.
    destruct (RealFacts.run_total evs (Real.resetAll clock st0)) as [st E].
    { simpl. now rewrite length_map. }
    exists st. split; [exact E|].
    eapply RealFacts.run_records; [ | | | exact E].
    + intros f t H. rewrite RealFacts.callCount_applySample. now apply R.
    + reflexivity.
    + simpl. apply Forall_forall. intros f Hin.
      apply in_map_iff in Hin. now destruct Hin as [g [<- _]].
  - apply RealFacts.callCount_applySample.
  - now apply R.
  - rewrite (R f t H), H. apply thresholdStatus_monotone. lia.
  - intros clock st0 evs Hev.
    destruct (SimulatedFacts.sim_run_total evs (Simulated.resetAll clock st0))
      as [st E].
    { simpl. now rewrite length_map. }
    exists st. split; [exact E|].
    eapply SimulatedFacts.sim_run_records; [ | | | exact E].
    + intros f r H. rewrite SimulatedFacts.sim_callCount_applySample. now apply S.
    + reflexivity.
    + simpl. apply Forall_forall. intros f Hin.
      apply in_map_iff in Hin. now destruct Hin as [g [<- _]].
  - apply SimulatedFacts.sim_callCount_applySample.
  - now apply S.
  - rewrite (S f r H), H. apply thresholdStatus_monotone. lia.
  - apply thresholdStatus_monotone.
Qed.

Lemma status_follows_callCount_witness :
  (exists st,
      RealRun.run (repeat (RealRun.Sampled ""%string 0 1%float) 25)
        (Real.resetAll ""%string Real.initialState) = Some st
      /\ Forall (fun f => Real.status (Real.stats f)
                          = thresholdStatus (Real.callCount (Real.stats f)))
           (Real.functions st))
  /\ (exists st,
      SimulatedRun.run (repeat (SimulatedRun.Sampled ""%string 2 0.5%float) 25)
        (Simulated.resetAll ""%string Simulated.initialState) = Some st
      /\ Forall (fun f => Simulated.status (Simulated.stats f)
                          = thresholdStatus (Simulated.callCount (Simulated.stats f)))
           (Simulated.functions st))
  /\ Real.status (Real.stats
        (fst (Real.applySample
                (Real.mkFunction "f"%string ""%string Real.zeroStats []
                   Real.run_fibonacci 1) 1%float)))
     = thresholdStatus 1
  /\ Simulated.status (Simulated.stats
        (fst (Simulated.applySample
                (Simulated.mkFunction "f"%string ""%string Simulated.zeroStats [])
                0.5%float)))
     = thresholdStatus 1
  /\ rank (thresholdStatus 9) <= rank (thresholdStatus 10).
Proof.
  split; [|split; [|split; [|split]]].
  - apply (proj1 status_follows_callCount). simpl. repeat constructor.
  - apply (proj1 (proj2 (proj2 status_follows_callCount))). simpl.
    repeat constructor.
  - exact (proj1 (proj2 (proj1 (proj2 status_follows_callCount)
             (Real.mkFunction "f"%string ""%string Real.zeroStats []
                Real.run_fibonacci 1) 1%float eq_refl))).
  - exact (proj1 (proj2 (proj1 (proj2 (proj2 (proj2 status_follows_callCount)))
             (Simulated.mkFunction "f"%string ""%string Simulated.zeroStats [])
             0.5%float eq_refl))).
  - apply (proj2 (proj2 (proj2 (proj2 status_follows_callCount)))). lia.
Defined.

Lemma entered_none c : entered c 0 = [].
Proof.
  unfold entered, threshold,
    OPTIMIZED_THRESHOLD, HOT_THRESHOLD, OPTIMIZATION_THRESHOLD.
  cbn [filter]. compare_counts.
Qed.

Lemma entered_split c n : entered c (S n) = entered c 1 ++ entered (c + 1) n.
Proof.
  unfold entered, threshold,
    OPTIMIZED_THRESHOLD, HOT_THRESHOLD, OPTIMIZATION_THRESHOLD.
  cbn [filter]. compare_counts.
Qed.

Lemma entered_step (name : string) c :
  (if Status_eqb (thresholdStatus c) (thresholdStatus (c + 1)) then []
   else [(name, thresholdStatus (c + 1))])
  = map (pair name) (entered c 1).
Proof.
  unfold entered, thresholdStatus, threshold,
    OPTIMIZED_THRESHOLD, HOT_THRESHOLD, OPTIMIZATION_THRESHOLD.
  cbn [filter]. compare_counts.
Qed.

Lemma Real_sampleAll_announced ts : forall f,
  Real.status (Real.stats f) = thresholdStatus (Real.callCount (Real.stats f)) ->
  flat_map Real_announces (snd (Real_sampleAll f ts))
  = map (pair (Real.name f))
      (entered (Real.callCount (Real.stats f)) (List.length ts)).
Proof.
  induction ts as [|t ts IH]; intros f Hf.
  - cbn [Real_sampleAll snd flat_map List.length]. now rewrite entered_none.
  - cbn [Real_sampleAll List.length].
    pose proof (RealFacts.announced_applySample f t) as Ha.
    pose proof (RealFacts.status_applySample f t) as Hs.
    rewrite (thresholdStatus_next _ _ Hf) in Hs.
    pose proof (RealFacts.callCount_applySample f t) as Hc.
    pose proof (proj1 (RealFacts.applySample_frame f t)) as Hn.
    destruct (Real.applySample f t) as [f1 m1]. cbn [fst snd] in *.
    specialize (IH f1). rewrite Hc in IH. specialize (IH Hs).
    destruct (Real_sampleAll f1 ts) as [f2 m2]. cbn [fst snd] in *.
    rewrite flat_map_app, Ha, IH, Hs, Hf, Hn, entered_split, map_app.
    f_equal. apply entered_step.
Qed.

Lemma Simulated_sampleAll_announced rs : forall f,
  Simulated.status (Simulated.stats f)
  = thresholdStatus (Simulated.callCount (Simulated.stats f)) ->
  flat_map Simulated_announces (snd (Simulated_sampleAll f rs))
  = map (pair (Simulated.name f))
      (entered (Simulated.callCount (Simulated.stats f)) (List.length rs)).
Proof.
  induction rs as [|r rs IH]; intros f Hf.
  - cbn [Simulated_sampleAll snd flat_map List.length]. now rewrite entered_none.
  - cbn [Simulated_sampleAll List.length].
    pose proof (SimulatedFacts.sim_announced_applySample f r) as Ha.
    pose proof (SimulatedFacts.sim_status_applySample f r) as Hs.
    rewrite (thresholdStatus_next _ _ Hf) in Hs.
    pose proof (SimulatedFacts.sim_callCount_applySample f r) as Hc.
    pose proof (proj1 (SimulatedFacts.sim_applySample_frame f r)) as Hn.
    destruct (Simulated.applySample f r) as [f1 m1]. cbn [fst snd] in *.
    specialize (IH f1). rewrite Hc in IH. specialize (IH Hs).
    destruct (Simulated_sampleAll f1 rs) as [f2 m2]. cbn [fst snd] in *.
    rewrite flat_map_app, Ha, IH, Hs, Hf, Hn, entered_split, map_app.
    f_equal. apply entered_step.
Qed.

(** The scenario of the specification: cold after 4 samples, warming after
    the 5th, hot after the 10th, optimized after the 20th and still after
    the 25th, with one line for each of the three changes. *)
Example scenario_thresholds :
  map (fun n =>
         Real.status (Real.stats
           (fst (Real_sampleAll (Real.resetRecord
                   (Real.mkFunction "f"%string ""%string Real.zeroStats []
                      Real.run_fibonacci 1))
                   (repeat 3%float n)))))
    [4; 5; 10; 20; 25]
  = [cold; warming; hot; optimized; optimized]
  /\ flat_map Simulated_announces
       (snd (Simulated_sampleAll
               (Simulated.mkFunction "f"%string ""%string Simulated.zeroStats [])
               (repeat 0.5%float 25)))
     = [("f"%string, warming); ("f"%string, hot); ("f"%string, optimized)].
Proof. split; vm_compute; reflexivity. Qed.

(** One run of the updater for each sample.  Such a sample logs a status line
    exactly when it changes the status of the record, and then exactly one,
    naming the record and its new status; a sample that leaves the status
    as it was logs none.  This holds from every state, in both variants,
    and the lines the run passes to [addLog] are the ones appended to the
    log.  Over any number of such samples of a record since its reset, the
    status lines are one for each status entered on the way (warming at the
    5th, hot at the 10th, optimized at the 20th sample), in that order. *)
Theorem status_line_logged_once_with_one_run :
  (forall f t,
      flat_map Real_announces (snd (Real.applySample f t))
      = if Status_eqb (Real.status (Real.stats f))
             (Real.status (Real.stats (fst (Real.applySample f t))))
        then []
        else [(Real.name f, Real.status (Real.stats (fst (Real.applySample f t))))])
  /\ (forall f r,
      flat_map Simulated_announces (snd (Simulated.applySample f r))
      = if Status_eqb (Simulated.status (Simulated.stats f))
             (Simulated.status (Simulated.stats (fst (Simulated.applySample f r))))
        then []
        else [(Simulated.name f,
               Simulated.status (Simulated.stats (fst (Simulated.applySample f r))))])
  /\ (forall clock i t st f,
      nth_error (Real.functions st) i = Some f ->
      option_map Real.logs (Real.executeFunction clock i t st)
      = Some (appendAll (map (Real.mkLine clock) (snd (Real.applySample f t)))
                (Real.logs st)))
  /\ (forall clock i r st f,
      nth_error (Simulated.functions st) i = Some f ->
      option_map Simulated.logs (Simulated.simulateExecution clock i r st)
      = Some (appendAll
                (map (Simulated.mkLine clock) (snd (Simulated.applySample f r)))
                (Simulated.logs st)))
  /\ (forall f ts,
      flat_map Real_announces (snd (Real_sampleAll (Real.resetRecord f) ts))
      = map (pair (Real.name f)) (entered 0 (List.length ts)))
  /\ (forall f rs,
      flat_map Simulated_announces
        (snd (Simulated_sampleAll (Simulated.resetRecord f) rs))
      = map (pair (Simulated.name f)) (entered 0 (List.length rs))).
Proof.
  split; [|split; [|split; [|split; [|split]]]].
  - apply RealFacts.announced_applySample.
  - apply SimulatedFacts.sim_announced_applySample.
  - intros clock i t st f E. rewrite (executeFunction_unfold _ _ _ _ _ E). simpl.
    now rewrite RealFacts.addLogs_appendAll.
  - intros clock i r st f E. rewrite (simulateExecution_unfold _ _ _ _ _ E). simpl.
    now rewrite SimulatedFacts.sim_addLogs_appendAll.
  - intros f ts. now apply (Real_sampleAll_announced ts (Real.resetRecord f)).
  - intros f rs.
    now apply (Simulated_sampleAll_announced rs (Simulated.resetRecord f)).
Qed.

(** The status a sample leaves does not depend on the duration. *)
Lemma Real_status_any_run f t t' :
  Real.status (Real.stats (fst (Real.applySample f t)))
  = Real.status (Real.stats (fst (Real.applySample f t'))).
Proof. now rewrite !RealFacts.status_applySample. Qed.

Lemma Simulated_status_any_run f r r' :
  Simulated.status (Simulated.stats (fst (Simulated.applySample f r)))
  = Simulated.status (Simulated.stats (fst (Simulated.applySample f r'))).
Proof. now rewrite !SimulatedFacts.sim_status_applySample. Qed.

Lemma Real_announced_runs f t runs :
  flat_map Real_announces
    (flat_map (fun x => snd (Real.applySample f x)) runs)
  = if Status_eqb (Real.status (Real.stats f))
         (Real.status (Real.stats (fst (Real.applySample f t))))
    then []
    else repeat (Real.name f,
                 Real.status (Real.stats (fst (Real.applySample f t))))
           (List.length runs).
Proof.
  induction runs as [|x runs IH]; cbn [flat_map List.length repeat].
  - now destruct (Status_eqb _ _).
  - rewrite flat_map_app, IH, RealFacts.announced_applySample,
      (Real_status_any_run f x t).
    now destruct (Status_eqb _ _).
Qed.

Lemma Simulated_announced_runs f r runs :
  flat_map Simulated_announces
    (flat_map (fun x => snd (Simulated.applySample f x)) runs)
  = if Status_eqb (Simulated.status (Simulated.stats f))
         (Simulated.status (Simulated.stats (fst (Simulated.applySample f r))))
    then []
    else repeat (Simulated.name f,
                 Simulated.status
                   (Simulated.stats (fst (Simulated.applySample f r))))
           (List.length runs).
Proof.
  induction runs as [|x runs IH]; cbn [flat_map List.length repeat].
  - now destruct (Status_eqb _ _).
  - rewrite flat_map_app, IH, SimulatedFacts.sim_announced_applySample,
      (Simulated_status_any_run f x r).
    now destruct (Status_eqb _ _).
Qed.

(** C2, as the code has it.  The status line is passed to [addLog] inside
    the updater of [setFunctions], hence once for every run of that updater:
    a sample that changes the status of its record logs as many status
    lines, all naming the record and the new status, as its updater has
    runs, and a sample that leaves the status as it was logs none.  With one
    run this is the one line of the claim; with the two runs of StrictMode
    the fifth sample of a record, which changes its status once, from cold
    to warming, logs the warming line twice, in both variants. *)
Theorem status_line_logged_once_per_run :
  (forall f t more,
      flat_map Real_announces (snd (Real_replayedSample f t more))
      = if Status_eqb (Real.status (Real.stats f))
             (Real.status (Real.stats (fst (Real_replayedSample f t more))))
        then []
        else repeat (Real.name f,
                     Real.status (Real.stats (fst (Real_replayedSample f t more))))
               (S (List.length more)))
  /\ (forall f r more,
      flat_map Simulated_announces (snd (Simulated_replayedSample f r more))
      = if Status_eqb (Simulated.status (Simulated.stats f))
             (Simulated.status
                (Simulated.stats (fst (Simulated_replayedSample f r more))))
        then []
        else repeat (Simulated.name f,
                     Simulated.status
                       (Simulated.stats (fst (Simulated_replayedSample f r more))))
               (S (List.length more)))
  /\ (forall i clock t st,
      Real_executeFunctionReplayed i (clock, t) [] st
      = Real.executeFunction clock i t st)
  /\ (forall i clock r st,
      Simulated_simulateExecutionReplayed i (clock, r) [] st
      = Simulated.simulateExecution clock i r st)
  /\ (exists st4 st5,
      RealRun.run (repeat (RealRun.Sampled "12:00:00"%string 0 8%float) 4)
        (Real.resetAll "11:59:59"%string Real.initialState) = Some st4
      /\ Real_executeFunctionReplayed 0 ("12:00:05"%string, 8%float)
           [("12:00:05"%string, 8%float)] st4 = Some st5
      /\ map (fun f => Real.status (Real.stats f)) (Real.functions st4)
         = [cold; cold; cold]
      /\ map (fun f => Real.status (Real.stats f)) (Real.functions st5)
         = [warming; cold; cold]
      /\ flat_map Real_announces (map Real.message (Real.logs st5))
         = [("calculateSum"%string, warming); ("calculateSum"%string, warming)])
  /\ (exists st4 st5,
      SimulatedRun.run
        (repeat (SimulatedRun.Sampled "12:00:00"%string 0 0.5%float) 4)
        (Simulated.resetAll "11:59:59"%string Simulated.initialState) = Some st4
      /\ Simulated_simulateExecutionReplayed 0 ("12:00:05"%string, 0.5%float)
           [("12:00:05"%string, 0.25%float)] st4 = Some st5
      /\ map (fun f => Simulated.status (Simulated.stats f))
           (Simulated.functions st4)
         = [cold; cold; cold]
      /\ map (fun f => Simulated.status (Simulated.stats f))
           (Simulated.functions st5)
         = [warming; cold; cold]
      /\ flat_map Simulated_announces
           (map Simulated.message (Simulated.logs st5))
         = [("calculateSum"%string, warming); ("calculateSum"%string, warming)]).
Proof.
  split; [|split; [|split; [|split; [|split]]]].
  - intros f t more. unfold Real_replayedSample. cbn [fst snd].
    rewrite (Real_announced_runs f (last more t) (t :: more)). reflexivity.
  - intros f r more. unfold Simulated_replayedSample. cbn [fst snd].
    rewrite (Simulated_announced_runs f (last more r) (r :: more)). reflexivity.
  - intros i clock t st.
    unfold Real_executeFunctionReplayed, Real.executeFunction.
    destruct (nth_error (Real.functions st) i) as [f|]; [|reflexivity].
    cbn [last fold_left fst snd]. now destruct (Real.applySample f t).
  - intros i clock r st.
    unfold Simulated_simulateExecutionReplayed, Simulated.simulateExecution.
    destruct (nth_error (Simulated.functions st) i) as [f|]; [|reflexivity].
    cbn [last fold_left fst snd]. now destruct (Simulated.applySample f r).
  - eexists _, _. split; [vm_compute; reflexivity|].
    split; [vm_compute; reflexivity|]. repeat split.
  - eexists _, _. split; [vm_compute; reflexivity|].
    split; [vm_compute; reflexivity|]. repeat split.
Qed.

Lemma fifo_append {A : Type} n (h : list A) x :
  h ++ [x] = firstn (List.length h - n) h ++ (JS.slice_last n h ++ [x])
  /\ List.length (JS.slice_last n h ++ [x]) = Nat.min n (List.length h) + 1.
Proof.
  split.
  - now rewrite app_assoc, <- slice_last_suffix.
  - now rewrite length_app, slice_last_length.
Qed.

(** C3, as the code has it.  A sample keeps the 30 (simulated: 20) most
    recent durations of the history and appends the new one, so the history
    holds at most 31 (simulated: 21) entries; what is dropped is a prefix of
    the old history, the oldest entries, and the order of the rest is kept.
    From a reset, no trace of events leads past that bound. *)
Theorem history_bounded_fifo :
  (forall f t,
      Real.history f ++ [t]
      = firstn (List.length (Real.history f) - 30) (Real.history f)
        ++ Real.history (fst (Real.applySample f t))
      /\ List.length (Real.history (fst (Real.applySample f t)))
         = Nat.min 30 (List.length (Real.history f)) + 1)
  /\ (forall f r,
      Simulated.history f
        ++ [Simulated.executionTime r (Simulated.optimizationLevel (Simulated.stats f))]
      = firstn (List.length (Simulated.history f) - 20) (Simulated.history f)
        ++ Simulated.history (fst (Simulated.applySample f r))
      /\ List.length (Simulated.history (fst (Simulated.applySample f r)))
         = Nat.min 20 (List.length (Simulated.history f)) + 1)
  /\ (forall clock st0 evs,
      Forall (RealRun.inRange (List.length (Real.functions st0))) evs ->
      exists st,
        RealRun.run evs (Real.resetAll clock st0) = Some st
        /\ Forall (fun f => List.length (Real.history f) <= 31) (Real.functions st))
  /\ (forall clock st0 evs,
      Forall (SimulatedRun.inRange (List.length (Simulated.functions st0))) evs ->
      exists st,
        SimulatedRun.run evs (Simulated.resetAll clock st0) = Some st
        /\ Forall (fun f => List.length (Simulated.history f) <= 21)
             (Simulated.functions st)).
Proof.
  split; [|split; [|split]].
  - intros f t. rewrite RealFacts.applySample_history. apply fifo_append.
  - intros f r. rewrite SimulatedFacts.sim_applySample_history. apply fifo_append.
  - intros clock st0 evs Hev.
    destruct (RealFacts.run_total evs (Real.resetAll clock st0)) as [st E].
    { simpl. now rewrite length_map. }
    exists st. split; [exact E|].
    eapply RealFacts.run_records; [ | | | exact E].
    + intros f t _. rewrite RealFacts.applySample_history.
      rewrite (proj2 (fifo_append _ _ _)). lia.
    + intros f. simpl. lia.
    + simpl. apply Forall_forall. intros f Hin.
      apply in_map_iff in Hin. destruct Hin as [g [<- _]]. simpl. lia.
  - intros clock st0 evs Hev.
    destruct (SimulatedFacts.sim_run_total evs (Simulated.resetAll clock st0))
      as [st E].
    { simpl. now rewrite length_map. }
    exists st. split; [exact E|].
    eapply SimulatedFacts.sim_run_records; [ | | | exact E].
    + intros f r _. rewrite SimulatedFacts.sim_applySample_history.
      rewrite (proj2 (fifo_append _ _ _)). lia.
    + intros f. simpl. lia.
    + simpl. apply Forall_forall. intros f Hin.
      apply in_map_iff in Hin. destruct Hin as [g [<- _]]. simpl. lia.
Qed.

Lemma history_bounded_fifo_witness :
  (exists st,
      RealRun.run (repeat (RealRun.Sampled ""%string 0 1%float) 40)
        (Real.resetAll ""%string Real.initialState) = Some st
      /\ Forall (fun f => List.length (Real.history f) <= 31) (Real.functions st))
  /\ (exists st,
      SimulatedRun.run (repeat (SimulatedRun.Sampled ""%string 0 0.5%float) 40)
        (Simulated.resetAll ""%string Simulated.initialState) = Some st
      /\ Forall (fun f => List.length (Simulated.history f) <= 21)
           (Simulated.functions st)).
Proof.
  split.
  - apply (proj1 (proj2 (proj2 history_bounded_fifo))). simpl. repeat constructor.
  - apply (proj2 (proj2 (proj2 history_bounded_fifo))). simpl. repeat constructor.
Defined.

(** C3 as stated fails: after 31 samples of one record the real variant's
    history holds 31 durations, and after 21 the simulated variant's holds 21. *)
Lemma history_exceeds_stated_bound :
  (exists st f,
      RealRun.run (repeat (RealRun.Sampled ""%string 0 1%float) 31)
        Real.initialState = Some st
      /\ nth_error (Real.functions st) 0 = Some f
      /\ 30 < List.length (Real.history f))
  /\ (exists st f,
      SimulatedRun.run (repeat (SimulatedRun.Sampled ""%string 0 0.5%float) 21)
        Simulated.initialState = Some st
      /\ nth_error (Simulated.functions st) 0 = Some f
      /\ 20 < List.length (Simulated.history f)).
Proof.
  split.
  - eexists _, _. split; [vm_compute; reflexivity|].
    split; [reflexivity|]. vm_compute. lia.
  - eexists _, _. split; [vm_compute; reflexivity|].
    split; [reflexivity|]. vm_compute. lia.
Qed.

(** C8.  [resetAll], from any state: the array keeps its length, the record
    at every index keeps its name and source text (real variant: also its
    callback and iteration count), and its statistics are the zero value
    (count 0, total 0, average 0, no first or best time, level 0, cold) with
    an empty history. *)
Theorem resetAll_zeroes_every_record :
  (forall clock st,
      List.length (Real.functions (Real.resetAll clock st))
      = List.length (Real.functions st)
      /\ forall i,
          match nth_error (Real.functions st) i,
                nth_error (Real.functions (Real.resetAll clock st)) i with
          | Some f, Some f' =>
              Real.name f' = Real.name f /\ Real.code f' = Real.code f
              /\ Real.execute f' = Real.execute f
              /\ Real.iterations f' = Real.iterations f
              /\ Real.callCount (Real.stats f') = 0
              /\ Real.totalTime (Real.stats f') = 0%float
              /\ Real.avgTime (Real.stats f') = 0%float
              /\ Real.firstTime (Real.stats f') = None
              /\ Real.bestTime (Real.stats f') = None
              /\ Real.optimizationLevel (Real.stats f') = 0%float
              /\ Real.status (Real.stats f') = cold
              /\ Real.history f' = []
          | None, None => True
          | _, _ => False
          end)
  /\ (forall clock st,
      List.length (Simulated.functions (Simulated.resetAll clock st))
      = List.length (Simulated.functions st)
      /\ forall i,
          match nth_error (Simulated.functions st) i,
                nth_error (Simulated.functions (Simulated.resetAll clock st)) i with
          | Some f, Some f' =>
              Simulated.name f' = Simulated.name f
              /\ Simulated.code f' = Simulated.code f
              /\ Simulated.callCount (Simulated.stats f') = 0
              /\ Simulated.totalTime (Simulated.stats f') = 0%float
              /\ Simulated.avgTime (Simulated.stats f') = 0%float
              /\ Simulated.optimizationLevel (Simulated.stats f') = 0%float
              /\ Simulated.status (Simulated.stats f') = cold
              /\ Simulated.history f' = []
          | None, None => True
          | _, _ => False
          end).
Proof.
  split; intros clock st; (split; [simpl; apply length_map|]); intros i; simpl;
    rewrite nth_error_map; destruct (nth_error _ i); simpl; auto 20.
Qed.

(** C9, as the code has it.  [addLog] keeps the 50 most recent lines and
    appends the new one: a log grown from the empty one holds as many lines
    as were appended, up to 51, and no trace of events of either variant
    leads to a log of more than 51 lines. *)
Theorem log_bounded :
  (forall (Line : Type) (line : Line) (prev : list Line),
      List.length (addLog line prev) = Nat.min 50 (List.length prev) + 1)
  /\ (forall (Line : Type) (lines : list Line),
      List.length (appendAll lines []) = Nat.min 51 (List.length lines))
  /\ (forall evs st st',
      List.length (Real.logs st) <= 51 ->
      RealRun.run evs st = Some st' -> List.length (Real.logs st') <= 51)
  /\ (forall evs st st',
      List.length (Simulated.logs st) <= 51 ->
      SimulatedRun.run evs st = Some st' -> List.length (Simulated.logs st') <= 51).
Proof.
  split; [|split; [|split]].
  - intros. apply addLog_length.
  - intros Line lines. rewrite appendAll_length. simpl.
    destruct (List.length lines) eqn:E; reflexivity.
  - apply RealFacts.run_logs.
  - apply SimulatedFacts.sim_run_logs.
Qed.

Lemma log_bounded_witness :
  List.length
    (Real.logs
       {| Real.functions := Real.initialFunctions;
          Real.logs := [Real.mkLine "12:00:00"%string Real.Starting] |}) <= 51
  /\ List.length (Simulated.logs Simulated.initialState) <= 51.
Proof.
  split.
  - apply (proj1 (proj2 (proj2 log_bounded))
             [RealRun.Logged "12:00:00"%string Real.Starting] Real.initialState).
    + simpl. lia.
    + reflexivity.
  - apply (proj2 (proj2 (proj2 log_bounded)) [] Simulated.initialState).
    + simpl. lia.
    + reflexivity.
Defined.

(** C9 as stated fails: the 51st line appended to an empty log makes it 51
    lines long, in the log of either variant. *)
Lemma log_exceeds_stated_bound :
  50 < List.length (appendAll (repeat tt 51) [])
  /\ (exists st,
      RealRun.run (repeat (RealRun.Logged ""%string Real.Starting) 51)
        Real.initialState = Some st
      /\ 50 < List.length (Real.logs st))
  /\ (exists st,
      SimulatedRun.run (repeat (SimulatedRun.Logged ""%string Simulated.Starting) 51)
        Simulated.initialState = Some st
      /\ 50 < List.length (Simulated.logs st)).
Proof.
  split; [vm_compute; lia|].
  split; eexists; (split; [vm_compute; reflexivity | vm_compute; lia]).
Qed.

(** C10.  A sample of the record at a valid index [i] succeeds, keeps the
    length of the array, leaves the record at every other index as it was,
    and keeps the name and source text of record [i] (real variant: also its
    callback and iteration count). *)
Theorem sample_touches_one_record :
  (forall clock i t st,
      i < List.length (Real.functions st) ->
      exists st' f f',
        Real.executeFunction clock i t st = Some st'
        /\ List.length (Real.functions st') = List.length (Real.functions st)
        /\ (forall j, j <> i ->
              nth_error (Real.functions st') j = nth_error (Real.functions st) j)
        /\ nth_error (Real.functions st) i = Some f
        /\ nth_error (Real.functions st') i = Some f'
        /\ Real.name f' = Real.name f /\ Real.code f' = Real.code f
        /\ Real.execute f' = Real.execute f
        /\ Real.iterations f' = Real.iterations f)
  /\ (forall clock i r st,
      i < List.length (Simulated.functions st) ->
      exists st' f f',
        Simulated.simulateExecution clock i r st = Some st'
        /\ List.length (Simulated.functions st')
           = List.length (Simulated.functions st)
        /\ (forall j, j <> i ->
              nth_error (Simulated.functions st') j
              = nth_error (Simulated.functions st) j)
        /\ nth_error (Simulated.functions st) i = Some f
        /\ nth_error (Simulated.functions st') i = Some f'
        /\ Simulated.name f' = Simulated.name f
        /\ Simulated.code f' = Simulated.code f).
Proof.
  split.
  - intros clock i t st Hi.
    destruct (nth_error_defined _ _ Hi) as [f E].
    eexists _, f, (fst (Real.applySample f t)).
    split; [apply (executeFunction_unfold _ _ _ _ _ E)|]. simpl.
    split; [apply assign_length|].
    split; [intros j Hj; now apply nth_error_assign_other|].
    split; [exact E|].
    split; [now apply nth_error_assign_same|].
    apply RealFacts.applySample_frame.
  - intros clock i r st Hi.
    destruct (nth_error_defined _ _ Hi) as [f E].
    eexists _, f, (fst (Simulated.applySample f r)).
    split; [apply (simulateExecution_unfold _ _ _ _ _ E)|]. simpl.
    split; [apply assign_length|].
    split; [intros j Hj; now apply nth_error_assign_other|].
    split; [exact E|].
    split; [now apply nth_error_assign_same|].
    apply SimulatedFacts.sim_applySample_frame.
Qed.

Lemma sample_touches_one_record_witness :
  (exists st' f f',
      Real.executeFunction "12:00:00"%string 1 3%float Real.initialState = Some st'
      /\ List.length (Real.functions st') = List.length (Real.functions Real.initialState)
      /\ (forall j, j <> 1 ->
            nth_error (Real.functions st') j
            = nth_error (Real.functions Real.initialState) j)
      /\ nth_error (Real.functions Real.initialState) 1 = Some f
      /\ nth_error (Real.functions st') 1 = Some f'
      /\ Real.name f' = Real.name f /\ Real.code f' = Real.code f
      /\ Real.execute f' = Real.execute f
      /\ Real.iterations f' = Real.iterations f)
  /\ (exists st' f f',
      Simulated.simulateExecution "12:00:00"%string 2 0.25%float
        Simulated.initialState = Some st'
      /\ List.length (Simulated.functions st')
         = List.length (Simulated.functions Simulated.initialState)
      /\ (forall j, j <> 2 ->
            nth_error (Simulated.functions st') j
            = nth_error (Simulated.functions Simulated.initialState) j)
      /\ nth_error (Simulated.functions Simulated.initialState) 2 = Some f
      /\ nth_error (Simulated.functions st') 2 = Some f'
      /\ Simulated.name f' = Simulated.name f
      /\ Simulated.code f' = Simulated.code f).
Proof.
  split.
  - apply (proj1 sample_touches_one_record). simpl. lia.
  - apply (proj2 sample_touches_one_record). simpl. lia.
Defined.

(** ** The level of the simulated variant *)

Lemma thresholdStatus_optimized c : 20 <= c -> thresholdStatus c = optimized.
Proof.
  intros H. unfold thresholdStatus.
  now replace (20 <=? c) with true by (symmetry; apply Nat.leb_le; lia).
Qed.

Lemma levelAfter_settles m : levelAfter (22 + m) = 5%float.
Proof.
  induction m as [|m IH].
  - vm_compute. reflexivity.
  - replace (22 + S m) with (S (22 + m)) by lia.
    cbn [levelAfter]. rewrite IH, thresholdStatus_optimized by lia.
    vm_compute. reflexivity.
Qed.

Lemma levelAfter_inRange n : levelInRange (levelAfter n).
Proof.
  destruct (Nat.lt_ge_cases n 22) as [H|H].
  - do 22 (destruct n as [|n]; [split; vm_compute; reflexivity|]). lia.
  - replace n with (22 + (n - 22)) by lia. rewrite levelAfter_settles.
    split; vm_compute; reflexivity.
Qed.

Lemma levelAfter_monotone n : (levelAfter n <=? levelAfter (S n))%float = true.
Proof.
  destruct (Nat.lt_ge_cases n 22) as [H|H].
  - do 22 (destruct n as [|n]; [vm_compute; reflexivity|]). lia.
  - replace (S n) with (22 + (S n - 22)) by lia.
    replace n with (22 + (n - 22)) at 1 by lia.
    rewrite !levelAfter_settles. vm_compute. reflexivity.
Qed.

Lemma sim_level_applySample func r :
  Simulated.optimizationLevel (Simulated.stats (fst (Simulated.applySample func r)))
  = if OPTIMIZATION_THRESHOLD <=? Simulated.callCount (Simulated.stats func) + 1
    then tierLevel (thresholdStatus (Simulated.callCount (Simulated.stats func) + 1))
           (Simulated.optimizationLevel (Simulated.stats func))
    else Simulated.optimizationLevel (Simulated.stats func).
Proof.
  rewrite SimulatedFacts.sim_applySample_stats.
  unfold Simulated.classify, thresholdStatus,
    OPTIMIZED_THRESHOLD, HOT_THRESHOLD, OPTIMIZATION_THRESHOLD.
  cbn [Simulated.accumulate Simulated.callCount Simulated.optimizationLevel].
  destruct (20 <=? _) eqn:E20; [apply Nat.leb_le in E20|apply Nat.leb_gt in E20].
  { replace (5 <=? _) with true by (symmetry; apply Nat.leb_le; lia).
    reflexivity. }
  destruct (10 <=? _) eqn:E10; [apply Nat.leb_le in E10|apply Nat.leb_gt in E10].
  { replace (5 <=? _) with true by (symmetry; apply Nat.leb_le; lia).
    reflexivity. }
  destruct (5 <=? _); reflexivity.
Qed.

Lemma tierLevel_below c level :
  (OPTIMIZATION_THRESHOLD <=? c) = false -> tierLevel (thresholdStatus c) level = level.
Proof.
  unfold OPTIMIZATION_THRESHOLD. intros E. apply Nat.leb_gt in E.
  unfold thresholdStatus.
  repeat match goal with
  | |- context [?a <=? ?b] =>
      let H := fresh in
      destruct (a <=? b) eqn:H;
      [apply Nat.leb_le in H | apply Nat.leb_gt in H]; try lia
  end; reflexivity.
Qed.

(** C7.  In the simulated variant a sample moves the level by the step of
    the tier it lands in (0.2 while warming, 0.3 while hot, 0.5 while
    optimized), capped at the ceiling of that tier (2, 4, 5), and leaves it
    alone while cold; from a reset the level of every record is the value
    [levelAfter] of its call count, which lies within [0, 5] and never
    decreases from one call to the next. *)
Theorem simulated_level_steps_and_stays_in_range :
  (forall f r,
      Simulated.status (Simulated.stats f)
      = thresholdStatus (Simulated.callCount (Simulated.stats f)) ->
      Simulated.optimizationLevel (Simulated.stats (fst (Simulated.applySample f r)))
      = tierLevel (Simulated.status (Simulated.stats (fst (Simulated.applySample f r))))
          (Simulated.optimizationLevel (Simulated.stats f)))
  /\ (forall clock st0 evs,
      Forall (SimulatedRun.inRange (List.length (Simulated.functions st0))) evs ->
      exists st,
        SimulatedRun.run evs (Simulated.resetAll clock st0) = Some st
        /\ Forall (fun f =>
                     Simulated.optimizationLevel (Simulated.stats f)
                     = levelAfter (Simulated.callCount (Simulated.stats f))
                     /\ levelInRange (Simulated.optimizationLevel (Simulated.stats f)))
             (Simulated.functions st))
  /\ (forall n,
      levelInRange (levelAfter n)
      /\ (levelAfter n <=? levelAfter (S n))%float = true).
Proof.
  assert (Step : forall f r,
    Simulated.status (Simulated.stats f)
    = thresholdStatus (Simulated.callCount (Simulated.stats f)) ->
    Simulated.status (Simulated.stats (fst (Simulated.applySample f r)))
    = thresholdStatus (Simulated.callCount (Simulated.stats f) + 1)
    /\ Simulated.optimizationLevel (Simulated.stats (fst (Simulated.applySample f r)))
       = tierLevel (thresholdStatus (Simulated.callCount (Simulated.stats f) + 1))
           (Simulated.optimizationLevel (Simulated.stats f))).
  { intros f r H. split.
    - rewrite SimulatedFacts.sim_status_applySample. now apply thresholdStatus_next.
    - rewrite sim_level_applySample.
      destruct (OPTIMIZATION_THRESHOLD <=? _) eqn:E; [reflexivity|].
      now rewrite tierLevel_below. }
  split; [|split].
  - intros f r H. destruct (Step f r H) as [-> ->]. reflexivity.
  - intros clock st0 evs Hev.
    destruct (SimulatedFacts.sim_run_total evs (Simulated.resetAll clock st0))
      as [st E].
    { simpl. now rewrite length_map. }
    exists st. split; [exact E|].
    assert (Inv : Forall (fun f =>
        Simulated.status (Simulated.stats f)
        = thresholdStatus (Simulated.callCount (Simulated.stats f))
        /\ Simulated.optimizationLevel (Simulated.stats f)
           = levelAfter (Simulated.callCount (Simulated.stats f)))
      (Simulated.functions st)).
    { eapply SimulatedFacts.sim_run_records; [ | | | exact E].
      - intros f r [Hs Hl]. destruct (Step f r Hs) as [Hs' Hl'].
        rewrite SimulatedFacts.sim_callCount_applySample. split; [exact Hs'|].
        rewrite Hl', Hl. now rewrite Nat.add_1_r.
      - intros f. split; reflexivity.
      - simpl. apply Forall_forall. intros f Hin.
        apply in_map_iff in Hin. destruct Hin as [g [<- _]]. split; reflexivity. }
    eapply Forall_impl; [|exact Inv]. intros f [_ Hl]. split; [exact Hl|].
    rewrite Hl. apply levelAfter_inRange.
  - intros n. split; [apply levelAfter_inRange | apply levelAfter_monotone].
Qed.

Lemma simulated_level_steps_and_stays_in_range_witness :
  (exists st,
    SimulatedRun.run (repeat (SimulatedRun.Sampled ""%string 1 0.75%float) 30)
      (Simulated.resetAll ""%string Simulated.initialState) = Some st
    /\ Forall (fun f =>
                 Simulated.optimizationLevel (Simulated.stats f)
                 = levelAfter (Simulated.callCount (Simulated.stats f))
                 /\ levelInRange (Simulated.optimizationLevel (Simulated.stats f)))
         (Simulated.functions st))
  /\ Simulated.optimizationLevel (Simulated.stats
        (fst (Simulated.applySample
                (Simulated.mkFunction "f"%string ""%string
                   (Simulated.mkStats 4 400 100 cold 0) []) 0.5%float)))
     = tierLevel
         (Simulated.status (Simulated.stats
            (fst (Simulated.applySample
                    (Simulated.mkFunction "f"%string ""%string
                       (Simulated.mkStats 4 400 100 cold 0) []) 0.5%float))))
         0%float.
Proof.
  split.
  - apply (proj1 (proj2 simulated_level_steps_and_stays_in_range)).
    simpl. repeat constructor.
  - exact (proj1 simulated_level_steps_and_stays_in_range
             (Simulated.mkFunction "f"%string ""%string
                (Simulated.mkStats 4 400 100 cold 0) []) 0.5%float eq_refl).
Defined.

(** ** The order of binary64 numbers *)

Lemma SFcompare_refl x : x <> S754_nan -> SFcompare x x = Some Eq.
Proof.
  destruct x as [s|s| |s m e]; intros H; try congruence; simpl.
  - reflexivity.
  - now destruct s.
  - rewrite Z.compare_refl.
    change (Pos.compare_cont Eq m m) with (Pos.compare m m).
    rewrite Pos.compare_refl. now destruct s.
Qed.

Lemma SF_lt_le_trans a b c :
  SFltb a b = true -> SFleb b c = true -> SFleb a c = true.
Proof.
  unfold SFltb, SFleb.
  destruct a as [sa|sa| |sa ma ea], b as [sb|sb| |sb mb eb],
    c as [sc|sc| |sc mc ec]; simpl;
    try destruct sa; try destruct sb; try destruct sc; simpl;
    try discriminate; try reflexivity;
    change (Pos.compare_cont Eq) with Pos.compare;
    destruct (Z.compare_spec ea eb), (Z.compare_spec eb ec),
      (Z.compare_spec ea ec); try lia; try discriminate; try reflexivity;
    destruct (Pos.compare_spec ma mb), (Pos.compare_spec mb mc),
      (Pos.compare_spec ma mc); simpl; try lia; try discriminate;
    try reflexivity.
Qed.

Lemma leb_refl x : is_nan x = false -> (x <=? x)%float = true.
Proof.
  unfold is_nan. intros H. apply negb_false_iff in H.
  rewrite eqb_spec in H. rewrite leb_spec.
  unfold SFeqb in H. unfold SFleb.
  destruct (SFcompare (Prim2SF x) (Prim2SF x)) as [[| |]|]; congruence.
Qed.

Lemma ltb_leb_trans x y z :
  (x <? y)%float = true -> (y <=? z)%float = true -> (x <=? z)%float = true.
Proof.
  rewrite ltb_spec, !leb_spec. apply SF_lt_le_trans.
Qed.

(** ** First time, best time and level of the real variant *)

Module RealTimes.
Import Real RealRun.

Lemma classify_keeps n s :
  firstTime (fst (classify n s)) = firstTime s
  /\ bestTime (fst (classify n s)) = bestTime s
  /\ optimizationLevel (fst (classify n s)) = optimizationLevel s.
Proof.
  unfold classify.
  destruct (_ <=? _); [|destruct (_ <=? _); [|destruct (_ <=? _)]]; auto.
Qed.

Lemma trackTimes_first n t s :
  firstTime (fst (trackTimes n t s))
  = Some (match firstTime s with Some f => f | None => t end).
Proof.
  unfold trackTimes.
  destruct (firstTime s), (bestTime s) as [b|];
    try destruct (t <? b)%float; reflexivity.
Qed.

Lemma trackTimes_best n t s :
  bestTime (fst (trackTimes n t s))
  = Some (match bestTime s with
          | Some b => if (t <? b)%float then t else b
          | None => t
          end).
Proof.
  unfold trackTimes.
  destruct (firstTime s), (bestTime s) as [b|];
    try destruct (t <? b)%float; reflexivity.
Qed.

Lemma firstTime_applySample func t :
  firstTime (stats (fst (applySample func t)))
  = Some (match firstTime (stats func) with Some f => f | None => t end).
Proof.
  rewrite RealFacts.applySample_stats.
  rewrite (proj1 (classify_keeps _ _)).
  destruct (RealFacts.relevel_count
              (accumulate t (fst (trackTimes (name func) t (stats func)))))
    as (_ & _ & -> & _).
  cbn [accumulate firstTime]. apply trackTimes_first.
Qed.

Lemma bestTime_applySample func t :
  bestTime (stats (fst (applySample func t)))
  = Some (match bestTime (stats func) with
          | Some b => if (t <? b)%float then t else b
          | None => t
          end).
Proof.
  rewrite RealFacts.applySample_stats.
  rewrite (proj1 (proj2 (classify_keeps _ _))).
  destruct (RealFacts.relevel_count
              (accumulate t (fst (trackTimes (name func) t (stats func)))))
    as (_ & _ & _ & ->).
  cbn [accumulate bestTime]. apply trackTimes_best.
Qed.

Lemma level_applySample func t :
  let first := match firstTime (stats func) with Some f => f | None => t end in
  let best := match bestTime (stats func) with
              | Some b => if (t <? b)%float then t else b
              | None => t
              end in
  optimizationLevel (stats (fst (applySample func t)))
  = if (0 <? first)%float
    then clamp05 ((1 - best / first) * 20)%float
    else optimizationLevel (stats func).
Proof.
  intros first best.
  rewrite RealFacts.applySample_stats.
  rewrite (proj2 (proj2 (classify_keeps _ _))).
  unfold relevel. cbn [accumulate firstTime bestTime].
  rewrite trackTimes_first, trackTimes_best. fold first best.
  destruct (0 <? first)%float; [reflexivity|].
  cbn [optimizationLevel].
  apply (proj2 (proj2 (RealFacts.trackTimes_count _ _ _))).
Qed.

Lemma bestWithinFirst_applySample func t :
  is_nan t = false ->
  bestWithinFirst (stats func) ->
  bestWithinFirst (stats (fst (applySample func t))).
Proof.
  intros Ht. unfold bestWithinFirst.
  rewrite firstTime_applySample, bestTime_applySample.
  destruct (firstTime (stats func)) as [f|], (bestTime (stats func)) as [b|];
    try contradiction.
  - intros H. destruct (t <? b)%float eqn:E; [|exact H].
    eapply ltb_leb_trans; eauto.
  - intros _. now apply leb_refl.
Qed.

Lemma run_bestWithinFirst evs : forall st st',
  Forall measured evs ->
  Forall (fun f => bestWithinFirst (stats f)) (functions st) ->
  run evs st = Some st' ->
  Forall (fun f => bestWithinFirst (stats f)) (functions st').
Proof.
  induction evs as [|ev evs IH]; intros st st' Hm HQ; simpl.
  - now intros [= <-].
  - inversion Hm as [|? ? Hev Hevs]; subst.
    destruct (step ev st) as [st1|] eqn:E; [|discriminate].
    apply IH; [exact Hevs|]. clear IH Hevs.
    destruct ev as [clock i t|clock|clock m]; simpl in *.
    + unfold executeFunction in E.
      destruct (nth_error (functions st) i) as [f|] eqn:En; [|discriminate].
      pose proof (bestWithinFirst_applySample f t Hev) as Hf.
      destruct (applySample f t) as [f' msgs]. injection E as <-. simpl in *.
      apply Forall_assign; auto. apply Hf.
      rewrite Forall_forall in HQ. apply HQ. eapply nth_error_In; eauto.
    + injection E as <-. simpl. apply Forall_forall. intros f Hin.
      apply in_map_iff in Hin. destruct Hin as [g [<- _]]. reflexivity.
    + now injection E as <-.
Qed.

End RealTimes.

(** C4.  In the real variant the first sample of a record sets both first
    and best time to its duration; afterwards the first time is kept, and
    the best time is replaced only by a strictly lower duration.  From a
    reset, with durations that are numbers, every record has either no first
    and best time (and no call), or both with best <= first. *)
Theorem bestTime_never_above_firstTime :
  (forall f t,
      Real.firstTime (Real.stats f) = None ->
      Real.bestTime (Real.stats f) = None ->
      Real.firstTime (Real.stats (fst (Real.applySample f t))) = Some t
      /\ Real.bestTime (Real.stats (fst (Real.applySample f t))) = Some t)
  /\ (forall f t first,
      Real.firstTime (Real.stats f) = Some first ->
      Real.firstTime (Real.stats (fst (Real.applySample f t))) = Some first)
  /\ (forall f t best,
      Real.bestTime (Real.stats f) = Some best ->
      Real.bestTime (Real.stats (fst (Real.applySample f t)))
      = Some (if (t <? best)%float then t else best))
  /\ (forall clock st0 evs,
      Forall (RealRun.inRange (List.length (Real.functions st0))) evs ->
      Forall measured evs ->
      exists st,
        RealRun.run evs (Real.resetAll clock st0) = Some st
        /\ Forall (fun f => bestWithinFirst (Real.stats f)) (Real.functions st)).
Proof.
  split; [|split; [|split]].
  - intros f t Hf Hb.
    now rewrite RealTimes.firstTime_applySample, RealTimes.bestTime_applySample,
      Hf, Hb.
  - intros f t first Hf. now rewrite RealTimes.firstTime_applySample, Hf.
  - intros f t best Hb. now rewrite RealTimes.bestTime_applySample, Hb.
  - intros clock st0 evs Hev Hm.
    destruct (RealFacts.run_total evs (Real.resetAll clock st0)) as [st E].
    { simpl. now rewrite length_map. }
    exists st. split; [exact E|].
    eapply RealTimes.run_bestWithinFirst; [exact Hm| |exact E].
    simpl. apply Forall_forall. intros f Hin.
    apply in_map_iff in Hin. destruct Hin as [g [<- _]]. reflexivity.
Qed.

Lemma bestTime_never_above_firstTime_witness :
  (exists st,
    RealRun.run
      [RealRun.Sampled "12:00:00"%string 0 8%float;
       RealRun.Sampled "12:00:01"%string 0 9.5%float;
       RealRun.Sampled "12:00:02"%string 0 6.25%float;
       RealRun.Sampled "12:00:03"%string 2 40%float]
      (Real.resetAll "11:59:59"%string Real.initialState) = Some st
    /\ Forall (fun f => bestWithinFirst (Real.stats f)) (Real.functions st))
  /\ (Real.firstTime (Real.stats
         (fst (Real.applySample
                 (Real.mkFunction "f"%string ""%string Real.zeroStats []
                    Real.run_fibonacci 1) 8%float))) = Some 8%float
      /\ Real.bestTime (Real.stats
            (fst (Real.applySample
                    (Real.mkFunction "f"%string ""%string Real.zeroStats []
                       Real.run_fibonacci 1) 8%float))) = Some 8%float)
  /\ Real.firstTime (Real.stats
        (fst (Real.applySample
                (Real.mkFunction "f"%string ""%string
                   (Real.mkStats 1 8 8 cold 0 (Some 8%float) (Some 8%float))
                   [8%float] Real.run_fibonacci 1) 6.25%float))) = Some 8%float
  /\ Real.bestTime (Real.stats
        (fst (Real.applySample
                (Real.mkFunction "f"%string ""%string
                   (Real.mkStats 1 8 8 cold 0 (Some 8%float) (Some 8%float))
                   [8%float] Real.run_fibonacci 1) 6.25%float)))
     = Some (if (6.25 <? 8)%float then 6.25%float else 8%float).
Proof.
  split; [|split; [|split]].
  - apply (proj2 (proj2 (proj2 bestTime_never_above_firstTime))).
    + simpl. repeat constructor.
    + repeat constructor.
  - exact (proj1 bestTime_never_above_firstTime
             (Real.mkFunction "f"%string ""%string Real.zeroStats []
                Real.run_fibonacci 1) 8%float eq_refl eq_refl).
  - exact (proj1 (proj2 bestTime_never_above_firstTime)
             (Real.mkFunction "f"%string ""%string
                (Real.mkStats 1 8 8 cold 0 (Some 8%float) (Some 8%float))
                [8%float] Real.run_fibonacci 1) 6.25%float 8%float eq_refl).
  - exact (proj1 (proj2 (proj2 bestTime_never_above_firstTime))
             (Real.mkFunction "f"%string ""%string
                (Real.mkStats 1 8 8 cold 0 (Some 8%float) (Some 8%float))
                [8%float] Real.run_fibonacci 1) 6.25%float 8%float eq_refl).
Defined.

(** C6.  In the real variant every sample leaves first and best time set;
    when the first time is above zero the level stored is
    clamp(0, 5, (1 - best/first) * 20) of these two, and otherwise the level
    is the one the record had (no division takes place).  A best time at
    three quarters of the first gives level 5. *)
Theorem real_level_from_improvement :
  (forall f t,
      exists first best,
        Real.firstTime (Real.stats (fst (Real.applySample f t))) = Some first
        /\ Real.bestTime (Real.stats (fst (Real.applySample f t))) = Some best
        /\ Real.optimizationLevel (Real.stats (fst (Real.applySample f t)))
           = if (0 <? first)%float
             then clamp05 ((1 - best / first) * 20)%float
             else Real.optimizationLevel (Real.stats f))
  /\ (forall first best : float,
      (best / first)%float = 0.75%float ->
      clamp05 ((1 - best / first) * 20)%float = 5%float).
Proof.
  split.
  - intros f t. eexists _, _.
    split; [apply RealTimes.firstTime_applySample|].
    split; [apply RealTimes.bestTime_applySample|].
    apply RealTimes.level_applySample.
  - intros first best ->. vm_compute. reflexivity.
Qed.

Lemma real_level_from_improvement_witness :
  clamp05 ((1 - 3 / 4) * 20)%float = 5%float.
Proof.
  apply (proj2 real_level_from_improvement 4%float 3%float).
  vm_compute. reflexivity.
Defined.

(** ** Binary64 arithmetic of the simulated timer *)

(** The bounds of the timer are proved on the specification of the
    primitive operations ([SFmul], [SFadd], [SFsub] of the standard library,
    at precision 53 and maximal exponent 1024): a product or sum is the exact
    integer operation on mantissas followed by [binary_round_aux], a shift to
    the exponent of the result and a rounding to nearest even.  Values are
    compared as integers, in units of [2^-scale]. *)

Module Binary64.
#[local] Open Scope Z_scope.

(** *** Digits and shifts *)

Lemma digits2_pos_bounds m :
  2 ^ (Zpos (digits2_pos m) - 1) <= Zpos m < 2 ^ Zpos (digits2_pos m).
Proof.
  induction m as [m IH|m IH|]; cbn [digits2_pos].
  - rewrite Pos2Z.inj_succ.
    replace (Z.succ (Zpos (digits2_pos m)) - 1) with (Z.succ (Zpos (digits2_pos m) - 1)) by lia.
    rewrite !Z.pow_succ_r by lia. lia.
  - rewrite Pos2Z.inj_succ.
    replace (Z.succ (Zpos (digits2_pos m)) - 1) with (Z.succ (Zpos (digits2_pos m) - 1)) by lia.
    rewrite !Z.pow_succ_r by lia. lia.
  - simpl. lia.
Qed.

Lemma digits_le m k : Zpos m < 2 ^ k -> Zpos (digits2_pos m) <= k.
Proof.
  intros H. destruct (digits2_pos_bounds m) as [L _].
  destruct (Z.le_gt_cases (Zpos (digits2_pos m)) k) as [|G]; [assumption|].
  exfalso. assert (2 ^ k <= 2 ^ (Zpos (digits2_pos m) - 1)).
  { apply Z.pow_le_mono_r; lia. }
  lia.
Qed.

(** [iter_pos] is iteration over the unary count. *)
Lemma iter_pos_nat {A : Type} (f : A -> A) p : forall x,
  iter_pos f p x = Nat.iter (Pos.to_nat p) f x.
Proof.
  induction p as [p IH|p IH|]; intros x; cbn [iter_pos].
  - rewrite !IH, Pos2Nat.inj_xI.
    replace (S (2 * Pos.to_nat p))%nat
      with (S (Pos.to_nat p + Pos.to_nat p))%nat by lia.
    now rewrite Nat.iter_succ_r, Nat.iter_add.
  - rewrite !IH, Pos2Nat.inj_xO.
    replace (2 * Pos.to_nat p)%nat with (Pos.to_nat p + Pos.to_nat p)%nat by lia.
    now rewrite Nat.iter_add.
  - reflexivity.
Qed.

(** One shift halves the mantissa, records the bit shifted out as the
    round bit and accumulates the older ones in the sticky bit. *)
Lemma shr_1_spec m r s :
  0 <= m ->
  shr_m (shr_1 (Build_shr_record m r s)) = m / 2
  /\ shr_r (shr_1 (Build_shr_record m r s)) = Z.odd m
  /\ shr_s (shr_1 (Build_shr_record m r s)) = (r || s)%bool.
Proof.
  intros H. destruct m as [|[p|p|]|p]; try lia; cbn [shr_1 shr_m shr_r shr_s].
  - auto.
  - repeat split. rewrite Pos2Z.inj_xI.
    apply Z.div_unique with (r := 1); lia.
  - repeat split. rewrite Pos2Z.inj_xO.
    apply Z.div_unique with (r := 0); lia.
  - auto.
Qed.

(** [n] shifts divide by [2^n]; when the division is exact, round and sticky
    bit are clear. *)
Lemma shr_iter_spec n m :
  0 <= m ->
  shr_m (Nat.iter n shr_1 (Build_shr_record m false false)) = m / 2 ^ Z.of_nat n
  /\ (m mod 2 ^ Z.of_nat n = 0 ->
      shr_r (Nat.iter n shr_1 (Build_shr_record m false false)) = false
      /\ shr_s (Nat.iter n shr_1 (Build_shr_record m false false)) = false).
Proof.
  intros Hm. induction n as [|n [Hq Hz]].
  - simpl. rewrite Z.div_1_r. auto.
  - rewrite !Nat.iter_succ.
    destruct (Nat.iter n shr_1 _) as [q r s]. cbn [shr_m shr_r shr_s] in Hq, Hz.
    assert (Hq0 : 0 <= q) by (subst q; apply Z.div_pos; lia).
    destruct (shr_1_spec q r s Hq0) as (E1 & E2 & E3). rewrite E1, E2, E3.
    rewrite Nat2Z.inj_succ, Z.pow_succ_r by lia.
    assert (P : 0 < 2 ^ Z.of_nat n) by (apply Z.pow_pos_nonneg; lia).
    split.
    + subst q. rewrite Z.div_div by lia. f_equal. lia.
    + intros H0.
      assert (D : m = 2 * 2 ^ Z.of_nat n * (m / (2 * 2 ^ Z.of_nat n))).
      { pose proof (Z.div_mod m (2 * 2 ^ Z.of_nat n)). lia. }
      assert (M : m mod 2 ^ Z.of_nat n = 0).
      { rewrite D. rewrite <- Z.mul_assoc, (Z.mul_comm 2), <- Z.mul_assoc.
        rewrite Z.mul_comm. apply Z.mod_mul. lia. }
      destruct (Hz M) as [-> ->]. split; [|reflexivity].
      subst q. rewrite D at 1.
      replace (2 * 2 ^ Z.of_nat n * (m / (2 * 2 ^ Z.of_nat n)))
        with (2 * (m / (2 * 2 ^ Z.of_nat n)) * 2 ^ Z.of_nat n) by lia.
      rewrite Z.div_mul by lia. rewrite Z.odd_mul. reflexivity.
Qed.

Lemma fexp64_eq e : fexp64 e = Z.max (e - 53) (-1074).
Proof. reflexivity. Qed.

(** The first component of [shr_fexp]: a floor division by a power of two,
    exact when nothing is shifted out. *)
Lemma shr_fexp_exact m e :
  0 <= m ->
  let n := Z.max 0 (fexp64 (Zdigits2 m + e) - e) in
  shr_m (fst (shr_fexp prec emax m e loc_Exact)) = m / 2 ^ n
  /\ snd (shr_fexp prec emax m e loc_Exact) = e + n
  /\ (m mod 2 ^ n = 0 ->
      loc_of_shr_record (fst (shr_fexp prec emax m e loc_Exact)) = loc_Exact).
Proof.
  intros Hm n. unfold shr_fexp, shr. fold (fexp64 (Zdigits2 m + e)).
  cbn [shr_record_of_loc].
  destruct (fexp64 (Zdigits2 m + e) - e) as [|p|p] eqn:E; subst n;
    cbn [fst snd shr_m loc_of_shr_record].
  - simpl. rewrite Z.div_1_r. repeat split; lia.
  - rewrite iter_pos_nat.
    destruct (shr_iter_spec (Pos.to_nat p) m Hm) as [Hq Hz].
    rewrite positive_nat_Z in Hq, Hz.
    replace (Z.max 0 (Z.pos p)) with (Z.pos p) by lia.
    repeat split; [exact Hq|].
    intros H0. destruct (Hz H0) as [Hr Hs].
    destruct (Nat.iter _ _ _) as [q r s]. cbn in Hr, Hs. subst. reflexivity.
  - simpl. rewrite Z.div_1_r. repeat split; lia.
Qed.

(** *** Rounding to nearest *)

Lemma round_nearest_even_bounds m l :
  m <= round_nearest_even m l <= m + 1.
Proof.
  destruct l as [|[| |]]; cbn [round_nearest_even]; try lia.
  destruct (Z.even m); lia.
Qed.

Lemma scaled_lt_digits m e k :
  - scale <= e ->
  Zpos m * 2 ^ (e + scale) < 2 ^ (k + scale) ->
  Zdigits2 (Zpos m) + e <= k.
Proof.
  intros He H.
  assert (P : 0 < 2 ^ (e + scale)) by (apply Z.pow_pos_nonneg; lia).
  destruct (Z.le_gt_cases k e) as [L|G].
  - exfalso.
    assert (2 ^ (k + scale) <= 2 ^ (e + scale)).
    { destruct (Z.lt_ge_cases (k + scale) 0).
      - rewrite Z.pow_neg_r by lia. lia.
      - apply Z.pow_le_mono_r; lia. }
    nia.
  - cbn [Zdigits2].
    assert (Zpos (digits2_pos m) <= k - e); [|lia].
    apply digits_le.
    replace (k + scale) with ((k - e) + (e + scale)) in H by lia.
    rewrite (Z.pow_add_r 2 (k - e) (e + scale)) in H by lia.
    assert (0 < 2 ^ (k - e)) by (apply Z.pow_pos_nonneg; lia). nia.
Qed.

(** Rounding a positive mantissa at exponent [e] whose value lies below
    [2^k]: bounds that are multiples of the unit at binade [k] pass through
    the shift and the rounding. *)
Lemma shr_fexp_bounds m e k :
  - scale <= e ->
  Zpos m * 2 ^ (e + scale) < 2 ^ (k + scale) ->
  let m' := shr_m (fst (shr_fexp prec emax (Zpos m) e loc_Exact)) in
  let l' := loc_of_shr_record (fst (shr_fexp prec emax (Zpos m) e loc_Exact)) in
  let e' := snd (shr_fexp prec emax (Zpos m) e loc_Exact) in
  0 <= m' /\ e <= e' /\ e' <= Z.max e (fexp64 k)
  /\ m' * 2 ^ (e' + scale) <= Zpos m * 2 ^ (e + scale)
  /\ (forall B, (2 ^ (fexp64 k + scale) | B) ->
        B <= Zpos m * 2 ^ (e + scale) -> B <= m' * 2 ^ (e' + scale))
  /\ (forall B, (2 ^ (fexp64 k + scale) | B) ->
        Zpos m * 2 ^ (e + scale) <= B ->
        round_nearest_even m' l' * 2 ^ (e' + scale) <= B).
Proof.
  intros He HX m' l' e'.
  assert (Hd := scaled_lt_digits m e k He HX).
  destruct (shr_fexp_exact (Zpos m) e ltac:(lia)) as (Hm & Hs & Hx).
  fold m' in Hm. fold e' in Hs. fold l' in Hx.
  set (n := Z.max 0 (fexp64 (Zdigits2 (Zpos m) + e) - e)) in *.
  assert (Hn : 0 <= n) by (subst n; lia).
  assert (Hfe : fexp64 (Zdigits2 (Z.pos m) + e) <= fexp64 k).
  { rewrite !fexp64_eq. lia. }
  assert (P : 0 < 2 ^ (e + scale)) by (apply Z.pow_pos_nonneg; lia).
  assert (N : 0 < 2 ^ n) by (apply Z.pow_pos_nonneg; lia).
  assert (E' : 2 ^ (e' + scale) = 2 ^ n * 2 ^ (e + scale)).
  { rewrite Hs, <- Z.pow_add_r by lia. f_equal. lia. }
  assert (Hdiv := Z.div_mod (Zpos m) (2 ^ n) ltac:(lia)).
  assert (Hmod := Z.mod_pos_bound (Zpos m) (2 ^ n) N).
  assert (Hm0 : 0 <= m') by (rewrite Hm; apply Z.div_pos; lia).
  split; [exact Hm0|]. split; [lia|]. split; [subst n; lia|].
  split; [rewrite E', Hm; nia|].
  destruct (Z.eq_dec n 0) as [Z0|NZ].
  - (* nothing is shifted out *)
    rewrite Z0 in *. rewrite Z.pow_0_r, Z.div_1_r in *.
    assert (e' = e) by lia. subst e'. rewrite H in *.
    split.
    + intros B _ HB. rewrite Hm. exact HB.
    + intros B _ HB.
      rewrite Hx by (apply Z.mod_1_r). cbn [round_nearest_even].
      rewrite Hm. exact HB.
  - (* a shift by [n > 0] to the exponent [fexp] of the value *)
    assert (He' : e' = fexp64 (Zdigits2 (Z.pos m) + e)) by (subst n; lia).
    assert (Al : forall B, (2 ^ (fexp64 k + scale) | B) ->
                 exists c, B = c * 2 ^ n * 2 ^ (e + scale)).
    { intros B [b ->].
      exists (b * 2 ^ (fexp64 k - e')).
      rewrite <- !Z.mul_assoc. f_equal.
      rewrite <- E', <- Z.pow_add_r by lia. f_equal. lia. }
    split.
    + intros B HB HL. destruct (Al B HB) as [c ->].
      rewrite E', Hm.
      assert (c * 2 ^ n <= Zpos m) by nia.
      assert (c <= Zpos m / 2 ^ n) by (apply Z.div_le_lower_bound; lia).
      nia.
    + intros B HB HU. destruct (Al B HB) as [c ->].
      rewrite E'.
      assert (Hc : Zpos m <= c * 2 ^ n) by nia.
      pose proof (round_nearest_even_bounds m' l') as Hr.
      destruct (Z.eq_dec (Zpos m mod 2 ^ n) 0) as [Ex|Inex].
      * rewrite (Hx Ex) in *. cbn [round_nearest_even] in *.
        assert (m' <= c) by (rewrite Hm; nia). nia.
      * assert (m' + 1 <= c) by (rewrite Hm; nia). nia.
Qed.

Lemma pow2_divide a b : 0 <= a <= b -> (2 ^ a | 2 ^ b).
Proof.
  intros H. exists (2 ^ (b - a)). rewrite <- Z.pow_add_r by lia. f_equal. lia.
Qed.

Lemma aligned_weaken k k' B :
  k <= k' -> (2 ^ (fexp64 k' + scale) | B) -> (2 ^ (fexp64 k + scale) | B).
Proof.
  intros H HB. eapply Z.divide_trans; [|exact HB].
  apply pow2_divide. rewrite !fexp64_eq. unfold scale. lia.
Qed.

(** Rounding of the exact value [mx * 2^ex], below [2^k]: the result is zero
    or a positive finite number, and it stays within any two bounds around
    the exact value that are representable at that magnitude. *)
Lemma binary_round_aux_bounds mx ex k Blo Bhi :
  - scale <= ex <= 971 -> -1074 <= k <= 1000 ->
  Zpos mx * 2 ^ (ex + scale) < 2 ^ (k + scale) ->
  (2 ^ (fexp64 (k + 1) + scale) | Blo) ->
  (2 ^ (fexp64 (k + 1) + scale) | Bhi) ->
  Blo <= Zpos mx * 2 ^ (ex + scale) <= Bhi ->
  (binary_round_aux prec emax false (Zpos mx) ex loc_Exact = S754_zero false
   \/ exists m e,
        binary_round_aux prec emax false (Zpos mx) ex loc_Exact
        = S754_finite false m e /\ - scale <= e)
  /\ Blo <= scaled (binary_round_aux prec emax false (Zpos mx) ex loc_Exact) <= Bhi.
Proof.
  intros He Hk HX Hlo Hhi [HL HU].
  assert (P : 0 < 2 ^ (ex + scale)) by (apply Z.pow_pos_nonneg; lia).
  destruct (shr_fexp_bounds mx ex k ltac:(lia) HX)
    as (Hm1 & He1 & He1' & Hfl & Hlow & Hupp).
  unfold binary_round_aux.
  destruct (shr_fexp prec emax (Zpos mx) ex loc_Exact) as [rec1 e1].
  cbn [fst snd] in *.
  set (m2 := round_nearest_even (shr_m rec1) (loc_of_shr_record rec1)) in *.
  pose proof (round_nearest_even_bounds (shr_m rec1) (loc_of_shr_record rec1)) as Hr.
  fold m2 in Hr.
  assert (P1 : 0 < 2 ^ (e1 + scale)) by (apply Z.pow_pos_nonneg; lia).
  assert (L2 : Blo <= m2 * 2 ^ (e1 + scale)).
  { specialize (Hlow Blo (aligned_weaken k (k + 1) _ ltac:(lia) Hlo) HL). nia. }
  assert (U2 : m2 * 2 ^ (e1 + scale) <= Bhi).
  { apply Hupp; [|exact HU]. apply (aligned_weaken k (k + 1)); [lia|exact Hhi]. }
  assert (M2 : m2 * 2 ^ (e1 + scale) < 2 ^ (k + 1 + scale)).
  { assert (m2 * 2 ^ (e1 + scale) <= 2 ^ (k + scale)).
    { apply Hupp; [|lia]. apply pow2_divide. rewrite fexp64_eq. unfold scale in *. lia. }
    assert (0 <= k + scale) by (unfold scale; lia).
    replace (k + 1 + scale) with (Z.succ (k + scale)) by lia.
    rewrite Z.pow_succ_r by lia.
    assert (0 < 2 ^ (k + scale)) by (apply Z.pow_pos_nonneg; lia). lia. }
  assert (Fk : fexp64 k <= 971 /\ fexp64 (k + 1) <= 971).
  { rewrite !fexp64_eq. lia. }
  destruct m2 as [|p2|p2] eqn:E2; [| |lia].
  - destruct (shr_fexp_exact 0 e1 ltac:(lia)) as (Hq & _ & _).
    destruct (shr_fexp prec emax 0 e1 loc_Exact) as [rec2 e2].
    cbn [fst] in Hq. rewrite Hq, Z.div_0_l.
    + cbn [scaled]. split; [now left|]. nia.
    + apply Z.pow_nonzero; lia.
  - destruct (shr_fexp_bounds p2 e1 (k + 1) ltac:(lia) M2)
      as (Hm3 & He3 & He3' & Hfl3 & Hlow3 & _).
    specialize (Hlow3 Blo Hlo L2).
    destruct (shr_fexp prec emax (Zpos p2) e1 loc_Exact) as [rec3 e3].
    cbn [fst snd] in *.
    destruct (shr_m rec3) as [|m3|m3] eqn:E3; [| |lia].
    + cbn [scaled]. split; [now left|]. nia.
    + replace (e3 <=? emax - prec) with true
        by (symmetry; apply Z.leb_le; unfold emax, prec; lia).
      cbn [scaled]. split; [right; exists m3, e3; split; [reflexivity|lia]|]. lia.
Qed.

(** Rounding never yields NaN. *)
Lemma binary_round_aux_not_nan s mx ex :
  binary_round_aux prec emax s (Zpos mx) ex loc_Exact <> S754_nan.
Proof.
  unfold binary_round_aux.
  destruct (shr_fexp_exact (Zpos mx) ex ltac:(lia)) as (Hq & _ & _).
  destruct (shr_fexp prec emax (Zpos mx) ex loc_Exact) as [rec1 e1].
  cbn [fst] in Hq.
  pose proof (round_nearest_even_bounds (shr_m rec1) (loc_of_shr_record rec1)) as Hr.
  set (m2 := round_nearest_even (shr_m rec1) (loc_of_shr_record rec1)) in *.
  assert (H2 : 0 <= m2).
  { assert (0 <= shr_m rec1); [|lia]. rewrite Hq. apply Z.div_pos; [lia|].
    apply Z.pow_pos_nonneg; lia. }
  destruct (shr_fexp_exact m2 e1 H2) as (Hq2 & _ & _).
  destruct (shr_fexp prec emax m2 e1 loc_Exact) as [rec2 e2].
  cbn [fst] in Hq2.
  assert (H3 : 0 <= shr_m rec2).
  { rewrite Hq2. apply Z.div_pos; [lia|]. apply Z.pow_pos_nonneg; lia. }
  destruct (shr_m rec2); [discriminate| |lia].
  destruct (_ <=? _); discriminate.
Qed.

Lemma iter_xO m d : Zpos (Pos.iter xO m d) = Zpos m * 2 ^ Zpos d.
Proof.
  induction d as [|d IH] using Pos.peano_ind.
  - simpl. lia.
  - rewrite Pos.iter_succ, Pos2Z.inj_xO, IH, Pos2Z.inj_succ, Z.pow_succ_r by lia.
    lia.
Qed.

Lemma shl_align_spec m e e' :
  - scale <= e -> - scale <= e' ->
  snd (shl_align m e e') = Z.min e e'
  /\ Zpos (fst (shl_align m e e')) * 2 ^ (Z.min e e' + scale)
     = Zpos m * 2 ^ (e + scale).
Proof.
  intros He He'. unfold shl_align.
  destruct (e' - e) as [|d|d] eqn:E; cbn [fst snd].
  - replace (Z.min e e') with e by lia. auto.
  - replace (Z.min e e') with e by lia. auto.
  - replace (Z.min e e') with e' by lia. split; [reflexivity|].
    rewrite iter_xO, <- Z.mul_assoc, <- Z.pow_add_r by lia.
    do 2 f_equal. lia.
Qed.

Lemma binary_round_bounds mx ex k Blo Bhi :
  - scale <= ex <= 971 -> -1074 <= k <= 1000 ->
  Zpos mx * 2 ^ (ex + scale) < 2 ^ (k + scale) ->
  (2 ^ (fexp64 (k + 1) + scale) | Blo) ->
  (2 ^ (fexp64 (k + 1) + scale) | Bhi) ->
  Blo <= Zpos mx * 2 ^ (ex + scale) <= Bhi ->
  (binary_round prec emax false mx ex = S754_zero false
   \/ exists m e,
        binary_round prec emax false mx ex = S754_finite false m e
        /\ - scale <= e)
  /\ Blo <= scaled (binary_round prec emax false mx ex) <= Bhi.
Proof.
  intros He Hk HX Hlo Hhi HB. unfold binary_round.
  destruct (shl_align_spec mx ex (fexp prec emax (Zpos (digits2_pos mx) + ex)))
    as [Hs Hv]; [lia| |].
  { fold (fexp64 (Zpos (digits2_pos mx) + ex)). rewrite fexp64_eq.
    unfold scale. lia. }
  destruct (shl_align mx ex _) as [mz ez]. cbn [fst snd] in *. subst ez.
  rewrite <- Hv in HX, HB.
  apply (binary_round_aux_bounds mz _ k Blo Bhi); auto.
  fold (fexp64 (Zpos (digits2_pos mx) + ex)). rewrite fexp64_eq.
  unfold scale in *. lia.
Qed.

Lemma binary_round_not_nan s mx ex :
  binary_round prec emax s mx ex <> S754_nan.
Proof.
  unfold binary_round. destruct (shl_align _ _ _).
  apply binary_round_aux_not_nan.
Qed.

(** *** Order and value *)

(** A valid finite number has a mantissa of at most 53 bits, of exactly 53
    above the smallest exponent. *)
Lemma valid_finite s m e :
  valid_binary (S754_finite s m e) = true ->
  -1074 <= e <= 971
  /\ Zpos m < 2 ^ 53
  /\ (-1074 < e -> 2 ^ 52 <= Zpos m).
Proof.
  cbn [valid_binary]. unfold bounded, canonical_mantissa.
  fold (fexp64 (Zpos (digits2_pos m) + e)). rewrite fexp64_eq.
  intros H. apply andb_prop in H. destruct H as [C B].
  apply Z.eqb_eq in C. apply Z.leb_le in B. unfold emax, prec in B.
  destruct (digits2_pos_bounds m) as [L U].
  split; [lia|]. split.
  - assert (2 ^ Zpos (digits2_pos m) <= 2 ^ 53); [|lia].
    apply Z.pow_le_mono_r; lia.
  - intros G. replace (Zpos (digits2_pos m)) with 53 in L by lia. exact L.
Qed.

Lemma pow2_step a b : 0 <= a -> a < b -> 2 * 2 ^ a <= 2 ^ b.
Proof.
  intros Ha H. rewrite <- Z.pow_succ_r by lia. apply Z.pow_le_mono_r; lia.
Qed.

(** On valid non-negative numbers the order of binary64 is the order of the
    values. *)
Lemma SFltb_scaled x y :
  valid_binary x = true -> valid_binary y = true ->
  nonnegFinite x -> nonnegFinite y ->
  SFltb x y = true -> scaled x < scaled y.
Proof.
  intros Vx Vy Nx Ny. unfold SFltb.
  destruct x as [sx|sx| |sx mx ex], y as [sy|sy| |sy my ey];
    try destruct sx; try destruct sy; try contradiction; cbn [SFcompare scaled];
    try discriminate;
    try (destruct (valid_finite _ _ _ Vx) as (Ex & Ux & Lx);
         assert (Px : 0 < 2 ^ (ex + scale))
           by (apply Z.pow_pos_nonneg; unfold scale; lia));
    destruct (valid_finite _ _ _ Vy) as (Ey & Uy & Ly);
    assert (Py : 0 < 2 ^ (ey + scale))
      by (apply Z.pow_pos_nonneg; unfold scale; lia);
    try (intros _; nia).
  destruct (Z.compare_spec ex ey) as [->|L|G]; try discriminate.
  - change (Pos.compare_cont Eq mx my) with (Pos.compare mx my).
    destruct (Pos.compare_spec mx my); try discriminate. intros _. nia.
  - intros _. specialize (Ly ltac:(lia)).
    pose proof (pow2_step (ex + scale) (ey + scale)
                  ltac:(unfold scale; lia) ltac:(lia)).
    change (2 ^ 53) with (2 * 2 ^ 52) in Ux. nia.
Qed.

Lemma scaled_SFleb x y :
  valid_binary x = true -> valid_binary y = true ->
  nonnegFinite x -> nonnegFinite y ->
  scaled x <= scaled y -> SFleb x y = true.
Proof.
  intros Vx Vy Nx Ny H.
  destruct (SFleb x y) eqn:E; [reflexivity|exfalso].
  assert (L : SFltb y x = true).
  { revert E. unfold SFleb, SFltb.
    destruct x as [sx|sx| |sx mx ex], y as [sy|sy| |sy my ey];
      try destruct sx; try destruct sy; try contradiction; cbn [SFcompare];
      try discriminate; try reflexivity.
    rewrite (Z.compare_antisym ex ey).
    change (Pos.compare_cont Eq mx my) with (Pos.compare mx my).
    change (Pos.compare_cont Eq my mx) with (Pos.compare my mx).
    rewrite (Pos.compare_antisym mx my).
    destruct (ex ?= ey); cbn [CompOpp]; try discriminate; try reflexivity.
    destruct (mx ?= my)%positive; cbn [CompOpp]; try discriminate; reflexivity. }
  apply (SFltb_scaled y x Vy Vx Ny Nx) in L. lia.
Qed.

Lemma SFltb_SFleb a b : SFltb a b = true -> SFleb a b = true.
Proof.
  unfold SFltb, SFleb. destruct (SFcompare a b) as [[| |]|]; congruence.
Qed.

Lemma SF_lt_le_lt a b c :
  SFltb a b = true -> SFleb b c = true -> SFltb a c = true.
Proof.
  unfold SFltb, SFleb.
  destruct a as [sa|sa| |sa ma ea], b as [sb|sb| |sb mb eb],
    c as [sc|sc| |sc mc ec]; simpl;
    try destruct sa; try destruct sb; try destruct sc; simpl;
    try discriminate; try reflexivity;
    change (Pos.compare_cont Eq) with Pos.compare;
    destruct (Z.compare_spec ea eb), (Z.compare_spec eb ec),
      (Z.compare_spec ea ec); try lia; try discriminate; try reflexivity;
    destruct (Pos.compare_spec ma mb), (Pos.compare_spec mb mc),
      (Pos.compare_spec ma mc); simpl; try lia; try discriminate;
    try reflexivity.
Qed.

Lemma is_nan_Prim2SF x : is_nan x = false <-> Prim2SF x <> S754_nan.
Proof.
  unfold is_nan. rewrite negb_false_iff, eqb_spec. unfold SFeqb. split.
  - intros H E. rewrite E in H. discriminate.
  - intros H. destruct (Prim2SF x) as [s|s| |s m e]; try congruence; simpl.
    + reflexivity.
    + now destruct s.
    + rewrite Z.compare_refl.
      change (Pos.compare_cont Eq m m) with (Pos.compare m m).
      rewrite Pos.compare_refl. now destruct s.
Qed.

(** *** The constants and the operations of the timer *)

Lemma Prim2SF_0 : Prim2SF 0 = S754_zero false.
Proof. reflexivity. Qed.
Lemma Prim2SF_1 : Prim2SF 1 = S754_finite false 4503599627370496 (-52).
Proof. vm_compute. reflexivity. Qed.
Lemma Prim2SF_50 : Prim2SF 50 = S754_finite false 7036874417766400 (-47).
Proof. vm_compute. reflexivity. Qed.
Lemma Prim2SF_100 : Prim2SF 100 = S754_finite false 7036874417766400 (-46).
Proof. vm_compute. reflexivity. Qed.
Lemma Prim2SF_150 : Prim2SF 150 = S754_finite false 5277655813324800 (-45).
Proof. vm_compute. reflexivity. Qed.
Lemma Prim2SF_015 : Prim2SF 0.15 = S754_finite false 5404319552844595 (-55).
Proof. vm_compute. reflexivity. Qed.

Lemma scaled_1 : scaled (Prim2SF 1) = 2 ^ scale.
Proof. vm_compute. reflexivity. Qed.
Lemma scaled_50 : scaled (Prim2SF 50) = 50 * 2 ^ scale.
Proof. vm_compute. reflexivity. Qed.
Lemma scaled_150 : scaled (Prim2SF 150) = 150 * 2 ^ scale.
Proof. vm_compute. reflexivity. Qed.

Lemma pow2_scale k : 0 <= k -> 2 ^ (k + scale) = 2 ^ k * 2 ^ scale.
Proof. intros H. apply Z.pow_add_r; [exact H | discriminate]. Qed.

Lemma aligned_scale c k :
  0 <= k <= 1074 -> (2 ^ (- k + scale) | c * 2 ^ scale).
Proof.
  intros H. exists (c * 2 ^ k).
  replace scale with (k + (- k + scale)) at 1 by lia.
  rewrite Z.pow_add_r by (unfold scale; lia). lia.
Qed.

(** A draw of [Math.random()]: at least 0 and below 1. *)
Lemma draw_scaled r :
  (0 <=? r)%float = true -> (r <? 1)%float = true ->
  nonnegFinite (Prim2SF r) /\ scaled (Prim2SF r) < 2 ^ scale.
Proof.
  rewrite leb_spec, ltb_spec, Prim2SF_0. intros H0 H1.
  assert (N : nonnegFinite (Prim2SF r)).
  { revert H0 H1. rewrite Prim2SF_1. unfold SFleb, SFltb.
    destruct (Prim2SF r) as [s|[|]| |[|] m e]; cbn [SFcompare nonnegFinite];
      try discriminate; auto. }
  split; [exact N|]. rewrite <- scaled_1.
  apply SFltb_scaled; auto using Prim2SF_valid.
  now rewrite Prim2SF_1.
Qed.

(** [random * 100] is at most 100. *)
Lemma times100 r :
  nonnegFinite (Prim2SF r) -> scaled (Prim2SF r) < 2 ^ scale ->
  nonnegFinite (Prim2SF (r * 100)%float)
  /\ 0 <= scaled (Prim2SF (r * 100)%float) <= 100 * 2 ^ scale.
Proof.
  intros N H. pose proof (Prim2SF_valid r) as V.
  rewrite mul_spec, Prim2SF_100. unfold SF64mul.
  destruct (Prim2SF r) as [s|s| |[|] m e]; try contradiction; cbn [SFmul].
  - split; [exact I|]. cbn [scaled]. lia.
  - cbn [xorb].
    destruct (valid_finite _ _ _ V) as (E & _ & _).
    cbn [scaled] in H.
    assert (Q : 0 < 2 ^ (e + -46 + scale))
      by (apply Z.pow_pos_nonneg; unfold scale; lia).
    assert (X : Zpos (m * 7036874417766400) * 2 ^ (e + -46 + scale)
                = 100 * (Zpos m * 2 ^ (e + scale))).
    { replace (e + scale) with (46 + (e + -46 + scale)) by lia.
      rewrite (Z.pow_add_r 2 46 (e + -46 + scale)) by (unfold scale; lia).
      rewrite Pos2Z.inj_mul. change (2 ^ 46) with 70368744177664. lia. }
    destruct (binary_round_aux_bounds (m * 7036874417766400) (e + -46) 7
                0 (100 * 2 ^ scale)) as [F B].
    + unfold scale. lia.
    + lia.
    + rewrite X, (pow2_scale 7) by lia. change (2 ^ 7) with 128. lia.
    + apply Z.divide_0_r.
    + change (fexp64 (7 + 1)) with (- (45)). apply aligned_scale. lia.
    + rewrite X. nia.
    + split; [|exact B].
      destruct F as [->|(m' & e' & -> & _)]; exact I.
Qed.

(** [... + 50] lies between 50 and 150. *)
Lemma plus50 y :
  nonnegFinite (Prim2SF y) -> scaled (Prim2SF y) <= 100 * 2 ^ scale ->
  nonnegFinite (Prim2SF (y + 50)%float)
  /\ 50 * 2 ^ scale <= scaled (Prim2SF (y + 50)%float) <= 150 * 2 ^ scale.
Proof.
  intros N H. pose proof (Prim2SF_valid y) as V.
  rewrite add_spec, Prim2SF_50. unfold SF64add.
  destruct (Prim2SF y) as [s|s| |[|] m e]; try contradiction; cbn [SFadd].
  - split; [exact I|]. rewrite <- Prim2SF_50, scaled_50. lia.
  - destruct (valid_finite _ _ _ V) as (E & _ & _).
    cbn [scaled] in H. cbn [cond_Zopp].
    destruct (shl_align_spec m e (Z.min e (-47))) as [_ A1];
      [unfold scale; lia | unfold scale; lia |].
    destruct (shl_align_spec 7036874417766400 (-47) (Z.min e (-47))) as [_ A2];
      [unfold scale; lia | unfold scale; lia |].
    replace (Z.min e (Z.min e (-47))) with (Z.min e (-47)) in A1 by lia.
    replace (Z.min (-47) (Z.min e (-47))) with (Z.min e (-47)) in A2 by lia.
    set (a := fst (shl_align m e (Z.min e (-47)))) in *.
    set (b := fst (shl_align 7036874417766400 (-47) (Z.min e (-47)))) in *.
    change (Zpos a + Zpos b) with (Zpos (a + b)). cbn [binary_normalize].
    assert (X : Zpos (a + b) * 2 ^ (Z.min e (-47) + scale)
                = Zpos m * 2 ^ (e + scale) + 50 * 2 ^ scale).
    { rewrite Pos2Z.inj_add, Z.mul_add_distr_r, A1, A2. f_equal. }
    assert (0 < Zpos m * 2 ^ (e + scale)).
    { assert (0 < 2 ^ (e + scale)) by (apply Z.pow_pos_nonneg; unfold scale; lia).
      nia. }
    destruct (binary_round_bounds (a + b) (Z.min e (-47)) 8
                (50 * 2 ^ scale) (150 * 2 ^ scale)) as [F B].
    + unfold scale. lia.
    + lia.
    + rewrite X, (pow2_scale 8) by lia. change (2 ^ 8) with 256. lia.
    + change (fexp64 (8 + 1)) with (- (44)). apply aligned_scale. lia.
    + change (fexp64 (8 + 1)) with (- (44)). apply aligned_scale. lia.
    + rewrite X. lia.
    + split; [|exact B].
      destruct F as [->|(m' & e' & -> & _)]; exact I.
Qed.

(** [... * optimizationFactor 0], that is [... * 1], keeps these bounds. *)
Lemma times1 b :
  nonnegFinite (Prim2SF b) ->
  50 * 2 ^ scale <= scaled (Prim2SF b) <= 150 * 2 ^ scale ->
  nonnegFinite (Prim2SF (b * 1)%float)
  /\ 50 * 2 ^ scale <= scaled (Prim2SF (b * 1)%float) <= 150 * 2 ^ scale.
Proof.
  intros N H. pose proof (Prim2SF_valid b) as V.
  rewrite mul_spec, Prim2SF_1. unfold SF64mul.
  assert (T : 0 < 2 ^ scale) by (apply Z.pow_pos_nonneg; unfold scale; lia).
  destruct (Prim2SF b) as [s|s| |[|] m e]; try contradiction; cbn [SFmul].
  - exfalso. cbn [scaled] in H. lia.
  - cbn [xorb].
    destruct (valid_finite _ _ _ V) as (E & _ & _).
    cbn [scaled] in H.
    assert (X : Zpos (m * 4503599627370496) * 2 ^ (e + -52 + scale)
                = Zpos m * 2 ^ (e + scale)).
    { replace (e + scale) with (52 + (e + -52 + scale)) by lia.
      rewrite (Z.pow_add_r 2 52 (e + -52 + scale)) by (unfold scale; lia).
      rewrite Pos2Z.inj_mul. change (2 ^ 52) with 4503599627370496. lia. }
    destruct (binary_round_aux_bounds (m * 4503599627370496) (e + -52) 8
                (50 * 2 ^ scale) (150 * 2 ^ scale)) as [F B].
    + unfold scale. lia.
    + lia.
    + rewrite X, (pow2_scale 8) by lia. change (2 ^ 8) with 256.
      assert (0 < 2 ^ scale) by (apply Z.pow_pos_nonneg; unfold scale; lia). lia.
    + change (fexp64 (8 + 1)) with (- (44)). apply aligned_scale. lia.
    + change (fexp64 (8 + 1)) with (- (44)). apply aligned_scale. lia.
    + rewrite X. lia.
    + split; [|exact B].
      destruct F as [->|(m' & e' & -> & _)]; exact I.
Qed.

Lemma baseTime_scaled r :
  (0 <=? r)%float = true -> (r <? 1)%float = true ->
  nonnegFinite (Prim2SF (Simulated.baseTime r))
  /\ 50 * 2 ^ scale <= scaled (Prim2SF (Simulated.baseTime r)) <= 150 * 2 ^ scale.
Proof.
  intros H0 H1. destruct (draw_scaled r H0 H1) as [N S].
  destruct (times100 r N S) as [N' S'].
  apply plus50; [exact N'|lia].
Qed.

Lemma between_50_150 b :
  nonnegFinite (Prim2SF b) ->
  50 * 2 ^ scale <= scaled (Prim2SF b) <= 150 * 2 ^ scale ->
  (50 <=? b)%float = true /\ (b <=? 150)%float = true.
Proof.
  intros N [L U]. rewrite !leb_spec. split.
  - apply scaled_SFleb;
      [apply Prim2SF_valid | apply Prim2SF_valid | now rewrite Prim2SF_50
      | exact N | now rewrite scaled_50].
  - apply scaled_SFleb;
      [apply Prim2SF_valid | apply Prim2SF_valid | exact N
      | now rewrite Prim2SF_150 | now rewrite scaled_150].
Qed.

Lemma SFmul_finite_r_not_nan x s m e :
  x <> S754_nan -> SFmul prec emax x (S754_finite s m e) <> S754_nan.
Proof.
  destruct x as [sx|sx| |sx mx ex]; cbn [SFmul]; try congruence.
  intros _. apply binary_round_aux_not_nan.
Qed.

Lemma SFmul_finite_l_not_nan s m e y :
  y <> S754_nan -> SFmul prec emax (S754_finite s m e) y <> S754_nan.
Proof.
  destruct y as [sy|sy| |sy my ey]; cbn [SFmul]; try congruence.
  intros _. apply binary_round_aux_not_nan.
Qed.

Lemma binary_normalize_not_nan m e szero :
  binary_normalize prec emax m e szero <> S754_nan.
Proof.
  destruct m; cbn [binary_normalize];
    [discriminate | apply binary_round_not_nan | apply binary_round_not_nan].
Qed.

Lemma SFsub_finite_l_not_nan s m e y :
  y <> S754_nan -> SFsub prec emax (S754_finite s m e) y <> S754_nan.
Proof.
  destruct y as [sy|sy| |sy my ey]; cbn [SFsub]; try congruence.
  intros _. apply binary_normalize_not_nan.
Qed.

(** For a draw in [0, 1) and a level that is a number, the value before the
    floor is a number: the base time is finite and not zero, and neither the
    product with 0.15, the difference from 1 nor the final product of such
    operands is NaN. *)
Lemma preFloor_not_nan r level :
  (0 <=? r)%float = true -> (r <? 1)%float = true -> is_nan level = false ->
  is_nan (Simulated.preFloor r level) = false.
Proof.
  intros H0 H1 HL. apply is_nan_Prim2SF. apply is_nan_Prim2SF in HL.
  destruct (baseTime_scaled r H0 H1) as [N [L _]].
  unfold Simulated.preFloor, Simulated.optimizationFactor.
  rewrite mul_spec, sub_spec, mul_spec, Prim2SF_1, Prim2SF_015.
  assert (T : 0 < 2 ^ scale) by (apply Z.pow_pos_nonneg; unfold scale; lia).
  destruct (Prim2SF (Simulated.baseTime r)) as [s|s| |[|] m e];
    cbn [nonnegFinite scaled] in N, L; try (exfalso; exact N).
  - exfalso. lia.
  - apply SFmul_finite_l_not_nan, SFsub_finite_l_not_nan,
      SFmul_finite_r_not_nan, HL.
Qed.

Lemma ltb_leb x y : (x <? y)%float = true -> (x <=? y)%float = true.
Proof. rewrite ltb_spec, leb_spec. apply SFltb_SFleb. Qed.

Lemma ltb_leb_ltb x y z :
  (x <? y)%float = true -> (y <=? z)%float = true -> (x <? z)%float = true.
Proof. rewrite !ltb_spec, leb_spec. apply SF_lt_le_lt. Qed.

(** [Math.max(5, x)] is at least 5 for every number [x]. *)
Lemma Math_max_5 x :
  is_nan x = false -> (5 <=? JS.Math_max 5 x)%float = true.
Proof.
  intros H. unfold JS.Math_max. rewrite H.
  change (is_nan 5) with false. cbn [orb].
  destruct (5 <? x)%float eqn:E; [now apply ltb_leb|].
  destruct (x <? 5)%float; [reflexivity|].
  change (get_sign 5) with false. reflexivity.
Qed.

End Binary64.

(** C5, as the code has it.  The simulated duration is
    max(5, (random * 100 + 50) * (1 - level * 0.15)) in binary64 arithmetic.
    For every draw in [0, 1) and every level that is a number the duration
    is at least 5, hence neither zero nor negative; at level 0 the value
    before the floor lies in the closed interval [50, 150]. *)
Theorem simulated_timer_floor_and_range :
  (forall r level,
      Simulated.executionTime r level
      = JS.Math_max 5 ((r * 100 + 50) * (1 - level * 0.15))%float)
  /\ (forall r level,
      (0 <=? r)%float = true -> (r <? 1)%float = true -> is_nan level = false ->
      (5 <=? Simulated.executionTime r level)%float = true
      /\ (0 <? Simulated.executionTime r level)%float = true)
  /\ (forall r,
      (0 <=? r)%float = true -> (r <? 1)%float = true ->
      (50 <=? Simulated.preFloor r 0)%float = true
      /\ (Simulated.preFloor r 0 <=? 150)%float = true).
Proof.
  split; [reflexivity|]. split.
  - intros r level H0 H1 HL.
    assert (G : (5 <=? Simulated.executionTime r level)%float = true).
    { apply Binary64.Math_max_5. now apply Binary64.preFloor_not_nan. }
    split; [exact G|].
    apply (Binary64.ltb_leb_ltb 0 5); [reflexivity|exact G].
  - intros r H0 H1.
    destruct (Binary64.baseTime_scaled r H0 H1) as [N B].
    unfold Simulated.preFloor. change (Simulated.optimizationFactor 0) with 1%float.
    destruct (Binary64.times1 _ N B) as [N' B'].
    now apply Binary64.between_50_150.
Qed.

Lemma simulated_timer_floor_and_range_witness :
  ((5 <=? Simulated.executionTime 0.5 0)%float = true
   /\ (0 <? Simulated.executionTime 0.5 0)%float = true)
  /\ ((50 <=? Simulated.preFloor 0.5 0)%float = true
      /\ (Simulated.preFloor 0.5 0 <=? 150)%float = true).
Proof.
  split.
  - exact (proj1 (proj2 simulated_timer_floor_and_range) 0.5%float 0%float
             eq_refl eq_refl eq_refl).
  - exact (proj2 (proj2 simulated_timer_floor_and_range) 0.5%float
             eq_refl eq_refl).
Defined.

(** C5 as stated fails at the upper end: the draw 1 - 2^-53 is below 1, and
    at level 0 the value before the floor is 150, not below it (the sum
    99.99999999999999 + 50 rounds to the even neighbour 150). *)
Lemma simulated_timer_reaches_150 :
  (0 <=? 0x1.fffffffffffffp-1)%float = true
  /\ (0x1.fffffffffffffp-1 <? 1)%float = true
  /\ Simulated.preFloor 0x1.fffffffffffffp-1 0 = 150%float
  /\ (Simulated.preFloor 0x1.fffffffffffffp-1 0 <? 150)%float = false.
Proof. repeat split. Qed.

(** * Further properties of the code *)

(** ** Windows: a list that keeps its last entries *)

Section Windows.
Context {A : Type}.
Implicit Types (h xs ys : list A) (x : A) (n : nat).

Lemma slice_last_snoc n h x :
  JS.slice_last (S n) (h ++ [x]) = JS.slice_last n h ++ [x].
Proof.
  unfold JS.slice_last. rewrite length_app. cbn [List.length].
  replace (List.length h + 1 - S n) with (List.length h - n) by lia.
  rewrite skipn_app.
  replace (List.length h - n - List.length h) with 0 by lia. reflexivity.
Qed.

Lemma slice_last_tail n xs ys :
  n <= List.length ys -> JS.slice_last n (xs ++ ys) = JS.slice_last n ys.
Proof.
  intros H. unfold JS.slice_last. rewrite length_app, skipn_app.
  rewrite skipn_all2 by lia. cbn [app]. f_equal. lia.
Qed.

Lemma slice_last_absorb n xs ys :
  JS.slice_last n (JS.slice_last n xs ++ ys) = JS.slice_last n (xs ++ ys).
Proof.
  destruct (Nat.le_gt_cases (List.length xs) n) as [H|H].
  - now rewrite (slice_last_all n xs H).
  - rewrite (slice_last_suffix n xs) at 2. rewrite <- app_assoc.
    symmetry. apply slice_last_tail.
    rewrite length_app, slice_last_length. lia.
Qed.

(** Appending one entry at a time behind the last [n] kept ones leaves the
    last [n + 1] of everything appended. *)
Lemma window_fold n xs : forall h,
  List.length h <= S n ->
  fold_left (fun l x => JS.slice_last n l ++ [x]) xs h
  = JS.slice_last (S n) (h ++ xs).
Proof.
  induction xs as [|x xs IH]; intros h Hh; cbn [fold_left].
  - rewrite app_nil_r. symmetry. now apply slice_last_all.
  - rewrite IH.
    + rewrite <- slice_last_snoc, slice_last_absorb, <- app_assoc. reflexivity.
    + rewrite length_app, slice_last_length. cbn [List.length]. lia.
Qed.

Lemma assign_map_same {B : Type} (g : A -> B) i x y (l : list A) :
  nth_error l i = Some y -> g x = g y -> map g (JS.assign i x l) = map g l.
Proof.
  revert i; induction l as [|z l IH]; intros [|i]; cbn; intros E H;
    try discriminate.
  - injection E as ->. now rewrite H.
  - f_equal. now apply IH.
Qed.

Lemma assign_sum (g : A -> nat) i x y (l : list A) :
  nth_error l i = Some y -> g x = S (g y) ->
  list_sum (map g (JS.assign i x l)) = S (list_sum (map g l)).
Proof.
  unfold list_sum.
  revert i; induction l as [|z l IH]; intros [|i]; cbn; intros E H;
    try discriminate.
  - injection E as ->. lia.
  - rewrite (IH i E H). lia.
Qed.

End Windows.

(** X1.  The log is the last 51 of the lines appended to it, oldest first. *)
Theorem log_is_last_51_lines :
  forall (Line : Type) (prev lines : list Line),
    List.length prev <= 51 ->
    appendAll lines prev = JS.slice_last 51 (prev ++ lines).
Proof.
  intros Line prev lines H. unfold appendAll, addLog.
  now apply (window_fold 50).
Qed.

Lemma log_is_last_51_lines_witness :
  appendAll [4; 5] [1; 2; 3] = JS.slice_last 51 ([1; 2; 3] ++ [4; 5]).
Proof.
  apply (log_is_last_51_lines nat [1; 2; 3] [4; 5]). simpl. lia.
Defined.

(** ** Samples of one record in a row *)

Lemma Real_sampleAll_cons f t ts :
  Real_sampleAll f (t :: ts)
  = (fst (Real_sampleAll (fst (Real.applySample f t)) ts),
     snd (Real.applySample f t)
     ++ snd (Real_sampleAll (fst (Real.applySample f t)) ts)).
Proof.
  cbn [Real_sampleAll]. destruct (Real.applySample f t) as [f1 m1].
  cbn [fst snd]. now destruct (Real_sampleAll f1 ts).
Qed.

Lemma Simulated_sampleAll_cons f r rs :
  Simulated_sampleAll f (r :: rs)
  = (fst (Simulated_sampleAll (fst (Simulated.applySample f r)) rs),
     snd (Simulated.applySample f r)
     ++ snd (Simulated_sampleAll (fst (Simulated.applySample f r)) rs)).
Proof.
  cbn [Simulated_sampleAll]. destruct (Simulated.applySample f r) as [f1 m1].
  cbn [fst snd]. now destruct (Simulated_sampleAll f1 rs).
Qed.

Lemma Real_sampleAll_callCount ts : forall f,
  Real.callCount (Real.stats (fst (Real_sampleAll f ts)))
  = Real.callCount (Real.stats f) + List.length ts.
Proof.
  induction ts as [|t ts IH]; intros f.
  - cbn. lia.
  - rewrite Real_sampleAll_cons. cbn [fst List.length].
    rewrite IH, RealFacts.callCount_applySample. lia.
Qed.

Lemma Simulated_sampleAll_callCount rs : forall f,
  Simulated.callCount (Simulated.stats (fst (Simulated_sampleAll f rs)))
  = Simulated.callCount (Simulated.stats f) + List.length rs.
Proof.
  induction rs as [|r rs IH]; intros f.
  - cbn. lia.
  - rewrite Simulated_sampleAll_cons. cbn [fst List.length].
    rewrite IH, SimulatedFacts.sim_callCount_applySample. lia.
Qed.

Lemma list_sum_zero {A : Type} (g : A -> nat) (l : list A) :
  (forall x, g x = 0) -> list_sum (map g l) = 0.
Proof.
  intros H. unfold list_sum. induction l as [|x l IH]; cbn; [reflexivity|].
  now rewrite H, IH.
Qed.

Lemma Real_totalCalls_step ev st st' :
  RealRun.step ev st = Some st' ->
  Real_totalCalls st'
  = match ev with
    | RealRun.Sampled _ _ _ => S (Real_totalCalls st)
    | RealRun.ResetPressed _ => 0
    | RealRun.Logged _ _ => Real_totalCalls st
    end.
Proof.
  unfold Real_totalCalls. destruct ev as [clock i t|clock|clock m]; cbn.
  - destruct (nth_error (Real.functions st) i) as [f|] eqn:E.
    + rewrite (executeFunction_unfold _ _ _ _ _ E). intros [= <-]. cbn.
      apply (assign_sum _ _ _ f); [exact E|].
      rewrite RealFacts.callCount_applySample. lia.
    + unfold Real.executeFunction. rewrite E. discriminate.
  - intros [= <-]. cbn. rewrite map_map. now apply list_sum_zero.
  - now intros [= <-].
Qed.

Lemma Simulated_totalCalls_step ev st st' :
  SimulatedRun.step ev st = Some st' ->
  Simulated_totalCalls st'
  = match ev with
    | SimulatedRun.Sampled _ _ _ => S (Simulated_totalCalls st)
    | SimulatedRun.ResetPressed _ => 0
    | SimulatedRun.Logged _ _ => Simulated_totalCalls st
    end.
Proof.
  unfold Simulated_totalCalls. destruct ev as [clock i r|clock|clock m]; cbn.
  - destruct (nth_error (Simulated.functions st) i) as [f|] eqn:E.
    + rewrite (simulateExecution_unfold _ _ _ _ _ E). intros [= <-]. cbn.
      apply (assign_sum _ _ _ f); [exact E|].
      rewrite SimulatedFacts.sim_callCount_applySample. lia.
    + unfold Simulated.simulateExecution. rewrite E. discriminate.
  - intros [= <-]. cbn. rewrite map_map. now apply list_sum_zero.
  - now intros [= <-].
Qed.

Lemma Real_totalCalls_run evs : forall st st',
  RealRun.run evs st = Some st' ->
  Real_totalCalls st' = Real_samplesSinceReset evs (Real_totalCalls st).
Proof.
  induction evs as [|ev evs IH]; intros st st'; cbn [RealRun.run].
  - now intros [= <-].
  - destruct (RealRun.step ev st) as [st1|] eqn:E; [|discriminate].
    intros H. rewrite (IH _ _ H), (Real_totalCalls_step _ _ _ E).
    now destruct ev.
Qed.

Lemma Simulated_totalCalls_run evs : forall st st',
  SimulatedRun.run evs st = Some st' ->
  Simulated_totalCalls st'
  = Simulated_samplesSinceReset evs (Simulated_totalCalls st).
Proof.
  induction evs as [|ev evs IH]; intros st st'; cbn [SimulatedRun.run].
  - now intros [= <-].
  - destruct (SimulatedRun.step ev st) as [st1|] eqn:E; [|discriminate].
    intros H. rewrite (IH _ _ H), (Simulated_totalCalls_step _ _ _ E).
    now destruct ev.
Qed.

(** X2.  The call counts count the samples: a record's count grows by the number
    of its samples, and over any trace the counts of all records add up to the
    number of samples since the last reset. *)
Theorem callCount_counts_samples :
  (forall f ts,
      Real.callCount (Real.stats (fst (Real_sampleAll f ts)))
      = Real.callCount (Real.stats f) + List.length ts)
  /\ (forall f rs,
      Simulated.callCount (Simulated.stats (fst (Simulated_sampleAll f rs)))
      = Simulated.callCount (Simulated.stats f) + List.length rs)
  /\ (forall evs st st',
      RealRun.run evs st = Some st' ->
      Real_totalCalls st' = Real_samplesSinceReset evs (Real_totalCalls st))
  /\ (forall evs st st',
      SimulatedRun.run evs st = Some st' ->
      Simulated_totalCalls st'
      = Simulated_samplesSinceReset evs (Simulated_totalCalls st)).
Proof.
  split; [|split; [|split]].
  - intros f ts. apply Real_sampleAll_callCount.
  - intros f rs. apply Simulated_sampleAll_callCount.
  - apply Real_totalCalls_run.
  - apply Simulated_totalCalls_run.
Qed.

Lemma callCount_counts_samples_witness :
  (exists st',
      RealRun.run
        [RealRun.Sampled "12:00:00"%string 0 3%float;
         RealRun.ResetPressed "12:00:01"%string;
         RealRun.Sampled "12:00:02"%string 1 4%float;
         RealRun.Sampled "12:00:03"%string 2 5%float]
        Real.initialState = Some st'
      /\ Real_totalCalls st' = 2)
  /\ (exists st',
      SimulatedRun.run
        [SimulatedRun.Sampled "12:00:00"%string 0 0.5%float;
         SimulatedRun.Sampled "12:00:01"%string 0 0.25%float]
        Simulated.initialState = Some st'
      /\ Simulated_totalCalls st' = 2).
Proof.
  split.
  - eexists. split; [vm_compute; reflexivity|].
    exact (proj1 (proj2 (proj2 callCount_counts_samples))
             [RealRun.Sampled "12:00:00"%string 0 3%float;
              RealRun.ResetPressed "12:00:01"%string;
              RealRun.Sampled "12:00:02"%string 1 4%float;
              RealRun.Sampled "12:00:03"%string 2 5%float]
             Real.initialState _ eq_refl).
  - eexists. split; [vm_compute; reflexivity|].
    exact (proj2 (proj2 (proj2 callCount_counts_samples))
             [SimulatedRun.Sampled "12:00:00"%string 0 0.5%float;
              SimulatedRun.Sampled "12:00:01"%string 0 0.25%float]
             Simulated.initialState _ eq_refl).
Defined.

(** ** The history is the window of the latest durations *)

Lemma Real_sampleAll_history ts : forall f,
  Real.history (fst (Real_sampleAll f ts))
  = fold_left (fun l x => JS.slice_last 30 l ++ [x]) ts (Real.history f).
Proof.
  induction ts as [|t ts IH]; intros f; [reflexivity|].
  rewrite Real_sampleAll_cons. cbn [fst fold_left].
  now rewrite IH, RealFacts.applySample_history.
Qed.

(** A simulated record at call count [c] since its reset. *)
Lemma sim_step_from_count f r c :
  Simulated.callCount (Simulated.stats f) = c ->
  Simulated.status (Simulated.stats f) = thresholdStatus c ->
  Simulated.optimizationLevel (Simulated.stats f) = levelAfter c ->
  Simulated.callCount (Simulated.stats (fst (Simulated.applySample f r))) = S c
  /\ Simulated.status (Simulated.stats (fst (Simulated.applySample f r)))
     = thresholdStatus (S c)
  /\ Simulated.optimizationLevel (Simulated.stats (fst (Simulated.applySample f r)))
     = levelAfter (S c).
Proof.
  intros Hc Hs Hl. subst c.
  rewrite SimulatedFacts.sim_callCount_applySample,
    SimulatedFacts.sim_status_applySample, sim_level_applySample.
  rewrite (thresholdStatus_next _ _ Hs), Hl, Nat.add_1_r.
  repeat split. cbn [levelAfter].
  destruct (OPTIMIZATION_THRESHOLD <=? _) eqn:E; [reflexivity|].
  now rewrite tierLevel_below.
Qed.

Lemma Simulated_sampleAll_history rs : forall f c,
  Simulated.callCount (Simulated.stats f) = c ->
  Simulated.status (Simulated.stats f) = thresholdStatus c ->
  Simulated.optimizationLevel (Simulated.stats f) = levelAfter c ->
  Simulated.history (fst (Simulated_sampleAll f rs))
  = fold_left (fun l x => JS.slice_last 20 l ++ [x]) (Simulated_durations c rs)
      (Simulated.history f).
Proof.
  induction rs as [|r rs IH]; intros f c Hc Hs Hl; [reflexivity|].
  rewrite Simulated_sampleAll_cons. cbn [fst fold_left Simulated_durations].
  destruct (sim_step_from_count f r c Hc Hs Hl) as (Hc' & Hs' & Hl').
  rewrite (IH _ (S c) Hc' Hs' Hl'), SimulatedFacts.sim_applySample_history.
  now rewrite Hl.
Qed.

(** X3.  After any number of samples of a record, its history holds the latest
    31 (simulated: 21) durations of what it held and what was sampled, in the
    order they were sampled; from a reset, the simulated durations are those of
    the timer at the levels [levelAfter 0], [levelAfter 1], ... *)
Theorem history_is_latest_durations :
  (forall f ts,
      List.length (Real.history f) <= 31 ->
      Real.history (fst (Real_sampleAll f ts))
      = JS.slice_last 31 (Real.history f ++ ts))
  /\ (forall f rs,
      Simulated.history (fst (Simulated_sampleAll (Simulated.resetRecord f) rs))
      = JS.slice_last 21 (Simulated_durations 0 rs)).
Proof.
  split.
  - intros f ts H. rewrite Real_sampleAll_history. now apply (window_fold 30).
  - intros f rs.
    rewrite (Simulated_sampleAll_history rs _ 0) by reflexivity.
    cbn [Simulated.resetRecord Simulated.history].
    apply (window_fold 20 (Simulated_durations 0 rs) []). cbn. lia.
Qed.

Lemma history_is_latest_durations_witness :
  Real.history
    (fst (Real_sampleAll
            (Real.mkFunction "f"%string ""%string Real.zeroStats [7%float]
               Real.run_fibonacci 1) [3%float; 4%float]))
  = JS.slice_last 31 ([7%float] ++ [3%float; 4%float]).
Proof.
  apply (proj1 history_is_latest_durations). simpl. lia.
Defined.

(** ** Total and average time *)

Lemma Real_times_applySample f t :
  Real.totalTime (Real.stats (fst (Real.applySample f t)))
  = (Real.totalTime (Real.stats f) + t)%float
  /\ Real.avgTime (Real.stats (fst (Real.applySample f t)))
     = (Real.totalTime (Real.stats (fst (Real.applySample f t)))
        / JS.number_of_nat (Real.callCount (Real.stats (fst (Real.applySample f t)))))%float.
Proof.
  rewrite RealFacts.applySample_stats.
  set (s0 := fst (Real.trackTimes (Real.name f) t (Real.stats f))).
  assert (H0 : Real.totalTime s0 = Real.totalTime (Real.stats f)
               /\ Real.callCount s0 = Real.callCount (Real.stats f)).
  { subst s0. unfold Real.trackTimes.
    destruct (Real.firstTime _), (Real.bestTime _) as [b|];
      try destruct (t <? b)%float; auto. }
  destruct H0 as [Ht Hc].
  assert (H1 : forall s, Real.totalTime (Real.relevel s) = Real.totalTime s
                         /\ Real.avgTime (Real.relevel s) = Real.avgTime s
                         /\ Real.callCount (Real.relevel s) = Real.callCount s).
  { intros s. unfold Real.relevel. destruct (Real.firstTime s) as [x|]; auto.
    destruct (0 <? x)%float; auto. }
  assert (H2 : forall n s,
             Real.totalTime (fst (Real.classify n s)) = Real.totalTime s
             /\ Real.avgTime (fst (Real.classify n s)) = Real.avgTime s
             /\ Real.callCount (fst (Real.classify n s)) = Real.callCount s).
  { intros n s. unfold Real.classify.
    destruct (_ <=? _); [|destruct (_ <=? _); [|destruct (_ <=? _)]]; auto. }
  destruct (H2 (Real.name f) (Real.relevel (Real.accumulate t s0)))
    as (-> & -> & ->).
  destruct (H1 (Real.accumulate t s0)) as (-> & -> & ->).
  cbn [Real.accumulate Real.totalTime Real.avgTime Real.callCount].
  now rewrite Ht.
Qed.

Lemma Simulated_times_applySample f r :
  Simulated.totalTime (Simulated.stats (fst (Simulated.applySample f r)))
  = (Simulated.totalTime (Simulated.stats f)
     + Simulated.executionTime r (Simulated.optimizationLevel (Simulated.stats f)))%float
  /\ Simulated.avgTime (Simulated.stats (fst (Simulated.applySample f r)))
     = (Simulated.totalTime (Simulated.stats (fst (Simulated.applySample f r)))
        / JS.number_of_nat
            (Simulated.callCount (Simulated.stats (fst (Simulated.applySample f r)))))%float.
Proof.
  rewrite SimulatedFacts.sim_applySample_stats. unfold Simulated.classify.
  destruct (_ <=? _); [|destruct (_ <=? _); [|destruct (_ <=? _)]]; auto.
Qed.

Lemma Real_sampleAll_totalTime ts : forall f,
  Real.totalTime (Real.stats (fst (Real_sampleAll f ts)))
  = fold_left PrimFloat.add ts (Real.totalTime (Real.stats f)).
Proof.
  induction ts as [|t ts IH]; intros f; [reflexivity|].
  rewrite Real_sampleAll_cons. cbn [fst fold_left].
  now rewrite IH, (proj1 (Real_times_applySample f t)).
Qed.

(** X4.  The total is the sum of the durations sampled, added in the order they
    arrived, and from a reset on every record that was called holds as its
    average the total divided by its call count; a record not called since holds
    zero for both. *)
Theorem totalTime_sums_and_avgTime_divides :
  (forall f ts,
      Real.totalTime (Real.stats (fst (Real_sampleAll f ts)))
      = fold_left PrimFloat.add ts (Real.totalTime (Real.stats f)))
  /\ (forall clock st0 evs st,
      RealRun.run evs (Real.resetAll clock st0) = Some st ->
      Forall (fun f =>
                (Real.callCount (Real.stats f) = 0
                 /\ Real.totalTime (Real.stats f) = 0%float
                 /\ Real.avgTime (Real.stats f) = 0%float)
                \/ (0 < Real.callCount (Real.stats f)
                    /\ Real.avgTime (Real.stats f)
                       = (Real.totalTime (Real.stats f)
                          / JS.number_of_nat (Real.callCount (Real.stats f)))%float))
        (Real.functions st))
  /\ (forall clock st0 evs st,
      SimulatedRun.run evs (Simulated.resetAll clock st0) = Some st ->
      Forall (fun f =>
                (Simulated.callCount (Simulated.stats f) = 0
                 /\ Simulated.totalTime (Simulated.stats f) = 0%float
                 /\ Simulated.avgTime (Simulated.stats f) = 0%float)
                \/ (0 < Simulated.callCount (Simulated.stats f)
                    /\ Simulated.avgTime (Simulated.stats f)
                       = (Simulated.totalTime (Simulated.stats f)
                          / JS.number_of_nat
                              (Simulated.callCount (Simulated.stats f)))%float))
        (Simulated.functions st)).
Proof.
  split; [intros f ts; apply Real_sampleAll_totalTime|]. split.
  - intros clock st0 evs st E.
    eapply RealFacts.run_records; [ | | | exact E].
    + intros f t _. right. split.
      * rewrite RealFacts.callCount_applySample. lia.
      * apply Real_times_applySample.
    + intros f. left. repeat split.
    + cbn. apply Forall_forall. intros f Hin.
      apply in_map_iff in Hin. destruct Hin as [g [<- _]]. left. repeat split.
  - intros clock st0 evs st E.
    eapply SimulatedFacts.sim_run_records; [ | | | exact E].
    + intros f r _. right. split.
      * rewrite SimulatedFacts.sim_callCount_applySample. lia.
      * apply Simulated_times_applySample.
    + intros f. left. repeat split.
    + cbn. apply Forall_forall. intros f Hin.
      apply in_map_iff in Hin. destruct Hin as [g [<- _]]. left. repeat split.
Qed.

Lemma totalTime_sums_and_avgTime_divides_witness :
  exists st,
    RealRun.run
      [RealRun.Sampled "12:00:00"%string 0 3%float;
       RealRun.Sampled "12:00:01"%string 0 6%float]
      (Real.resetAll "11:59:59"%string Real.initialState) = Some st
    /\ Forall (fun f =>
                 (Real.callCount (Real.stats f) = 0
                  /\ Real.totalTime (Real.stats f) = 0%float
                  /\ Real.avgTime (Real.stats f) = 0%float)
                 \/ (0 < Real.callCount (Real.stats f)
                     /\ Real.avgTime (Real.stats f)
                        = (Real.totalTime (Real.stats f)
                           / JS.number_of_nat (Real.callCount (Real.stats f)))%float))
         (Real.functions st).
Proof.
  eexists. split; [vm_compute; reflexivity|].
  exact (proj1 (proj2 totalTime_sums_and_avgTime_divides)
           "11:59:59"%string Real.initialState
           [RealRun.Sampled "12:00:00"%string 0 3%float;
            RealRun.Sampled "12:00:01"%string 0 6%float] _ eq_refl).
Defined.

(** ** Reset *)

Lemma Real_reset_after_step ev st st' :
  RealRun.step ev st = Some st' ->
  map Real.resetRecord (Real.functions st')
  = map Real.resetRecord (Real.functions st).
Proof.
  destruct ev as [clock i t|clock|clock m]; cbn.
  - destruct (nth_error (Real.functions st) i) as [f|] eqn:E.
    + rewrite (executeFunction_unfold _ _ _ _ _ E). intros [= <-]. cbn.
      apply (assign_map_same _ _ _ f); [exact E|].
      destruct (RealFacts.applySample_frame f t) as (Hn & Hc & He & Hi).
      unfold Real.resetRecord. now rewrite Hn, Hc, He, Hi.
    + unfold Real.executeFunction. rewrite E. discriminate.
  - intros [= <-]. cbn. rewrite map_map. now apply map_ext.
  - now intros [= <-].
Qed.

Lemma Simulated_reset_after_step ev st st' :
  SimulatedRun.step ev st = Some st' ->
  map Simulated.resetRecord (Simulated.functions st')
  = map Simulated.resetRecord (Simulated.functions st).
Proof.
  destruct ev as [clock i r|clock|clock m]; cbn.
  - destruct (nth_error (Simulated.functions st) i) as [f|] eqn:E.
    + rewrite (simulateExecution_unfold _ _ _ _ _ E). intros [= <-]. cbn.
      apply (assign_map_same _ _ _ f); [exact E|].
      destruct (SimulatedFacts.sim_applySample_frame f r) as (Hn & Hc).
      unfold Simulated.resetRecord. now rewrite Hn, Hc.
    + unfold Simulated.simulateExecution. rewrite E. discriminate.
  - intros [= <-]. cbn. rewrite map_map. now apply map_ext.
  - now intros [= <-].
Qed.

(** X5.  Whatever happened before, the reset button leaves the same state: the
    one it leaves when pressed at once, with the records of the page reset and a
    log of one line. Samples, earlier resets and log lines leave no trace behind
    a reset. *)
Theorem reset_forgets_the_past :
  (forall evs st st' clock,
      RealRun.run evs st = Some st' ->
      Real.resetAll clock st' = Real.resetAll clock st)
  /\ (forall evs st st' clock,
      SimulatedRun.run evs st = Some st' ->
      Simulated.resetAll clock st' = Simulated.resetAll clock st)
  /\ (forall clock st,
      Real.logs (Real.resetAll clock st) = [Real.mkLine clock Real.StateReset])
  /\ (forall clock st,
      Simulated.logs (Simulated.resetAll clock st)
      = [Simulated.mkLine clock Simulated.StateReset]).
Proof.
  split; [|split; [|split]]; try reflexivity.
  - induction evs as [|ev evs IH]; intros st st' clock; cbn [RealRun.run].
    + now intros [= <-].
    + destruct (RealRun.step ev st) as [st1|] eqn:E; [|discriminate].
      intros H. rewrite (IH _ _ clock H). unfold Real.resetAll.
      now rewrite (Real_reset_after_step _ _ _ E).
  - induction evs as [|ev evs IH]; intros st st' clock; cbn [SimulatedRun.run].
    + now intros [= <-].
    + destruct (SimulatedRun.step ev st) as [st1|] eqn:E; [|discriminate].
      intros H. rewrite (IH _ _ clock H). unfold Simulated.resetAll.
      now rewrite (Simulated_reset_after_step _ _ _ E).
Qed.

Lemma reset_forgets_the_past_witness :
  (exists st',
      RealRun.run
        [RealRun.Sampled "12:00:00"%string 0 3%float;
         RealRun.Sampled "12:00:01"%string 2 6%float]
        Real.initialState = Some st'
      /\ Real.resetAll "12:00:02"%string st'
         = Real.resetAll "12:00:02"%string Real.initialState)
  /\ (exists st',
      SimulatedRun.run
        [SimulatedRun.Sampled "12:00:00"%string 1 0.5%float]
        Simulated.initialState = Some st'
      /\ Simulated.resetAll "12:00:02"%string st'
         = Simulated.resetAll "12:00:02"%string Simulated.initialState).
Proof.
  split.
  - eexists. split; [vm_compute; reflexivity|].
    exact (proj1 reset_forgets_the_past
             [RealRun.Sampled "12:00:00"%string 0 3%float;
              RealRun.Sampled "12:00:01"%string 2 6%float]
             Real.initialState _ "12:00:02"%string eq_refl).
  - eexists. split; [vm_compute; reflexivity|].
    exact (proj1 (proj2 reset_forgets_the_past)
             [SimulatedRun.Sampled "12:00:00"%string 1 0.5%float]
             Simulated.initialState _ "12:00:02"%string eq_refl).
Defined.

(** ** The first execution line *)

Lemma classify_no_first n s :
  filter Real_isFirstExecution (snd (Real.classify n s)) = [].
Proof.
  unfold Real.classify.
  destruct (_ <=? _); [|destruct (_ <=? _); [|destruct (_ <=? _)]]; cbn;
    try destruct (Status_eqb _ _); reflexivity.
Qed.

Lemma first_line_applySample f t :
  filter Real_isFirstExecution (snd (Real.applySample f t))
  = match Real.firstTime (Real.stats f) with
    | None => [Real.FirstExecution (Real.name f) t]
    | Some _ => []
    end.
Proof.
  rewrite RealFacts.applySample_messages, filter_app, classify_no_first,
    app_nil_r.
  unfold Real.trackTimes.
  destruct (Real.firstTime _), (Real.bestTime _) as [b|];
    try destruct (t <? b)%float; try destruct (Real.improvement_above_5 _);
    reflexivity.
Qed.

Lemma Real_replayAll_cons f t more rest :
  Real_replayAll f ((t, more) :: rest)
  = (fst (Real_replayAll (fst (Real_replayedSample f t more)) rest),
     snd (Real_replayedSample f t more)
     ++ snd (Real_replayAll (fst (Real_replayedSample f t more)) rest)).
Proof.
  cbn [Real_replayAll]. unfold Real_replayedSample.
  now destruct (Real_replayAll _ rest).
Qed.

Lemma first_line_runs f runs :
  filter Real_isFirstExecution
    (flat_map (fun t => snd (Real.applySample f t)) runs)
  = match Real.firstTime (Real.stats f) with
    | None => map (Real.FirstExecution (Real.name f)) runs
    | Some _ => []
    end.
Proof.
  induction runs as [|t runs IH]; cbn [flat_map map].
  - now destruct (Real.firstTime _).
  - rewrite filter_app, IH, first_line_applySample.
    now destruct (Real.firstTime _).
Qed.

Lemma first_line_replayed_later samples : forall f,
  Real.firstTime (Real.stats f) <> None ->
  filter Real_isFirstExecution (snd (Real_replayAll f samples)) = [].
Proof.
  induction samples as [|[t more] samples IH]; intros f Hf; [reflexivity|].
  rewrite Real_replayAll_cons. cbn [snd].
  rewrite filter_app, IH.
  - unfold Real_replayedSample. cbn [snd]. rewrite first_line_runs.
    now destruct (Real.firstTime (Real.stats f)).
  - unfold Real_replayedSample. cbn [fst].
    rewrite RealTimes.firstTime_applySample. discriminate.
Qed.

(** X6.  A "first execution" line comes from the first sample of a record
    since its reset and from no later one.  However often React runs the
    updater of a sample, the first sample logs that line once for each run,
    with the duration that run measured, so exactly once when the updater
    runs once; a record that has a first time logs none, whatever is
    sampled. *)
Theorem first_execution_logged_by_first_sample :
  (forall f t more rest,
      filter Real_isFirstExecution
        (snd (Real_replayAll (Real.resetRecord f) ((t, more) :: rest)))
      = map (Real.FirstExecution (Real.name f)) (t :: more))
  /\ (forall f samples,
      Real.firstTime (Real.stats f) <> None ->
      filter Real_isFirstExecution (snd (Real_replayAll f samples)) = []).
Proof.
  split.
  - intros f t more rest. rewrite Real_replayAll_cons. cbn [snd].
    rewrite filter_app, first_line_replayed_later.
    + unfold Real_replayedSample. cbn [snd].
      rewrite first_line_runs, app_nil_r. reflexivity.
    + unfold Real_replayedSample. cbn [fst].
      rewrite RealTimes.firstTime_applySample. discriminate.
  - intros f samples. apply first_line_replayed_later.
Qed.

Lemma first_execution_logged_by_first_sample_witness :
  filter Real_isFirstExecution
    (snd (Real_replayAll
            (Real.mkFunction "f"%string ""%string
               (Real.mkStats 1 8 8 cold 0 (Some 8%float) (Some 8%float))
               [8%float] Real.run_fibonacci 1)
            [(6%float, [6.5%float]); (7%float, [])]))
  = [].
Proof.
  apply (proj2 first_execution_logged_by_first_sample). discriminate.
Defined.

(** ** Colours *)

(** X7.  Each status has a colour of its own, and only cold code has no glow. *)
Theorem status_colours_distinct :
  (forall s s', getStatusColor s = getStatusColor s' -> s = s')
  /\ (forall s, getStatusGlow s = ""%string <-> s = cold).
Proof.
  split.
  - intros [] []; cbn; intros H; try reflexivity; discriminate.
  - intros []; cbn; split; intros H; try reflexivity; discriminate.
Qed.

Lemma status_colours_distinct_witness :
  warming = warming.
Proof.
  exact (proj1 status_colours_distinct warming warming eq_refl).
Defined.

(** ** The timed run *)

Lemma Real_run_app evs1 : forall evs2 st,
  RealRun.run (evs1 ++ evs2) st
  = match RealRun.run evs1 st with
    | Some st1 => RealRun.run evs2 st1
    | None => None
    end.
Proof.
  induction evs1 as [|ev evs1 IH]; intros evs2 st; cbn; [reflexivity|].
  destruct (RealRun.step ev st); [apply IH | reflexivity].
Qed.

Lemma Simulated_run_app evs1 : forall evs2 st,
  SimulatedRun.run (evs1 ++ evs2) st
  = match SimulatedRun.run evs1 st with
    | Some st1 => SimulatedRun.run evs2 st1
    | None => None
    end.
Proof.
  induction evs1 as [|ev evs1 IH]; intros evs2 st; cbn; [reflexivity|].
  destruct (SimulatedRun.step ev st); [apply IH | reflexivity].
Qed.

Lemma Real_names_run evs : forall st st',
  RealRun.run evs st = Some st' ->
  map Real.name (Real.functions st') = map Real.name (Real.functions st).
Proof.
  induction evs as [|ev evs IH]; intros st st'; cbn [RealRun.run].
  - now intros [= <-].
  - destruct (RealRun.step ev st) as [st1|] eqn:E; [|discriminate].
    intros H. rewrite (IH _ _ H). clear IH H.
    destruct ev as [clock i t|clock|clock m]; cbn in E.
    + destruct (nth_error (Real.functions st) i) as [f|] eqn:En.
      * rewrite (executeFunction_unfold _ _ _ _ _ En) in E.
        injection E as <-. cbn.
        apply (assign_map_same _ _ _ f); [exact En|].
        apply RealFacts.applySample_frame.
      * unfold Real.executeFunction in E. rewrite En in E. discriminate.
    + injection E as <-. cbn. rewrite map_map. now apply map_ext.
    + now injection E as <-.
Qed.

Lemma Simulated_names_run evs : forall st st',
  SimulatedRun.run evs st = Some st' ->
  map Simulated.name (Simulated.functions st')
  = map Simulated.name (Simulated.functions st).
Proof.
  induction evs as [|ev evs IH]; intros st st'; cbn [SimulatedRun.run].
  - now intros [= <-].
  - destruct (SimulatedRun.step ev st) as [st1|] eqn:E; [|discriminate].
    intros H. rewrite (IH _ _ H). clear IH H.
    destruct ev as [clock i r|clock|clock m]; cbn in E.
    + destruct (nth_error (Simulated.functions st) i) as [f|] eqn:En.
      * rewrite (simulateExecution_unfold _ _ _ _ _ En) in E.
        injection E as <-. cbn.
        apply (assign_map_same _ _ _ f); [exact En|].
        apply SimulatedFacts.sim_applySample_frame.
      * unfold Simulated.simulateExecution in E. rewrite En in E. discriminate.
    + injection E as <-. cbn. rewrite map_map. now apply map_ext.
    + now injection E as <-.
Qed.

Lemma Real_rounds_counted (round : nat -> string * nat * float) l :
  forall before,
  Real_samplesSinceReset
    (map (fun i => let '(clock, funcIndex, t) := round i in
                   RealRun.Sampled clock funcIndex t) l) before
  = before + List.length l.
Proof.
  induction l as [|i l IH]; intros before; cbn [map List.length].
  - cbn. lia.
  - destruct (round i) as [[clock k] t]. cbn [Real_samplesSinceReset].
    rewrite IH. lia.
Qed.

Lemma Simulated_rounds_counted (round : nat -> string * nat * float) l :
  forall before,
  Simulated_samplesSinceReset
    (map (fun i => let '(clock, funcIndex, r) := round i in
                   SimulatedRun.Sampled clock funcIndex r) l) before
  = before + List.length l.
Proof.
  induction l as [|i l IH]; intros before; cbn [map List.length].
  - cbn. lia.
  - destruct (round i) as [[clock k] r]. cbn [Simulated_samplesSinceReset].
    rewrite IH. lia.
Qed.

Lemma Real_samples_after_line clock m rest before :
  Real_samplesSinceReset (RealRun.Logged clock m :: rest) before
  = Real_samplesSinceReset rest before.
Proof. reflexivity. Qed.

Lemma Simulated_samples_after_line clock m rest before :
  Simulated_samplesSinceReset (SimulatedRun.Logged clock m :: rest) before
  = Simulated_samplesSinceReset rest before.
Proof. reflexivity. Qed.

(** X8.  A timed run whose rounds pick records of the page runs to its end: it
    adds 30 to the calls counted by the records, keeps the records and their
    names in place, and leaves "complete" as the last line of a log of at most
    51 lines. *)
Theorem runSimulation_thirty_samples :
  (forall startClock endClock round st,
      List.length (Real.logs st) <= 51 ->
      (forall i, i < 30 -> snd (fst (round i)) < List.length (Real.functions st)) ->
      exists st' older,
        Real_runSimulation startClock endClock round st = Some st'
        /\ Real_totalCalls st' = Real_totalCalls st + 30
        /\ map Real.name (Real.functions st') = map Real.name (Real.functions st)
        /\ Real.logs st' = older ++ [Real.mkLine endClock Real.Complete]
        /\ List.length (Real.logs st') <= 51)
  /\ (forall startClock endClock round st,
      List.length (Simulated.logs st) <= 51 ->
      (forall i, i < 30 ->
         snd (fst (round i)) < List.length (Simulated.functions st)) ->
      exists st' older,
        Simulated_runSimulation startClock endClock round st = Some st'
        /\ Simulated_totalCalls st' = Simulated_totalCalls st + 30
        /\ map Simulated.name (Simulated.functions st')
           = map Simulated.name (Simulated.functions st)
        /\ Simulated.logs st' = older ++ [Simulated.mkLine endClock Simulated.Complete]
        /\ List.length (Simulated.logs st') <= 51).
Proof.
  split.
  - intros startClock endClock round st HL Hr. unfold Real_runSimulation.
    set (rounds := map (fun i => let '(clock, funcIndex, t) := round i in
                                 RealRun.Sampled clock funcIndex t) (seq 0 30)).
    set (evs := RealRun.Logged startClock Real.Starting :: rounds).
    destruct (RealFacts.run_total evs st) as [st1 E1].
    { constructor; [exact I|]. subst rounds. apply Forall_forall.
      intros ev Hin. apply in_map_iff in Hin. destruct Hin as (i & <- & Hi).
      apply in_seq in Hi. specialize (Hr i ltac:(lia)).
      destruct (round i) as [[clock k] t]. exact Hr. }
    change (RealRun.Logged startClock Real.Starting
            :: rounds ++ [RealRun.Logged endClock Real.Complete])
      with (evs ++ [RealRun.Logged endClock Real.Complete]).
    rewrite Real_run_app, E1. cbn [RealRun.run RealRun.step].
    eexists _, (JS.slice_last 50 (Real.logs st1)).
    split; [reflexivity|]. cbn [Real.functions Real.logs].
    split; [|split; [|split]].
    + unfold Real_totalCalls at 1. cbn [Real.functions].
      fold (Real_totalCalls st1). rewrite (Real_totalCalls_run _ _ _ E1).
      subst evs. rewrite Real_samples_after_line.
      subst rounds. now rewrite Real_rounds_counted, length_seq.
    + apply (Real_names_run _ _ _ E1).
    + reflexivity.
    + rewrite addLog_length. lia.
  - intros startClock endClock round st HL Hr. unfold Simulated_runSimulation.
    set (rounds := map (fun i => let '(clock, funcIndex, r) := round i in
                                 SimulatedRun.Sampled clock funcIndex r) (seq 0 30)).
    set (evs := SimulatedRun.Logged startClock Simulated.Starting :: rounds).
    destruct (SimulatedFacts.sim_run_total evs st) as [st1 E1].
    { constructor; [exact I|]. subst rounds. apply Forall_forall.
      intros ev Hin. apply in_map_iff in Hin. destruct Hin as (i & <- & Hi).
      apply in_seq in Hi. specialize (Hr i ltac:(lia)).
      destruct (round i) as [[clock k] r]. exact Hr. }
    change (SimulatedRun.Logged startClock Simulated.Starting
            :: rounds ++ [SimulatedRun.Logged endClock Simulated.Complete])
      with (evs ++ [SimulatedRun.Logged endClock Simulated.Complete]).
    rewrite Simulated_run_app, E1. cbn [SimulatedRun.run SimulatedRun.step].
    eexists _, (JS.slice_last 50 (Simulated.logs st1)).
    split; [reflexivity|]. cbn [Simulated.functions Simulated.logs].
    split; [|split; [|split]].
    + unfold Simulated_totalCalls at 1. cbn [Simulated.functions].
      fold (Simulated_totalCalls st1).
      rewrite (Simulated_totalCalls_run _ _ _ E1).
      subst evs. rewrite Simulated_samples_after_line.
      subst rounds. now rewrite Simulated_rounds_counted, length_seq.
    + apply (Simulated_names_run _ _ _ E1).
    + reflexivity.
    + rewrite addLog_length. lia.
Qed.

Lemma runSimulation_thirty_samples_witness :
  exists st' older,
    Real_runSimulation "12:00:00"%string "12:00:06"%string
      (fun i => ("12:00:01"%string, i mod 3, 1.5%float)) Real.initialState
    = Some st'
    /\ Real_totalCalls st' = Real_totalCalls Real.initialState + 30
    /\ map Real.name (Real.functions st')
       = map Real.name (Real.functions Real.initialState)
    /\ Real.logs st' = older ++ [Real.mkLine "12:00:06"%string Real.Complete]
    /\ List.length (Real.logs st') <= 51.
Proof.
  apply (proj1 runSimulation_thirty_samples).
  - cbn. lia.
  - intros i _. change (i mod 3 < 3). apply Nat.mod_upper_bound. lia.
Defined.

(** ** The best time is the smallest duration *)

Module Binary64Order.
Import Binary64.
#[local] Open Scope Z_scope.

(** The order of binary64 is total on numbers. *)
Lemma SF_not_lt_le a b :
  a <> S754_nan -> b <> S754_nan -> SFltb a b = false -> SFleb b a = true.
Proof.
  unfold SFltb, SFleb.
  destruct a as [sa|sa| |sa ma ea], b as [sb|sb| |sb mb eb];
    try congruence; intros _ _; cbn [SFcompare];
    try destruct sa; try destruct sb; try discriminate; try reflexivity;
    rewrite (Z.compare_antisym ea eb);
    change (Pos.compare_cont Eq mb ma) with (Pos.compare mb ma);
    change (Pos.compare_cont Eq ma mb) with (Pos.compare ma mb);
    rewrite (Pos.compare_antisym ma mb);
    destruct (ea ?= eb); cbn [CompOpp]; try discriminate; try reflexivity;
    destruct (ma ?= mb)%positive; cbn [CompOpp]; try discriminate; reflexivity.
Qed.

Lemma not_ltb_leb x y :
  is_nan x = false -> is_nan y = false ->
  (x <? y)%float = false -> (y <=? x)%float = true.
Proof.
  rewrite ltb_spec, leb_spec. intros Hx Hy.
  apply SF_not_lt_le; now apply is_nan_Prim2SF.
Qed.

Lemma SFleb_scaled x y :
  valid_binary x = true -> valid_binary y = true ->
  nonnegFinite x -> nonnegFinite y ->
  SFleb x y = true -> scaled x <= scaled y.
Proof.
  intros Vx Vy Nx Ny H.
  destruct (SFltb x y) eqn:L.
  - apply Z.lt_le_incl. now apply SFltb_scaled.
  - revert H L. unfold SFleb, SFltb.
    destruct x as [sx|sx| |sx mx ex], y as [sy|sy| |sy my ey];
      try destruct sx; try destruct sy; try contradiction; cbn [SFcompare scaled];
      try discriminate; try lia.
    change (Pos.compare_cont Eq mx my) with (Pos.compare mx my).
    destruct (Z.compare_spec ex ey) as [->|?|?]; try discriminate.
    destruct (Pos.compare_spec mx my) as [->|?|?]; try discriminate. lia.
Qed.

Lemma leb_not_nan_l x y : (x <=? y)%float = true -> is_nan x = false.
Proof.
  rewrite leb_spec. intros H. apply is_nan_Prim2SF. intros E.
  rewrite E in H. discriminate.
Qed.

Lemma leb_not_nan_r x y : (x <=? y)%float = true -> is_nan y = false.
Proof.
  rewrite leb_spec. intros H. apply is_nan_Prim2SF. intros E.
  rewrite E in H. unfold SFleb in H.
  destruct (Prim2SF x); discriminate.
Qed.

Lemma SF_le_le_trans a b c :
  SFleb a b = true -> SFleb b c = true -> SFleb a c = true.
Proof.
  unfold SFleb.
  destruct a as [sa|sa| |sa ma ea], b as [sb|sb| |sb mb eb],
    c as [sc|sc| |sc mc ec]; simpl;
    try destruct sa; try destruct sb; try destruct sc; simpl;
    try discriminate; try reflexivity;
    change (Pos.compare_cont Eq) with Pos.compare;
    destruct (Z.compare_spec ea eb), (Z.compare_spec eb ec),
      (Z.compare_spec ea ec); try lia; try discriminate; try reflexivity;
    destruct (Pos.compare_spec ma mb), (Pos.compare_spec mb mc),
      (Pos.compare_spec ma mc); simpl; try lia; try discriminate;
    try reflexivity.
Qed.

Lemma leb_trans x y z :
  (x <=? y)%float = true -> (y <=? z)%float = true -> (x <=? z)%float = true.
Proof. rewrite !leb_spec. apply SF_le_le_trans. Qed.

End Binary64Order.

Lemma best_after_samples ts : forall f b0,
  Real.bestTime (Real.stats f) = Some b0 ->
  is_nan b0 = false ->
  Forall (fun x => is_nan x = false) ts ->
  exists b,
    Real.bestTime (Real.stats (fst (Real_sampleAll f ts))) = Some b
    /\ (b = b0 \/ In b ts)
    /\ (b <=? b0)%float = true
    /\ Forall (fun x => (b <=? x)%float = true) ts.
Proof.
  induction ts as [|t ts IH]; intros f b0 Hb Hn Hts.
  - exists b0. cbn. repeat split; auto. now apply leb_refl.
  - inversion Hts as [|? ? Ht Hts']; subst.
    rewrite Real_sampleAll_cons. cbn [fst].
    pose proof (RealTimes.bestTime_applySample f t) as Hb1. rewrite Hb in Hb1.
    set (b1 := if (t <? b0)%float then t else b0) in *.
    assert (Hn1 : is_nan b1 = false) by (subst b1; destruct (t <? b0)%float; auto).
    destruct (IH _ b1 Hb1 Hn1 Hts') as (b & Eb & Hin & Hle & Hall).
    exists b. split; [exact Eb|].
    assert (H10 : (b1 <=? b0)%float = true /\ (b1 <=? t)%float = true
                  /\ (b1 = b0 \/ b1 = t)).
    { subst b1. destruct (t <? b0)%float eqn:E.
      - repeat split; auto using leb_refl. now apply Binary64.ltb_leb.
      - repeat split; auto using leb_refl.
        now apply Binary64Order.not_ltb_leb. }
    destruct H10 as (H0 & H1 & H2).
    split; [|split].
    + destruct Hin as [->|Hin]; [|right; now right].
      destruct H2 as [->| ->]; [now left | right; now left].
    + eapply Binary64Order.leb_trans; eauto.
    + constructor; [|exact Hall]. eapply Binary64Order.leb_trans; eauto.
Qed.

Lemma first_after_samples ts : forall f x,
  Real.firstTime (Real.stats f) = Some x ->
  Real.firstTime (Real.stats (fst (Real_sampleAll f ts))) = Some x.
Proof.
  induction ts as [|t ts IH]; intros f x Hf; [exact Hf|].
  rewrite Real_sampleAll_cons. cbn [fst]. apply IH.
  now rewrite RealTimes.firstTime_applySample, Hf.
Qed.

(** X9.  In the real variant the first time of a record is the duration of its
    first sample since the reset, and its best time is the smallest of the
    durations sampled since: one of them, and no larger than any. *)
Theorem bestTime_is_the_minimum :
  forall f t ts,
    Forall (fun x => is_nan x = false) (t :: ts) ->
    exists b,
      Real.firstTime
        (Real.stats (fst (Real_sampleAll (Real.resetRecord f) (t :: ts)))) = Some t
      /\ Real.bestTime
           (Real.stats (fst (Real_sampleAll (Real.resetRecord f) (t :: ts)))) = Some b
      /\ In b (t :: ts)
      /\ Forall (fun x => (b <=? x)%float = true) (t :: ts).
Proof.
  intros f t ts H. inversion H as [|? ? Ht Hts]; subst.
  rewrite Real_sampleAll_cons. cbn [fst].
  set (f1 := fst (Real.applySample (Real.resetRecord f) t)).
  assert (Hb1 : Real.bestTime (Real.stats f1) = Some t)
    by (subst f1; now rewrite RealTimes.bestTime_applySample).
  assert (Hf1 : Real.firstTime (Real.stats f1) = Some t)
    by (subst f1; now rewrite RealTimes.firstTime_applySample).
  destruct (best_after_samples ts f1 t Hb1 Ht Hts) as (b & Eb & Hin & Hle & Hall).
  exists b. split; [|split; [exact Eb|split]].
  - now apply first_after_samples.
  - destruct Hin as [->|Hin]; [now left | now right].
  - constructor; assumption.
Qed.

Lemma bestTime_is_the_minimum_witness :
  exists b,
    Real.firstTime
      (Real.stats (fst (Real_sampleAll
         (Real.resetRecord
            (Real.mkFunction "f"%string ""%string Real.zeroStats []
               Real.run_fibonacci 1))
         [8%float; 6.25%float; 9%float]))) = Some 8%float
    /\ Real.bestTime
         (Real.stats (fst (Real_sampleAll
            (Real.resetRecord
               (Real.mkFunction "f"%string ""%string Real.zeroStats []
                  Real.run_fibonacci 1))
            [8%float; 6.25%float; 9%float]))) = Some b
    /\ In b [8%float; 6.25%float; 9%float]
    /\ Forall (fun x => (b <=? x)%float = true) [8%float; 6.25%float; 9%float].
Proof.
  apply bestTime_is_the_minimum. repeat constructor.
Defined.

(** ** The level of the real variant stays in range *)

Module Binary64Division.
Import Binary64 Binary64Order.
#[local] Open Scope Z_scope.

Lemma shr_iter_nonneg n : forall rec,
  0 <= shr_m rec -> 0 <= shr_m (Nat.iter n shr_1 rec).
Proof.
  induction n as [|n IH]; intros rec H; [exact H|].
  rewrite Nat.iter_succ. specialize (IH rec H).
  destruct (Nat.iter n shr_1 rec) as [q r s]. cbn [shr_m] in IH.
  rewrite (proj1 (shr_1_spec q r s IH)). apply Z.div_pos; lia.
Qed.

Lemma shr_fexp_nonneg m e l :
  0 <= m -> 0 <= shr_m (fst (shr_fexp prec emax m e l)).
Proof.
  intros H. unfold shr_fexp, shr.
  assert (H0 : 0 <= shr_m (shr_record_of_loc m l))
    by (destruct l as [|[| |]]; exact H).
  destruct (fexp prec emax (Zdigits2 m + e) - e) as [|p|p]; cbn [fst]; auto.
  rewrite iter_pos_nat. now apply shr_iter_nonneg.
Qed.

(** Rounding a mantissa that is not negative never yields NaN, whatever is
    known of the digits already dropped. *)
Lemma binary_round_aux_not_nan_any s m e l :
  0 <= m -> binary_round_aux prec emax s m e l <> S754_nan.
Proof.
  intros H. unfold binary_round_aux.
  pose proof (shr_fexp_nonneg m e l H) as H1.
  destruct (shr_fexp prec emax m e l) as [rec1 e1]. cbn [fst] in H1.
  pose proof (round_nearest_even_bounds (shr_m rec1) (loc_of_shr_record rec1)) as Hr.
  set (m2 := round_nearest_even (shr_m rec1) (loc_of_shr_record rec1)) in *.
  pose proof (shr_fexp_nonneg m2 e1 loc_Exact ltac:(lia)) as H2.
  destruct (shr_fexp prec emax m2 e1 loc_Exact) as [rec2 e2]. cbn [fst] in H2.
  destruct (shr_m rec2); [discriminate| |lia].
  destruct (_ <=? _); discriminate.
Qed.

Lemma SFdiv_finite_not_nan x s m e :
  x <> S754_nan -> SFdiv prec emax x (S754_finite s m e) <> S754_nan.
Proof.
  destruct x as [sx|sx| |sx mx ex]; cbn [SFdiv]; try congruence.
  intros _. unfold SFdiv_core_binary.
  set (m' := match _ - _ - _ with Z0 => _ | Zpos _ => _ | Zneg _ => _ end).
  assert (Hm : 0 <= m').
  { subst m'. destruct (_ - _ - _); try lia. apply Z.shiftl_nonneg. lia. }
  pose proof (Z_div_mod m' (Zpos m) ltac:(lia)) as Hd.
  destruct (Z.div_eucl m' (Zpos m)) as [q r].
  apply binary_round_aux_not_nan_any. nia.
Qed.

Lemma duration_nonnegFinite t : finiteDuration t -> nonnegFinite (Prim2SF t).
Proof.
  intros [H0 H1]. revert H0 H1.
  rewrite leb_spec, ltb_spec, Prim2SF_0.
  change (Prim2SF infinity) with (S754_infinity false).
  unfold SFleb, SFltb.
  destruct (Prim2SF t) as [s|[|]| |[|] m e]; cbn; try discriminate; auto.
Qed.

Lemma improvement_not_nan first best :
  finiteDuration first -> finiteDuration best -> (0 <? first)%float = true ->
  is_nan ((1 - best / first) * 20)%float = false.
Proof.
  intros Hf Hb H0. apply is_nan_Prim2SF.
  apply duration_nonnegFinite in Hf. apply duration_nonnegFinite in Hb.
  rewrite ltb_spec, Prim2SF_0 in H0.
  rewrite mul_spec, sub_spec, div_spec, Prim2SF_1.
  replace (Prim2SF 20) with (S754_finite false 5629499534213120 (-48))
    by (vm_compute; reflexivity).
  apply SFmul_finite_r_not_nan, SFsub_finite_l_not_nan.
  destruct (Prim2SF first) as [s|s| |[|] m e]; try contradiction;
    try discriminate.
  apply SFdiv_finite_not_nan.
  intros E. rewrite E in Hb. exact Hb.
Qed.

(** [clamp(0, 5, x)] of a number lies within [0, 5]. *)
Lemma clamp05_inRange x : is_nan x = false -> levelInRange (clamp05 x).
Proof.
  intros H. unfold clamp05.
  assert (Hy : is_nan (JS.Math_max 0 x) = false
               /\ (0 <=? JS.Math_max 0 x)%float = true).
  { unfold JS.Math_max. rewrite H. change (is_nan 0) with false. cbn [orb].
    destruct (0 <? x)%float eqn:E; [split; [exact H|now apply ltb_leb]|].
    destruct (x <? 0)%float; [split; reflexivity|].
    change (get_sign 0) with false. split; reflexivity. }
  destruct Hy as [Hn H0]. set (y := JS.Math_max 0 x) in *.
  unfold JS.Math_min, levelInRange. rewrite Hn. change (is_nan 5) with false.
  cbn [orb].
  destruct (5 <? y)%float eqn:E5; [split; reflexivity|].
  destruct (y <? 5)%float eqn:Ey; [split; [exact H0|now apply ltb_leb]|].
  change (get_sign 5) with false. split; [exact H0|].
  now apply not_ltb_leb.
Qed.

End Binary64Division.

Section RealRecordsOn.
Variable good : float -> Prop.
Variable Q : Real.FunctionRecord -> Prop.
Hypothesis Q_sample : forall f t, good t -> Q f -> Q (fst (Real.applySample f t)).
Hypothesis Q_reset : forall f, Q (Real.resetRecord f).

Lemma Real_run_records_on evs : forall st st',
  Forall (fun ev => match ev with
                    | RealRun.Sampled _ _ t => good t
                    | _ => True
                    end) evs ->
  Forall Q (Real.functions st) ->
  RealRun.run evs st = Some st' ->
  Forall Q (Real.functions st').
Proof.
  induction evs as [|ev evs IH]; intros st st' Hg HQ; cbn [RealRun.run].
  - now intros [= <-].
  - inversion Hg as [|? ? Hev Hevs]; subst.
    destruct (RealRun.step ev st) as [st1|] eqn:E; [|discriminate].
    apply IH; [exact Hevs|]. clear IH Hevs.
    destruct ev as [clock i t|clock|clock m]; cbn in E.
    + destruct (nth_error (Real.functions st) i) as [f|] eqn:En.
      * rewrite (executeFunction_unfold _ _ _ _ _ En) in E.
        injection E as <-. cbn. apply Forall_assign; [exact HQ|].
        apply Q_sample; [exact Hev|].
        rewrite Forall_forall in HQ. apply HQ. eapply nth_error_In; eauto.
      * unfold Real.executeFunction in E. rewrite En in E. discriminate.
    + injection E as <-. cbn. apply Forall_forall. intros f Hin.
      apply in_map_iff in Hin. destruct Hin as [g [<- _]]. apply Q_reset.
    + now injection E as <-.
Qed.

End RealRecordsOn.

Lemma Real_level_step f t :
  finiteDuration t ->
  Real_timesFinite (Real.stats f) ->
  levelInRange (Real.optimizationLevel (Real.stats f)) ->
  Real_timesFinite (Real.stats (fst (Real.applySample f t)))
  /\ levelInRange (Real.optimizationLevel (Real.stats (fst (Real.applySample f t)))).
Proof.
  intros Ht [Hf Hb] Hl.
  pose proof (RealTimes.level_applySample f t) as Hlev. cbv zeta in Hlev.
  set (first := match Real.firstTime (Real.stats f) with
                | Some x => x | None => t end) in *.
  set (best := match Real.bestTime (Real.stats f) with
               | Some b => if (t <? b)%float then t else b
               | None => t end) in *.
  assert (Ff : finiteDuration first).
  { subst first. destruct (Real.firstTime (Real.stats f)); auto. }
  assert (Fb : finiteDuration best).
  { subst best. destruct (Real.bestTime (Real.stats f)) as [b|]; auto.
    destruct (t <? b)%float; auto. }
  split.
  - split; intros x.
    + rewrite RealTimes.firstTime_applySample. fold first. now intros [= <-].
    + rewrite RealTimes.bestTime_applySample. fold best. now intros [= <-].
  - rewrite Hlev. destruct (0 <? first)%float eqn:E; [|exact Hl].
    apply Binary64Division.clamp05_inRange.
    now apply Binary64Division.improvement_not_nan.
Qed.

(** X10.  In the real variant, from a reset and with durations that are finite
    and not negative, the optimization level of every record stays within
    [0, 5]. *)
Theorem real_level_stays_in_range :
  forall clock st0 evs,
    Forall (RealRun.inRange (List.length (Real.functions st0))) evs ->
    Forall Real_finiteSample evs ->
    exists st,
      RealRun.run evs (Real.resetAll clock st0) = Some st
      /\ Forall (fun f => levelInRange (Real.optimizationLevel (Real.stats f)))
           (Real.functions st).
Proof.
  intros clock st0 evs Hr Hd.
  destruct (RealFacts.run_total evs (Real.resetAll clock st0)) as [st E].
  { cbn. now rewrite length_map. }
  exists st. split; [exact E|].
  assert (Inv : Forall (fun f =>
      Real_timesFinite (Real.stats f)
      /\ levelInRange (Real.optimizationLevel (Real.stats f)))
    (Real.functions st)).
  { eapply (Real_run_records_on finiteDuration); [ | | | |exact E].
    - intros f t Ht [H1 H2]. now apply Real_level_step.
    - intros f. split; [split; intros x; discriminate|split; reflexivity].
    - eapply Forall_impl; [|exact Hd]. now intros [].
    - cbn. apply Forall_forall. intros f Hin.
      apply in_map_iff in Hin. destruct Hin as [g [<- _]].
      split; [split; intros x; discriminate|split; reflexivity]. }
  eapply Forall_impl; [|exact Inv]. now intros f [_ H].
Qed.

Lemma real_level_stays_in_range_witness :
  exists st,
    RealRun.run
      [RealRun.Sampled "12:00:00"%string 0 8%float;
       RealRun.Sampled "12:00:01"%string 0 6.25%float]
      (Real.resetAll "11:59:59"%string Real.initialState) = Some st
    /\ Forall (fun f => levelInRange (Real.optimizationLevel (Real.stats f)))
         (Real.functions st).
Proof.
  apply real_level_stays_in_range.
  - cbn. repeat constructor.
  - repeat constructor.
Defined.

(** ** The range of the simulated timer *)

Module Binary64Timer.
Import Binary64 Binary64Order.
#[local] Open Scope Z_scope.

Lemma Prim2SF_5 : Prim2SF 5 = S754_finite false 5629499534213120 (-50).
Proof. vm_compute. reflexivity. Qed.
Lemma Prim2SF_12_5 : Prim2SF 12.5 = S754_finite false 7036874417766400 (-49).
Proof. vm_compute. reflexivity. Qed.
Lemma scaled_5 : scaled (Prim2SF 5) = 5 * 2 ^ scale.
Proof. vm_compute. reflexivity. Qed.
Lemma scaled_12_5 : scaled (Prim2SF 12.5) = 50 * 2 ^ (scale - 2).
Proof. vm_compute. reflexivity. Qed.

(** Values are counted in quarters below. *)
Lemma scale_quarters : 2 ^ scale = 4 * 2 ^ (scale - 2).
Proof.
  replace scale with (2 + (scale - 2)) at 1 by lia.
  rewrite (Z.pow_add_r 2 2 (scale - 2)) by (unfold scale; lia).
  change (2 ^ 2) with 4. reflexivity.
Qed.

Lemma quarter_pos : 0 < 2 ^ (scale - 2).
Proof. apply Z.pow_pos_nonneg; unfold scale; lia. Qed.

Lemma aligned_quarters c k :
  2 <= k <= 1074 -> (2 ^ (- k + scale) | c * 2 ^ (scale - 2)).
Proof.
  intros H. exists (c * 2 ^ (k - 2)).
  replace (scale - 2) with ((k - 2) + (- k + scale)) at 1 by lia.
  rewrite (Z.pow_add_r 2 (k - 2) (- k + scale)) by (unfold scale; lia). lia.
Qed.

(** A value of at least [2^j] has an exponent above [j - 53]. *)
Lemma exp_lower m e j :
  Zpos m < 2 ^ 53 -> - scale <= e -> - scale <= j - 53 ->
  2 ^ (j + scale) <= Zpos m * 2 ^ (e + scale) -> j - 53 < e.
Proof.
  intros Hm He Hj H.
  destruct (Z.lt_ge_cases (j - 53) e) as [|G]; [assumption|exfalso].
  assert (L : 2 ^ (e + scale) <= 2 ^ (j - 53 + scale))
    by (apply Z.pow_le_mono_r; lia).
  assert (E : 2 ^ (j + scale) = 2 ^ 53 * 2 ^ (j - 53 + scale)).
  { replace (j + scale) with (53 + (j - 53 + scale)) by lia.
    apply Z.pow_add_r; lia. }
  assert (P : 0 < 2 ^ (e + scale)) by (apply Z.pow_pos_nonneg; lia).
  rewrite E in H. nia.
Qed.

(** A value below [2^k] has an exponent below [k]. *)
Lemma exp_upper m e k :
  - scale <= e -> Zpos m * 2 ^ (e + scale) < 2 ^ (k + scale) -> e < k.
Proof.
  intros He H. pose proof (scaled_lt_digits m e k He H) as D.
  cbn [Zdigits2] in D. lia.
Qed.

Lemma level_scaled level :
  levelInRange level ->
  nonnegFinite (Prim2SF level) /\ scaled (Prim2SF level) <= 5 * 2 ^ scale.
Proof.
  intros [H0 H5]. rewrite leb_spec in H0, H5. rewrite Prim2SF_0 in H0.
  assert (N : nonnegFinite (Prim2SF level)).
  { revert H0 H5. rewrite Prim2SF_5. unfold SFleb.
    destruct (Prim2SF level) as [s|[|]| |[|] m e]; cbn [SFcompare nonnegFinite];
      try discriminate; auto. }
  split; [exact N|]. rewrite <- scaled_5.
  apply SFleb_scaled; auto using Prim2SF_valid. now rewrite Prim2SF_5.
Qed.

(** [level * 0.15] is at most 0.75 for a level of at most 5. *)
Lemma times015 level :
  nonnegFinite (Prim2SF level) -> scaled (Prim2SF level) <= 5 * 2 ^ scale ->
  nonnegFinite (Prim2SF (level * 0.15)%float)
  /\ 0 <= scaled (Prim2SF (level * 0.15)%float) <= 3 * 2 ^ (scale - 2).
Proof.
  intros N H. pose proof (Prim2SF_valid level) as V.
  pose proof quarter_pos as U.
  rewrite mul_spec, Prim2SF_015. unfold SF64mul.
  destruct (Prim2SF level) as [s|s| |[|] m e]; try contradiction; cbn [SFmul].
  - split; [exact I|]. cbn [scaled]. lia.
  - cbn [xorb].
    destruct (valid_finite _ _ _ V) as (E & _ & _).
    cbn [scaled] in H. rewrite scale_quarters in H.
    assert (Q : 0 < 2 ^ (e + -55 + scale))
      by (apply Z.pow_pos_nonneg; unfold scale; lia).
    assert (X : Zpos m * 2 ^ (e + scale)
                = 36028797018963968 * (Zpos m * 2 ^ (e + -55 + scale))).
    { replace (e + scale) with (55 + (e + -55 + scale)) by lia.
      rewrite (Z.pow_add_r 2 55 (e + -55 + scale)) by (unfold scale; lia).
      change (2 ^ 55) with 36028797018963968. lia. }
    assert (Y : Zpos (m * 5404319552844595) * 2 ^ (e + -55 + scale)
                = 5404319552844595 * (Zpos m * 2 ^ (e + -55 + scale))).
    { rewrite Pos2Z.inj_mul. lia. }
    rewrite X in H.
    destruct (binary_round_aux_bounds (m * 5404319552844595) (e + -55) 0
                0 (3 * 2 ^ (scale - 2))) as [F B].
    + unfold scale. lia.
    + lia.
    + rewrite Y. change (0 + scale) with scale. rewrite scale_quarters. lia.
    + apply Z.divide_0_r.
    + change (fexp64 (0 + 1)) with (- (52)). apply aligned_quarters. lia.
    + rewrite Y. lia.
    + split; [|exact B].
      destruct F as [->|(m' & e' & -> & _)]; exact I.
Qed.

Lemma one_scaled : 4503599627370496 * 2 ^ (-52 + scale) = 4 * 2 ^ (scale - 2).
Proof.
  replace (-52 + scale) with ((scale - 2) + - 50) by lia.
  pose proof scaled_1 as H. rewrite Prim2SF_1 in H. cbn [scaled] in H.
  rewrite scale_quarters in H. rewrite <- H.
  replace (-52 + scale) with ((scale - 2) + - 50) by lia. reflexivity.
Qed.

(** [1 - p] lies between 0.25 and 1 for [p] of at most 0.75. *)
Lemma one_minus p :
  nonnegFinite (Prim2SF p) -> scaled (Prim2SF p) <= 3 * 2 ^ (scale - 2) ->
  nonnegFinite (Prim2SF (1 - p)%float)
  /\ 2 ^ (scale - 2) <= scaled (Prim2SF (1 - p)%float) <= 4 * 2 ^ (scale - 2).
Proof.
  intros N H. pose proof (Prim2SF_valid p) as V.
  pose proof quarter_pos as U.
  rewrite sub_spec, Prim2SF_1. unfold SF64sub.
  destruct (Prim2SF p) as [s|s| |[|] m e]; try contradiction; cbn [SFsub].
  - split; [exact I|]. cbn [scaled]. rewrite one_scaled. lia.
  - destruct (valid_finite _ _ _ V) as (E & _ & _).
    cbn [scaled] in H. cbn [cond_Zopp].
    destruct (shl_align_spec 4503599627370496 (-52) (Z.min (-52) e)) as [_ A1];
      [unfold scale; lia | unfold scale; lia |].
    destruct (shl_align_spec m e (Z.min (-52) e)) as [_ A2];
      [unfold scale; lia | unfold scale; lia |].
    replace (Z.min (-52) (Z.min (-52) e)) with (Z.min (-52) e) in A1 by lia.
    replace (Z.min e (Z.min (-52) e)) with (Z.min (-52) e) in A2 by lia.
    rewrite one_scaled in A1.
    set (a := fst (shl_align 4503599627370496 (-52) (Z.min (-52) e))) in *.
    set (b := fst (shl_align m e (Z.min (-52) e))) in *.
    assert (Q : 0 < 2 ^ (Z.min (-52) e + scale))
      by (apply Z.pow_pos_nonneg; unfold scale; lia).
    assert (P : 0 < Zpos m * 2 ^ (e + scale)).
    { assert (0 < 2 ^ (e + scale)) by (apply Z.pow_pos_nonneg; unfold scale; lia).
      nia. }
    remember (Zpos a - Zpos b) as d eqn:D.
    assert (X : d * 2 ^ (Z.min (-52) e + scale)
                = 4 * 2 ^ (scale - 2) - Zpos m * 2 ^ (e + scale)).
    { rewrite D, Z.mul_sub_distr_r, A1, A2. reflexivity. }
    destruct d as [|d|d]; [exfalso; lia| |exfalso; nia].
    cbn [binary_normalize].
    destruct (binary_round_bounds d (Z.min (-52) e) 1
                (2 ^ (scale - 2)) (4 * 2 ^ (scale - 2))) as [F B].
    + unfold scale. lia.
    + lia.
    + rewrite X. replace (1 + scale) with (Z.succ scale) by lia.
      rewrite Z.pow_succ_r by (unfold scale; lia). rewrite scale_quarters. lia.
    + change (fexp64 (1 + 1)) with (- (51)).
      replace (2 ^ (scale - 2)) with (1 * 2 ^ (scale - 2)) by lia.
      apply aligned_quarters. lia.
    + change (fexp64 (1 + 1)) with (- (51)). apply aligned_quarters. lia.
    + rewrite X. lia.
    + split; [|exact B].
      destruct F as [->|(m' & e' & -> & _)]; exact I.
Qed.

(** A base time between 50 and 150 times a factor between 0.25 and 1 lies
    between 12.5 and 150. *)
Lemma times_factor b f :
  nonnegFinite (Prim2SF b) ->
  200 * 2 ^ (scale - 2) <= scaled (Prim2SF b) <= 600 * 2 ^ (scale - 2) ->
  nonnegFinite (Prim2SF f) ->
  2 ^ (scale - 2) <= scaled (Prim2SF f) <= 4 * 2 ^ (scale - 2) ->
  nonnegFinite (Prim2SF (b * f)%float)
  /\ 50 * 2 ^ (scale - 2) <= scaled (Prim2SF (b * f)%float) <= 600 * 2 ^ (scale - 2).
Proof.
  intros Nb Hb Nf Hf.
  pose proof (Prim2SF_valid b) as Vb. pose proof (Prim2SF_valid f) as Vf.
  pose proof quarter_pos as U.
  rewrite mul_spec. unfold SF64mul.
  destruct (Prim2SF b) as [sb|sb| |[|] mb eb]; try contradiction;
    [exfalso; cbn [scaled] in Hb; lia|].
  destruct (Prim2SF f) as [sf|sf| |[|] mf ef]; try contradiction;
    [exfalso; cbn [scaled] in Hf; lia|].
  cbn [SFmul xorb]. cbn [scaled] in Hb, Hf.
  destruct (valid_finite _ _ _ Vb) as (Eb & Mb & _).
  destruct (valid_finite _ _ _ Vf) as (Ef & Mf & _).
  assert (S5 : 2 ^ (5 + scale) = 128 * 2 ^ (scale - 2)).
  { rewrite (pow2_scale 5) by lia. rewrite scale_quarters.
    change (2 ^ 5) with 32. lia. }
  assert (S8 : 2 ^ (8 + scale) = 1024 * 2 ^ (scale - 2)).
  { rewrite (pow2_scale 8) by lia. rewrite scale_quarters.
    change (2 ^ 8) with 256. lia. }
  assert (S1 : 2 ^ (1 + scale) = 8 * 2 ^ (scale - 2)).
  { rewrite (pow2_scale 1) by lia. rewrite scale_quarters.
    change (2 ^ 1) with 2. lia. }
  assert (Lb : 5 - 53 < eb).
  { apply (exp_lower mb); [exact Mb|unfold scale; lia|unfold scale; lia|].
    rewrite S5. lia. }
  assert (Lf : -2 - 53 < ef).
  { apply (exp_lower mf); [exact Mf|unfold scale; lia|unfold scale; lia|].
    replace (-2 + scale) with (scale - 2) by lia. lia. }
  assert (Ub : eb < 8).
  { apply (exp_upper mb); [unfold scale; lia|]. rewrite S8. lia. }
  assert (Uf : ef < 1).
  { apply (exp_upper mf); [unfold scale; lia|]. rewrite S1. lia. }
  assert (X : Zpos (mb * mf) * 2 ^ (eb + ef + scale) * (4 * 2 ^ (scale - 2))
              = (Zpos mb * 2 ^ (eb + scale)) * (Zpos mf * 2 ^ (ef + scale))).
  { rewrite <- scale_quarters, Pos2Z.inj_mul.
    rewrite <- !Z.mul_assoc. f_equal.
    rewrite (Z.mul_comm (2 ^ (eb + scale))), <- !Z.mul_assoc. f_equal.
    rewrite <- !Z.pow_add_r by (unfold scale; lia). f_equal. lia. }
  set (x := Zpos (mb * mf) * 2 ^ (eb + ef + scale)) in *.
  set (vb := Zpos mb * 2 ^ (eb + scale)) in *.
  set (vf := Zpos mf * 2 ^ (ef + scale)) in *.
  set (u := 2 ^ (scale - 2)) in *.
  assert (L1 : (200 * u) * u <= vb * vf)
    by (apply Z.mul_le_mono_nonneg; lia).
  assert (U1 : vb * vf <= (600 * u) * (4 * u))
    by (apply Z.mul_le_mono_nonneg; lia).
  rewrite <- X in L1, U1.
  assert (Bx : 50 * u <= x <= 600 * u).
  { split; apply (Z.mul_le_mono_pos_r _ _ (4 * u)); lia. }
  destruct (binary_round_aux_bounds (mb * mf) (eb + ef) 8
              (50 * u) (600 * u)) as [F B].
  + unfold scale. lia.
  + lia.
  + fold x. rewrite S8. lia.
  + change (fexp64 (8 + 1)) with (- (44)). apply aligned_quarters. lia.
  + change (fexp64 (8 + 1)) with (- (44)). apply aligned_quarters. lia.
  + exact Bx.
  + split; [|exact B].
    destruct F as [->|(m' & e' & -> & _)]; exact I.
Qed.

Lemma preFloor_scaled r level :
  (0 <=? r)%float = true -> (r <? 1)%float = true -> levelInRange level ->
  nonnegFinite (Prim2SF (Simulated.preFloor r level))
  /\ 50 * 2 ^ (scale - 2) <= scaled (Prim2SF (Simulated.preFloor r level))
     <= 600 * 2 ^ (scale - 2).
Proof.
  intros H0 H1 HL.
  destruct (baseTime_scaled r H0 H1) as [Nb Bb].
  destruct (level_scaled level HL) as [Nl Bl].
  destruct (times015 level Nl Bl) as [Np Bp].
  destruct (one_minus _ Np (proj2 Bp)) as [Nf Bf].
  rewrite scale_quarters in Bb.
  apply times_factor; auto; lia.
Qed.

Lemma between_12_5_150 x :
  nonnegFinite (Prim2SF x) ->
  50 * 2 ^ (scale - 2) <= scaled (Prim2SF x) <= 600 * 2 ^ (scale - 2) ->
  (12.5 <=? x)%float = true /\ (x <=? 150)%float = true.
Proof.
  intros N [L U]. rewrite !leb_spec. split.
  - apply scaled_SFleb;
      [apply Prim2SF_valid | apply Prim2SF_valid | now rewrite Prim2SF_12_5
      | exact N | now rewrite scaled_12_5].
  - apply scaled_SFleb;
      [apply Prim2SF_valid | apply Prim2SF_valid | exact N
      | now rewrite Prim2SF_150 | rewrite scaled_150, scale_quarters; lia].
Qed.

(** [Math.max(5, x)] is [x] from 12.5 on. *)
Lemma Math_max_5_above x :
  (12.5 <=? x)%float = true -> JS.Math_max 5 x = x.
Proof.
  intros H. unfold JS.Math_max.
  rewrite (leb_not_nan_r _ _ H). change (is_nan 5) with false. cbn [orb].
  now rewrite (ltb_leb_ltb 5 12.5 x eq_refl H).
Qed.

End Binary64Timer.

Lemma simulated_duration_bounds r level :
  (0 <=? r)%float = true -> (r <? 1)%float = true -> levelInRange level ->
  Simulated.executionTime r level = Simulated.preFloor r level
  /\ (12.5 <=? Simulated.executionTime r level)%float = true
  /\ (Simulated.executionTime r level <=? 150)%float = true.
Proof.
  intros H0 H1 HL.
  destruct (Binary64Timer.preFloor_scaled r level H0 H1 HL) as [N B].
  destruct (Binary64Timer.between_12_5_150 _ N B) as [L U].
  unfold Simulated.executionTime.
  rewrite (Binary64Timer.Math_max_5_above _ L). auto.
Qed.

Lemma Forall_slice_last {A : Type} (P : A -> Prop) n (arr : list A) :
  Forall P arr -> Forall P (JS.slice_last n arr).
Proof.
  intros H. rewrite (slice_last_suffix n arr) in H.
  now apply Forall_app in H.
Qed.

Section SimulatedRecordsOn.
Variable good : float -> Prop.
Variable Q : Simulated.FunctionRecord -> Prop.
Hypothesis Q_sample :
  forall f r, good r -> Q f -> Q (fst (Simulated.applySample f r)).
Hypothesis Q_reset : forall f, Q (Simulated.resetRecord f).

Lemma Simulated_run_records_on evs : forall st st',
  Forall (fun ev => match ev with
                    | SimulatedRun.Sampled _ _ r => good r
                    | _ => True
                    end) evs ->
  Forall Q (Simulated.functions st) ->
  SimulatedRun.run evs st = Some st' ->
  Forall Q (Simulated.functions st').
Proof.
  induction evs as [|ev evs IH]; intros st st' Hg HQ; cbn [SimulatedRun.run].
  - now intros [= <-].
  - inversion Hg as [|? ? Hev Hevs]; subst.
    destruct (SimulatedRun.step ev st) as [st1|] eqn:E; [|discriminate].
    apply IH; [exact Hevs|]. clear IH Hevs.
    destruct ev as [clock i r|clock|clock m]; cbn in E.
    + destruct (nth_error (Simulated.functions st) i) as [f|] eqn:En.
      * rewrite (simulateExecution_unfold _ _ _ _ _ En) in E.
        injection E as <-. cbn. apply Forall_assign; [exact HQ|].
        apply Q_sample; [exact Hev|].
        rewrite Forall_forall in HQ. apply HQ. eapply nth_error_In; eauto.
      * unfold Simulated.simulateExecution in E. rewrite En in E. discriminate.
    + injection E as <-. cbn. apply Forall_forall. intros f Hin.
      apply in_map_iff in Hin. destruct Hin as [g [<- _]]. apply Q_reset.
    + now injection E as <-.
Qed.

End SimulatedRecordsOn.

(** X11.  In the simulated variant, for every draw in [0, 1) and every level
    within [0, 5], the duration is the product itself, never the floor of 5, and
    lies within [12.5, 150]; from a reset, every duration in every history does. *)
Theorem simulated_durations_within_range :
  (forall r level,
      (0 <=? r)%float = true -> (r <? 1)%float = true -> levelInRange level ->
      Simulated.executionTime r level = Simulated.preFloor r level
      /\ durationInRange (Simulated.executionTime r level))
  /\ (forall clock st0 evs,
      Forall (SimulatedRun.inRange (List.length (Simulated.functions st0))) evs ->
      Forall Simulated_drawSample evs ->
      exists st,
        SimulatedRun.run evs (Simulated.resetAll clock st0) = Some st
        /\ Forall (fun f => Forall durationInRange (Simulated.history f))
             (Simulated.functions st)).
Proof.
  split.
  - intros r level H0 H1 HL.
    destruct (simulated_duration_bounds r level H0 H1 HL) as (E & L & U).
    split; [exact E|split; assumption].
  - intros clock st0 evs Hr Hd.
    destruct (SimulatedFacts.sim_run_total evs (Simulated.resetAll clock st0))
      as [st E].
    { cbn. now rewrite length_map. }
    exists st. split; [exact E|].
    assert (Inv : Forall (fun f =>
        (Simulated.status (Simulated.stats f)
         = thresholdStatus (Simulated.callCount (Simulated.stats f))
         /\ Simulated.optimizationLevel (Simulated.stats f)
            = levelAfter (Simulated.callCount (Simulated.stats f)))
        /\ Forall durationInRange (Simulated.history f))
      (Simulated.functions st)).
    { eapply (Simulated_run_records_on
                (fun r => (0 <=? r)%float = true /\ (r <? 1)%float = true));
        [ | | | |exact E].
      - intros f r [H0 H1] [[Hs Hl] Hh].
        destruct (sim_step_from_count f r _ eq_refl Hs Hl) as (Hc' & Hs' & Hl').
        rewrite Hc'. split; [split; assumption|].
        rewrite SimulatedFacts.sim_applySample_history.
        apply Forall_app. split; [now apply Forall_slice_last|].
        constructor; [|constructor].
        destruct (simulated_duration_bounds r
                    (Simulated.optimizationLevel (Simulated.stats f)) H0 H1)
          as (_ & L & U); [|split; assumption].
        rewrite Hl. apply levelAfter_inRange.
      - intros f. split; [split; reflexivity|constructor].
      - eapply Forall_impl; [|exact Hd]. now intros [].
      - cbn. apply Forall_forall. intros f Hin.
        apply in_map_iff in Hin. destruct Hin as [g [<- _]].
        split; [split; reflexivity|constructor]. }
    eapply Forall_impl; [|exact Inv]. now intros f [_ H].
Qed.

Lemma simulated_durations_within_range_witness :
  (Simulated.executionTime 0.5 5 = Simulated.preFloor 0.5 5
   /\ durationInRange (Simulated.executionTime 0.5 5))
  /\ exists st,
       SimulatedRun.run
         [SimulatedRun.Sampled "12:00:00"%string 1 0.25%float;
          SimulatedRun.Sampled "12:00:01"%string 1 0.75%float]
         (Simulated.resetAll "11:59:59"%string Simulated.initialState) = Some st
       /\ Forall (fun f => Forall durationInRange (Simulated.history f))
            (Simulated.functions st).
Proof.
  split.
  - apply (proj1 simulated_durations_within_range); [reflexivity|reflexivity|].
    split; reflexivity.
  - apply (proj2 simulated_durations_within_range).
    + cbn. repeat constructor.
    + repeat constructor.
Defined.

(** ** What the page draws *)

Module Binary64Display.
Import Binary64 Binary64Order Binary64Timer.
#[local] Open Scope Z_scope.

Lemma Prim2SF_20 : Prim2SF 20 = S754_finite false 5629499534213120 (-48).
Proof. vm_compute. reflexivity. Qed.
Lemma scaled_100 : scaled (Prim2SF 100) = 100 * 2 ^ scale.
Proof. vm_compute. reflexivity. Qed.

(** [level * 20] is at most 100 for a level of at most 5. *)
Lemma times20 level :
  nonnegFinite (Prim2SF level) -> scaled (Prim2SF level) <= 5 * 2 ^ scale ->
  nonnegFinite (Prim2SF (level * 20)%float)
  /\ 0 <= scaled (Prim2SF (level * 20)%float) <= 100 * 2 ^ scale.
Proof.
  intros N H. pose proof (Prim2SF_valid level) as V.
  assert (T : 0 < 2 ^ scale) by (apply Z.pow_pos_nonneg; unfold scale; lia).
  rewrite mul_spec, Prim2SF_20. unfold SF64mul.
  destruct (Prim2SF level) as [s|s| |[|] m e]; try contradiction; cbn [SFmul].
  - split; [exact I|]. cbn [scaled]. lia.
  - cbn [xorb].
    destruct (valid_finite _ _ _ V) as (E & _ & _).
    cbn [scaled] in H.
    assert (X : Zpos (m * 5629499534213120) * 2 ^ (e + -48 + scale)
                = 20 * (Zpos m * 2 ^ (e + scale))).
    { replace (e + scale) with (48 + (e + -48 + scale)) by lia.
      rewrite (Z.pow_add_r 2 48 (e + -48 + scale)) by (unfold scale; lia).
      rewrite Pos2Z.inj_mul. change (2 ^ 48) with 281474976710656. lia. }
    assert (0 < Zpos m * 2 ^ (e + scale)).
    { assert (0 < 2 ^ (e + scale)) by (apply Z.pow_pos_nonneg; unfold scale; lia).
      nia. }
    destruct (binary_round_aux_bounds (m * 5629499534213120) (e + -48) 7
                0 (100 * 2 ^ scale)) as [F B].
    + unfold scale. lia.
    + lia.
    + rewrite X, (pow2_scale 7) by lia. change (2 ^ 7) with 128. lia.
    + apply Z.divide_0_r.
    + change (fexp64 (7 + 1)) with (- (45)). apply aligned_scale. lia.
    + rewrite X. lia.
    + split; [|exact B].
      destruct F as [->|(m' & e' & -> & _)]; exact I.
Qed.

Lemma between_0_100 x :
  nonnegFinite (Prim2SF x) -> scaled (Prim2SF x) <= 100 * 2 ^ scale ->
  percentInRange x.
Proof.
  intros N U. unfold percentInRange. rewrite !leb_spec. split.
  - rewrite Prim2SF_0. unfold SFleb.
    destruct (Prim2SF x) as [s|[|]| |[|] m e]; try contradiction; reflexivity.
  - apply scaled_SFleb;
      [apply Prim2SF_valid | apply Prim2SF_valid | exact N
      | now rewrite Prim2SF_100 | now rewrite scaled_100].
Qed.

End Binary64Display.

(** X12.  The progress bar of a record never leaves its track, and no bar of the
    time graph is taller than the graph: for a level within [0, 5] the width
    [level * 20] lies within [0, 100]; for every duration that is a number the
    height [Math.min(100, time)] is at most 100, and it is the duration itself
    up to 100. *)
Theorem display_stays_within_percent :
  (forall level, levelInRange level -> percentInRange (progressWidth level))
  /\ (forall time,
      is_nan time = false ->
      (barHeight time <=? 100)%float = true
      /\ ((time <=? 100)%float = true -> barHeight time = time)).
Proof.
  split.
  - intros level HL.
    destruct (Binary64Timer.level_scaled level HL) as [N B].
    destruct (Binary64Display.times20 level N B) as [N' B'].
    apply Binary64Display.between_0_100; [exact N'|apply B'].
  - intros time Hn. unfold barHeight, JS.Math_min. rewrite Hn.
    change (is_nan 100) with false. cbn [orb].
    destruct (100 <? time)%float eqn:E.
    + split; [reflexivity|]. intros H.
      pose proof (Binary64.ltb_leb_ltb _ _ _ E H) as C. discriminate C.
    + destruct (time <? 100)%float eqn:E'.
      * split; [now apply Binary64.ltb_leb|reflexivity].
      * change (get_sign 100) with false. cbn iota.
        split; [|reflexivity].
        apply Binary64Order.not_ltb_leb; auto.
Qed.

Lemma display_stays_within_percent_witness :
  percentInRange (progressWidth 2.5)
  /\ (barHeight 120 <=? 100)%float = true
  /\ barHeight 37.5 = 37.5%float.
Proof.
  split; [|split].
  - apply (proj1 display_stays_within_percent). split; reflexivity.
  - apply (proj2 display_stays_within_percent 120%float eq_refl).
  - apply (proj2 display_stays_within_percent 37.5%float eq_refl). reflexivity.
Defined.

(** ** The index a timed run draws *)

Module Binary64Floor.
Import Binary64 Binary64Order Binary64Timer.
#[local] Open Scope Z_scope.

(** The round bit after [n + 1] shifts is the last bit shifted out. *)
Lemma shr_iter_round_bit n m :
  0 <= m ->
  shr_r (Nat.iter (S n) shr_1 (Build_shr_record m false false))
  = Z.odd (m / 2 ^ Z.of_nat n).
Proof.
  intros Hm. rewrite Nat.iter_succ.
  destruct (shr_iter_spec n m Hm) as [Hq _].
  destruct (Nat.iter n shr_1 _) as [q r s]. cbn [shr_m] in Hq.
  assert (H : 0 <= q).
  { subst q. apply Z.div_pos; [lia|]. apply Z.pow_pos_nonneg; lia. }
  destruct (shr_1_spec q r s H) as (_ & E2 & _). rewrite E2. now subst q.
Qed.

Lemma below_half_even m n :
  0 <= m -> 0 <= n -> 2 * (m mod 2 ^ (n + 1)) < 2 ^ (n + 1) ->
  Z.odd (m / 2 ^ n) = false.
Proof.
  intros Hm Hn H.
  rewrite (Z.pow_add_r 2 n 1), Z.pow_1_r in H by lia.
  set (P := 2 ^ n) in *.
  assert (HP : 0 < P) by (apply Z.pow_pos_nonneg; lia).
  pose proof (Z.div_mod m (P * 2) ltac:(lia)) as D.
  pose proof (Z.mod_pos_bound m (P * 2) ltac:(lia)) as Bd.
  replace (m / P) with (2 * (m / (P * 2))).
  - now rewrite Z.odd_mul.
  - apply Z.div_unique with (r := m mod (P * 2)); lia.
Qed.

(** A mantissa below the middle of its two neighbours rounds down. *)
Lemma shr_fexp_round_down m e :
  0 <= m ->
  let n := Z.max 0 (fexp64 (Zdigits2 m + e) - e) in
  2 * (m mod 2 ^ n) < 2 ^ n ->
  round_nearest_even
    (shr_m (fst (shr_fexp prec emax m e loc_Exact)))
    (loc_of_shr_record (fst (shr_fexp prec emax m e loc_Exact)))
  = m / 2 ^ n.
Proof.
  intros Hm n. unfold shr_fexp, shr. fold (fexp64 (Zdigits2 m + e)).
  cbn [shr_record_of_loc].
  destruct (fexp64 (Zdigits2 m + e) - e) as [|p|p] eqn:E; subst n;
    cbn [fst shr_m loc_of_shr_record round_nearest_even].
  - intros _. simpl. now rewrite Z.div_1_r.
  - replace (Z.max 0 (Z.pos p)) with (Z.pos p) by lia. intros H.
    rewrite iter_pos_nat.
    destruct (Pos2Nat.is_succ p) as [k Hk]. rewrite Hk.
    assert (Ek : Z.pos p = Z.of_nat k + 1).
    { rewrite <- positive_nat_Z, Hk. lia. }
    destruct (shr_iter_spec (S k) m Hm) as [Hq _].
    pose proof (shr_iter_round_bit k m Hm) as Hr.
    rewrite Ek in H. rewrite (below_half_even m (Z.of_nat k) Hm ltac:(lia) H) in Hr.
    replace (Z.of_nat (S k)) with (Z.pos p) in Hq by lia.
    destruct (Nat.iter (S k) shr_1 _) as [q r s]. cbn [shr_m shr_r] in *.
    subst r. rewrite <- Hq. now destruct s.
  - intros _. simpl. now rewrite Z.div_1_r.
Qed.

(** Rounding of an exact value [mx * 2^ex] of the binade below [2^k]: a
    value below the middle of [c] and [c + 1] units of that binade rounds to
    no more than [c] units. *)
Lemma binary_round_aux_below mx ex k c :
  - scale <= ex <= 971 -> -1021 <= k <= 1000 ->
  0 <= c < 2 ^ 53 ->
  2 ^ (k - 1 + scale) <= Zpos mx * 2 ^ (ex + scale) ->
  2 * (Zpos mx * 2 ^ (ex + scale)) < (2 * c + 1) * 2 ^ (k - 53 + scale) ->
  (binary_round_aux prec emax false (Zpos mx) ex loc_Exact = S754_zero false
   \/ exists m e,
        binary_round_aux prec emax false (Zpos mx) ex loc_Exact
        = S754_finite false m e /\ - scale <= e)
  /\ scaled (binary_round_aux prec emax false (Zpos mx) ex loc_Exact)
     <= c * 2 ^ (k - 53 + scale).
Proof.
  intros He Hk Hc HL HU.
  assert (Q : 0 < 2 ^ (ex + scale)) by (apply Z.pow_pos_nonneg; lia).
  assert (G : 0 < 2 ^ (k - 53 + scale))
    by (apply Z.pow_pos_nonneg; unfold scale; lia).
  assert (K : 2 ^ (k + scale) = 2 ^ 53 * 2 ^ (k - 53 + scale)).
  { replace (k + scale) with (53 + (k - 53 + scale)) by lia.
    apply Z.pow_add_r; [lia|unfold scale; lia]. }
  assert (HX : Zpos mx * 2 ^ (ex + scale) < 2 ^ (k + scale)).
  { rewrite K. nia. }
  assert (Hd : Zdigits2 (Zpos mx) + ex = k).
  { pose proof (scaled_lt_digits mx ex k ltac:(lia) HX) as U.
    cbn [Zdigits2] in *.
    destruct (digits2_pos_bounds mx) as [_ D].
    assert (X : Zpos mx * 2 ^ (ex + scale)
                < 2 ^ (Zpos (digits2_pos mx) + ex + scale)).
    { replace (Zpos (digits2_pos mx) + ex + scale)
        with (Zpos (digits2_pos mx) + (ex + scale)) by lia.
      rewrite (Z.pow_add_r 2 (Zpos (digits2_pos mx)) (ex + scale)) by lia.
      nia. }
    assert (L : k - 1 + scale < Zpos (digits2_pos mx) + ex + scale).
    { apply (Z.pow_lt_mono_r_iff 2); [lia|lia|lia]. }
    lia. }
  assert (Fk : fexp64 k = k - 53) by (rewrite fexp64_eq; lia).
  destruct (shr_fexp_exact (Zpos mx) ex ltac:(lia)) as (Hm & Hs & _).
  pose proof (shr_fexp_round_down (Zpos mx) ex ltac:(lia)) as Hrd.
  pose proof (round_nearest_even_bounds
                (shr_m (fst (shr_fexp prec emax (Zpos mx) ex loc_Exact)))
                (loc_of_shr_record (fst (shr_fexp prec emax (Zpos mx) ex loc_Exact))))
    as Hr.
  cbv zeta in Hm, Hs, Hrd. rewrite Hd, Fk in Hm, Hs, Hrd.
  unfold binary_round_aux.
  destruct (shr_fexp prec emax (Zpos mx) ex loc_Exact) as [rec1 e1].
  cbn [fst snd] in *.
  set (m2 := round_nearest_even (shr_m rec1) (loc_of_shr_record rec1)) in *.
  set (n := Z.max 0 (k - 53 - ex)) in *.
  assert (Hn : 0 <= n) by (subst n; lia).
  assert (N : 0 < 2 ^ n) by (apply Z.pow_pos_nonneg; lia).
  assert (E1 : 2 ^ (e1 + scale) = 2 ^ n * 2 ^ (ex + scale)).
  { rewrite Hs, <- Z.pow_add_r by lia. f_equal. lia. }
  assert (P1 : 0 < 2 ^ (e1 + scale)) by (apply Z.pow_pos_nonneg; lia).
  assert (Hm1 : 0 <= shr_m rec1) by (rewrite Hm; apply Z.div_pos; lia).
  assert (B2 : 0 <= m2 /\ m2 * 2 ^ (e1 + scale) <= c * 2 ^ (k - 53 + scale)).
  { split; [lia|].
    destruct (Z.eq_dec n 0) as [Z0|NZ].
    - (* nothing is shifted out: the value is a whole number of units *)
      rewrite Z0 in *. rewrite Z.pow_0_r, Z.div_1_r, Z.mod_1_r in *.
      rewrite Hrd by lia. replace e1 with ex by lia.
      assert (A : 2 ^ (ex + scale)
                  = 2 ^ (ex - (k - 53)) * 2 ^ (k - 53 + scale)).
      { rewrite <- Z.pow_add_r by (unfold scale; lia). f_equal. lia. }
      assert (0 < 2 ^ (ex - (k - 53))) by (apply Z.pow_pos_nonneg; lia).
      rewrite A in HU |- *.
      set (a := 2 ^ (ex - (k - 53))) in *. set (g := 2 ^ (k - 53 + scale)) in *.
      assert (Zpos mx * a <= c) by nia. nia.
    - (* a shift by [n > 0] to the unit of the binade *)
      assert (Eg : 2 ^ (k - 53 + scale) = 2 ^ n * 2 ^ (ex + scale)).
      { rewrite <- E1. f_equal. lia. }
      rewrite E1. rewrite Eg in HU |- *.
      pose proof (Z.div_mod (Zpos mx) (2 ^ n) ltac:(lia)) as Dm.
      pose proof (Z.mod_pos_bound (Zpos mx) (2 ^ n) N) as Bm.
      set (q := 2 ^ (ex + scale)) in *. set (p := 2 ^ n) in *.
      assert (M : 2 * Zpos mx < (2 * c + 1) * p) by nia.
      assert (C1 : shr_m rec1 <= c) by (rewrite Hm; nia).
      assert (C2 : m2 <= c).
      { destruct (Z.eq_dec (shr_m rec1) c) as [Ec|Nc]; [|lia].
        rewrite Hrd; [lia|]. rewrite Hm in Ec. nia. }
      nia. }
  destruct B2 as [M0 M2].
  assert (M3 : m2 * 2 ^ (e1 + scale) < 2 ^ (k + scale)) by (rewrite K; nia).
  destruct m2 as [|p2|p2] eqn:E2; [| |lia].
  - destruct (shr_fexp_exact 0 e1 ltac:(lia)) as (Hq & _ & _).
    destruct (shr_fexp prec emax 0 e1 loc_Exact) as [rec2 e2].
    cbn [fst] in Hq. rewrite Hq, Z.div_0_l.
    + cbn [scaled]. split; [now left|]. nia.
    + apply Z.pow_nonzero; lia.
  - destruct (shr_fexp_bounds p2 e1 k ltac:(lia) M3)
      as (Hm3 & He3 & He3' & Hfl3 & _ & _).
    destruct (shr_fexp prec emax (Zpos p2) e1 loc_Exact) as [rec3 e3].
    cbn [fst snd] in *.
    destruct (shr_m rec3) as [|m3|m3] eqn:E3; [| |lia].
    + cbn [scaled]. split; [now left|]. nia.
    + replace (e3 <=? emax - prec) with true
        by (symmetry; apply Z.leb_le; unfold emax, prec; lia).
      cbn [scaled]. split; [right; exists m3, e3; split; [reflexivity|lia]|]. lia.
Qed.

(** An array length read as a number is that number. *)
Lemma number_scaled n :
  (1 <= n)%nat -> Z.of_nat n < 2 ^ 32 ->
  exists m e,
    Prim2SF (JS.number_of_nat n) = S754_finite false m e
    /\ - scale <= e
    /\ Zpos m * 2 ^ (e + scale) = Z.of_nat n * 2 ^ scale.
Proof.
  intros H1 H32. unfold JS.number_of_nat.
  rewrite of_uint63_spec, Uint63.of_Z_spec.
  rewrite Z.mod_small
    by (split; [lia|]; change Uint63Axioms.wB with (2 ^ 63);
        change (2 ^ 63) with (2 ^ 32 * 2 ^ 31); lia).
  assert (T : 0 < 2 ^ scale) by (apply Z.pow_pos_nonneg; unfold scale; lia).
  destruct (Z.of_nat n) as [|p|p] eqn:E; try lia.
  cbn [binary_normalize].
  destruct (binary_round_bounds p 0 32 (Zpos p * 2 ^ scale) (Zpos p * 2 ^ scale))
    as [F B].
  - unfold scale. lia.
  - lia.
  - change (0 + scale) with scale. rewrite (pow2_scale 32) by lia. nia.
  - change (fexp64 (32 + 1)) with (- (20)). apply aligned_scale. lia.
  - change (fexp64 (32 + 1)) with (- (20)). apply aligned_scale. lia.
  - change (0 + scale) with scale. lia.
  - destruct F as [F|(m & e & F & Fe)]; rewrite F in B |- *; cbn [scaled] in B.
    + exfalso. nia.
    + exists m, e. repeat split; [exact Fe|lia].
Qed.

(** A draw below 1 is at most the largest number below 1. *)
Lemma draw_below r :
  (0 <=? r)%float = true -> (r <? 1)%float = true ->
  nonnegFinite (Prim2SF r)
  /\ scaled (Prim2SF r) <= 2 ^ scale - 2 ^ (scale - 53).
Proof.
  intros H0 H1. destruct (draw_scaled r H0 H1) as [N S].
  split; [exact N|].
  pose proof (Prim2SF_valid r) as V.
  assert (W : 0 < 2 ^ (scale - 54)) by (apply Z.pow_pos_nonneg; unfold scale; lia).
  assert (U : 2 ^ (scale - 53) = 2 * 2 ^ (scale - 54)).
  { replace (scale - 53) with (Z.succ (scale - 54)) by lia.
    apply Z.pow_succ_r. unfold scale. lia. }
  assert (T : 2 ^ scale = 2 ^ 53 * 2 ^ (scale - 53)).
  { replace scale with (53 + (scale - 53)) at 1 by lia.
    apply Z.pow_add_r; [lia|unfold scale; lia]. }
  destruct (Prim2SF r) as [s|s| |[|] m e]; try contradiction; cbn [scaled] in *.
  - rewrite T, U. change (2 ^ 53) with 9007199254740992. lia.
  - destruct (valid_finite _ _ _ V) as (E & M & _).
    destruct (Z.le_gt_cases (-53) e) as [L|L].
    + assert (A : 2 ^ (e + scale) = 2 ^ (e + 53) * 2 ^ (scale - 53)).
      { rewrite <- Z.pow_add_r by (unfold scale; lia). f_equal. lia. }
      rewrite A in S |- *. rewrite T in S |- *.
      assert (0 < 2 ^ (e + 53)) by (apply Z.pow_pos_nonneg; lia).
      set (a := 2 ^ (e + 53)) in *. set (u := 2 ^ (scale - 53)) in *.
      assert (0 < u) by lia.
      assert (Zpos m * a < 2 ^ 53) by nia. nia.
    + assert (A : 2 ^ (e + scale) <= 2 ^ (scale - 54))
        by (apply Z.pow_le_mono_r; unfold scale; lia).
      rewrite T, U. change (2 ^ 53) with 9007199254740992 in *.
      assert (0 < 2 ^ (e + scale)) by (apply Z.pow_pos_nonneg; unfold scale; lia).
      nia.
Qed.

(** The floor of a value below [n]. *)
Lemma floor_below m e n :
  - scale <= e -> Zpos m * 2 ^ (e + scale) < n * 2 ^ scale ->
  0 <= Z.shiftl (Zpos m) e < n.
Proof.
  intros He H.
  assert (T : 0 < 2 ^ scale) by (apply Z.pow_pos_nonneg; unfold scale; lia).
  destruct (Z.le_gt_cases 0 e) as [L|L].
  - rewrite Z.shiftl_mul_pow2 by lia.
    rewrite (Z.pow_add_r 2 e scale) in H by (unfold scale; lia).
    assert (0 < 2 ^ e) by (apply Z.pow_pos_nonneg; lia). nia.
  - rewrite Z.shiftl_div_pow2 by lia.
    assert (P : 0 < 2 ^ (- e)) by (apply Z.pow_pos_nonneg; lia).
    assert (A : 2 ^ scale = 2 ^ (- e) * 2 ^ (e + scale)).
    { rewrite <- Z.pow_add_r by lia. f_equal. lia. }
    assert (Q : 0 < 2 ^ (e + scale)) by (apply Z.pow_pos_nonneg; lia).
    rewrite A in H. split.
    + apply Z.div_pos; lia.
    + apply Z.div_lt_upper_bound; [lia|]. nia.
Qed.

(** A draw below 1 times an array length rounds to a value below the
    length. *)
Lemma draw_times_length r n :
  (0 <=? r)%float = true -> (r <? 1)%float = true ->
  (1 <= n)%nat -> Z.of_nat n < 2 ^ 32 ->
  (exists s, Prim2SF (r * JS.number_of_nat n)%float = S754_zero s)
  \/ exists m e,
       Prim2SF (r * JS.number_of_nat n)%float = S754_finite false m e
       /\ - scale <= e
       /\ Zpos m * 2 ^ (e + scale) < Z.of_nat n * 2 ^ scale.
Proof.
  intros H0 H1 Hn H32.
  destruct (draw_below r H0 H1) as [N R].
  destruct (number_scaled n Hn H32) as (mn & en & EN & Een & VN).
  pose proof (Prim2SF_valid r) as V.
  pose proof (Prim2SF_valid (JS.number_of_nat n)) as VNv. rewrite EN in VNv.
  destruct (valid_finite _ _ _ VNv) as (En & Mn & _).
  rewrite mul_spec, EN. unfold SF64mul.
  destruct (Prim2SF r) as [s|s| |[|] m e]; try contradiction; cbn [SFmul].
  - left. now eexists.
  - cbn [xorb]. cbn [scaled] in R.
    destruct (valid_finite _ _ _ V) as (E & M & _).
    set (k := Z.log2_up (Z.of_nat n)).
    assert (Hk : 0 <= k <= 32 /\ Z.of_nat n <= 2 ^ k /\ 2 ^ k < 2 * Z.of_nat n).
    { subst k. destruct (Z.eq_dec (Z.of_nat n) 1) as [->|N1].
      - cbn. lia.
      - pose proof (Z.log2_up_spec (Z.of_nat n) ltac:(lia)) as [A B].
        pose proof (Z.log2_up_nonneg (Z.of_nat n)).
        assert (0 < Z.log2_up (Z.of_nat n))
          by (apply Z.log2_up_pos; lia).
        split; [split; [lia|]|split; [exact B|]].
        + destruct (Z.le_gt_cases (Z.log2_up (Z.of_nat n)) 32) as [|G]; [assumption|].
          exfalso.
          assert (2 ^ 32 <= 2 ^ Z.pred (Z.log2_up (Z.of_nat n)))
            by (apply Z.pow_le_mono_r; lia).
          lia.
        + replace (Z.log2_up (Z.of_nat n))
            with (Z.succ (Z.pred (Z.log2_up (Z.of_nat n)))) at 1 by lia.
          rewrite Z.pow_succ_r by lia. lia. }
    destruct Hk as (K0 & KU & KL).
    assert (T : 0 < 2 ^ scale) by (apply Z.pow_pos_nonneg; unfold scale; lia).
    assert (Len : 0 - 53 < en).
    { apply (exp_lower mn); [exact Mn|unfold scale; lia|unfold scale; lia|].
      change (0 + scale) with scale. rewrite VN. nia. }
    assert (Uen : en < 32).
    { apply (exp_upper mn); [unfold scale; lia|].
      rewrite VN, (pow2_scale 32) by lia. nia. }
    assert (Ue : e < 0).
    { apply (exp_upper m); [unfold scale; lia|].
      change (0 + scale) with scale.
      assert (0 < 2 ^ (scale - 53)) by (apply Z.pow_pos_nonneg; unfold scale; lia).
      lia. }
    (* the exact product, in units *)
    assert (X : Zpos (m * mn) * 2 ^ (e + en + scale) * 2 ^ scale
                = (Zpos m * 2 ^ (e + scale)) * (Zpos mn * 2 ^ (en + scale))).
    { rewrite Pos2Z.inj_mul. rewrite <- !Z.mul_assoc. f_equal.
      rewrite (Z.mul_comm (2 ^ (e + scale))), <- !Z.mul_assoc. f_equal.
      rewrite <- !Z.pow_add_r by (unfold scale; lia). f_equal. lia. }
    rewrite VN in X.
    assert (X' : Zpos (m * mn) * 2 ^ (e + en + scale)
                 = Z.of_nat n * (Zpos m * 2 ^ (e + scale))) by nia.
    clear X.
    (* the units of the binade of the length *)
    assert (G : 0 < 2 ^ (k - 53 + scale))
      by (apply Z.pow_pos_nonneg; unfold scale; lia).
    assert (W : 0 < 2 ^ (scale - 54))
      by (apply Z.pow_pos_nonneg; unfold scale; lia).
    assert (S53 : 2 ^ (scale - 53) = 2 * 2 ^ (scale - 54)).
    { replace (scale - 53) with (Z.succ (scale - 54)) by lia.
      apply Z.pow_succ_r. unfold scale. lia. }
    assert (Sg : 2 ^ (k - 53 + scale) = 2 ^ k * (2 * 2 ^ (scale - 54))).
    { rewrite <- S53, <- Z.pow_add_r by (unfold scale; lia). f_equal. lia. }
    assert (Ss : 2 ^ scale = 2 ^ 54 * 2 ^ (scale - 54)).
    { replace scale with (54 + (scale - 54)) at 1 by lia.
      apply Z.pow_add_r; [lia|unfold scale; lia]. }
    assert (Sk : 2 ^ 53 = 2 ^ (53 - k) * 2 ^ k).
    { rewrite <- Z.pow_add_r by lia. f_equal. lia. }
    assert (Pk : 0 < 2 ^ k) by (apply Z.pow_pos_nonneg; lia).
    assert (Pk' : 0 < 2 ^ (53 - k)) by (apply Z.pow_pos_nonneg; lia).
    set (x := Zpos (m * mn) * 2 ^ (e + en + scale)) in *.
    assert (XU : x <= Z.of_nat n * 2 ^ scale - Z.of_nat n * 2 ^ (scale - 53)).
    { subst x. rewrite X', <- Z.mul_sub_distr_l.
      apply Z.mul_le_mono_nonneg_l; lia. }
    set (c := Z.of_nat n * 2 ^ (53 - k) - 1).
    assert (Cg : c * 2 ^ (k - 53 + scale)
                 = Z.of_nat n * 2 ^ scale - 2 ^ (k - 53 + scale)).
    { subst c. rewrite Z.mul_sub_distr_r. f_equal; [|lia].
      rewrite <- Z.mul_assoc, <- Z.pow_add_r by (unfold scale; lia).
      do 2 f_equal. lia. }
    destruct (Z.lt_ge_cases x (2 ^ (k - 1 + scale))) as [Lo|Hi].
    + (* a binade below that of the length *)
      destruct (binary_round_aux_bounds (m * mn) (e + en) (k - 1)
                  0 (2 ^ (k - 1 + scale))) as [F B].
      * unfold scale. lia.
      * lia.
      * exact Lo.
      * apply Z.divide_0_r.
      * apply pow2_divide. rewrite fexp64_eq. unfold scale. lia.
      * fold x. subst x. split; [|lia].
        assert (0 < 2 ^ (e + en + scale))
          by (apply Z.pow_pos_nonneg; unfold scale; lia). lia.
      * assert (Half : 2 * 2 ^ (k - 1 + scale) = 2 ^ k * 2 ^ scale).
        { rewrite <- Z.pow_succ_r, <- Z.pow_add_r by (unfold scale; lia).
          f_equal. lia. }
        destruct F as [F|(m' & e' & F & Fe)]; rewrite F in B |- *;
          cbn [scaled] in B.
        -- left. now eexists.
        -- right. exists m', e'. repeat split; [exact Fe|].
           assert (2 ^ k * 2 ^ scale < (2 * Z.of_nat n) * 2 ^ scale)
             by (apply Z.mul_lt_mono_pos_r; [exact T|exact KL]).
           lia.
    + (* the binade of the length: the product lies below the middle of
         the length and the number before it *)
      destruct (binary_round_aux_below (m * mn) (e + en) k c) as [F B].
      * unfold scale. lia.
      * lia.
      * subst c. rewrite Sk.
        assert (Z.of_nat n * 2 ^ (53 - k) <= 2 ^ k * 2 ^ (53 - k))
          by (apply Z.mul_le_mono_nonneg_r; lia).
        assert (1 * 2 ^ (53 - k) <= Z.of_nat n * 2 ^ (53 - k))
          by (apply Z.mul_le_mono_nonneg_r; lia).
        lia.
      * exact Hi.
      * fold x. replace ((2 * c + 1) * 2 ^ (k - 53 + scale))
          with (2 * (c * 2 ^ (k - 53 + scale)) + 2 ^ (k - 53 + scale)) by lia.
        rewrite Cg, Sg. rewrite S53 in XU.
        assert (2 ^ k * 2 ^ (scale - 54) < (2 * Z.of_nat n) * 2 ^ (scale - 54))
          by (apply Z.mul_lt_mono_pos_r; [exact W|exact KL]).
        lia.
      * rewrite Cg in B.
        destruct F as [F|(m' & e' & F & Fe)]; rewrite F in B |- *;
          cbn [scaled] in B.
        -- left. now eexists.
        -- right. exists m', e'. repeat split; [exact Fe|]. lia.
Qed.

End Binary64Floor.

(** X13.  The index [runSimulation] draws is inside the array: for every draw of
    [Math.random()], at least 0 and below 1, and every array of 1 to 2^32 - 1
    records, [Math.floor(random * length)] is an index below the length; hence a
    timed run never reads a record that is not there. *)
Theorem runSimulation_index_inside_array :
  (forall r n,
      (0 <=? r)%float = true -> (r <? 1)%float = true ->
      1 <= n -> (Z.of_nat n < 2 ^ 32)%Z ->
      exists i, runSimulation_funcIndex r n = Some i /\ i < n)
  /\ (forall startClock endClock round draw st,
      1 <= List.length (Real.functions st) ->
      (Z.of_nat (List.length (Real.functions st)) < 2 ^ 32)%Z ->
      (forall i, i < 30 ->
         (0 <=? draw i)%float = true /\ (draw i <? 1)%float = true
         /\ runSimulation_funcIndex (draw i) (List.length (Real.functions st))
            = Some (snd (fst (round i)))) ->
      exists st', Real_runSimulation startClock endClock round st = Some st')
  /\ (forall startClock endClock round draw st,
      1 <= List.length (Simulated.functions st) ->
      (Z.of_nat (List.length (Simulated.functions st)) < 2 ^ 32)%Z ->
      (forall i, i < 30 ->
         (0 <=? draw i)%float = true /\ (draw i <? 1)%float = true
         /\ runSimulation_funcIndex (draw i) (List.length (Simulated.functions st))
            = Some (snd (fst (round i)))) ->
      exists st', Simulated_runSimulation startClock endClock round st = Some st').
Proof.
  assert (Idx : forall r n,
      (0 <=? r)%float = true -> (r <? 1)%float = true ->
      1 <= n -> (Z.of_nat n < 2 ^ 32)%Z ->
      exists i, runSimulation_funcIndex r n = Some i /\ i < n).
  { intros r n H0 H1 Hn H32. unfold runSimulation_funcIndex, Math_floor.
    destruct (Binary64Floor.draw_times_length r n H0 H1 Hn H32)
      as [[s ->]|(m & e & -> & He & Hv)].
    - exists 0. split; [reflexivity|lia].
    - cbn [cond_Zopp].
      destruct (Binary64Floor.floor_below m e (Z.of_nat n) He Hv) as [L U].
      replace (0 <=? Z.shiftl (Z.pos m) e)%Z with true
        by (symmetry; now apply Z.leb_le).
      eexists. split; [reflexivity|lia]. }
  split; [exact Idx|split].
  - intros startClock endClock round draw st Hn H32 Hr.
    unfold Real_runSimulation. apply RealFacts.run_total.
    constructor; [exact I|]. apply Forall_app. split.
    + apply Forall_forall. intros ev Hin.
      apply in_map_iff in Hin. destruct Hin as (i & <- & Hi).
      apply in_seq in Hi. destruct (Hr i ltac:(lia)) as (H0 & H1 & E).
      destruct (Idx _ _ H0 H1 Hn H32) as (j & Ej & Hj).
      rewrite E in Ej. injection Ej as <-.
      destruct (round i) as [[clock k] t]. exact Hj.
    + repeat constructor.
  - intros startClock endClock round draw st Hn H32 Hr.
    unfold Simulated_runSimulation. apply SimulatedFacts.sim_run_total.
    constructor; [exact I|]. apply Forall_app. split.
    + apply Forall_forall. intros ev Hin.
      apply in_map_iff in Hin. destruct Hin as (i & <- & Hi).
      apply in_seq in Hi. destruct (Hr i ltac:(lia)) as (H0 & H1 & E).
      destruct (Idx _ _ H0 H1 Hn H32) as (j & Ej & Hj).
      rewrite E in Ej. injection Ej as <-.
      destruct (round i) as [[clock k] t]. exact Hj.
    + repeat constructor.
Qed.

Lemma runSimulation_index_inside_array_witness :
  exists i, runSimulation_funcIndex 0x1.fffffffffffffp-1 3 = Some i /\ i < 3.
Proof.
  apply (proj1 runSimulation_index_inside_array);
    [reflexivity|reflexivity|lia|reflexivity].
Defined.

(** ** The lines a sample logs *)









(** ** The measured functions: whole numbers in binary64 *)

Module Binary64Integers.
Import Binary64.
#[local] Open Scope Z_scope.

Lemma scale_pos : 0 < 2 ^ scale.
Proof. apply Z.pow_pos_nonneg; unfold scale; lia. Qed.

(** A binary64 number is determined by its value. *)
Lemma finite_inj m1 e1 m2 e2 :
  valid_binary (S754_finite false m1 e1) = true ->
  valid_binary (S754_finite false m2 e2) = true ->
  Zpos m1 * 2 ^ (e1 + scale) = Zpos m2 * 2 ^ (e2 + scale) ->
  m1 = m2 /\ e1 = e2.
Proof.
  intros V1 V2 H.
  destruct (valid_finite _ _ _ V1) as (E1 & U1 & L1).
  destruct (valid_finite _ _ _ V2) as (E2 & U2 & L2).
  assert (P1 : 0 < 2 ^ (e1 + scale)) by (apply Z.pow_pos_nonneg; unfold scale; lia).
  assert (P2 : 0 < 2 ^ (e2 + scale)) by (apply Z.pow_pos_nonneg; unfold scale; lia).
  change (2 ^ 53) with (2 * 2 ^ 52) in U1, U2.
  destruct (Z.lt_trichotomy e1 e2) as [L|[E|G]].
  - exfalso. specialize (L2 ltac:(lia)).
    pose proof (pow2_step (e1 + scale) (e2 + scale)
                  ltac:(unfold scale; lia) ltac:(lia)). nia.
  - subst e2. split; [|reflexivity].
    assert (Zpos m1 = Zpos m2) by nia. congruence.
  - exfalso. specialize (L1 ltac:(lia)).
    pose proof (pow2_step (e2 + scale) (e1 + scale)
                  ltac:(unfold scale; lia) ltac:(lia)). nia.
Qed.

Lemma represents_inj x y z : represents x z -> represents y z -> x = y.
Proof.
  unfold represents. intros Hx Hy.
  pose proof (Prim2SF_valid x) as Vx. pose proof (Prim2SF_valid y) as Vy.
  pose proof scale_pos as T.
  rewrite <- (SF2Prim_Prim2SF x), <- (SF2Prim_Prim2SF y). f_equal.
  destruct (Prim2SF x) as [[|]|sx| |[|] mx ex]; try contradiction;
    destruct (Prim2SF y) as [[|]|sy| |[|] my ey]; try contradiction.
  - reflexivity.
  - exfalso. subst z. destruct (valid_finite _ _ _ Vy) as (E & _ & _).
    assert (0 < 2 ^ (ey + scale)) by (apply Z.pow_pos_nonneg; unfold scale; lia).
    nia.
  - exfalso. subst z. destruct (valid_finite _ _ _ Vx) as (E & _ & _).
    assert (0 < 2 ^ (ex + scale)) by (apply Z.pow_pos_nonneg; unfold scale; lia).
    nia.
  - destruct (finite_inj mx ex my ey Vx Vy) as [-> ->]; [lia|reflexivity].
Qed.

Lemma represents_nonneg x z : represents x z -> 0 <= z.
Proof.
  unfold represents. pose proof scale_pos as T.
  pose proof (Prim2SF_valid x) as V.
  destruct (Prim2SF x) as [[|]|sx| |[|] mx ex]; try contradiction.
  - lia.
  - destruct (valid_finite _ _ _ V) as (E & _ & _).
    assert (0 < 2 ^ (ex + scale)) by (apply Z.pow_pos_nonneg; unfold scale; lia).
    nia.
Qed.

(** What [binary_normalize] makes of an integer below 2^52, counted at any
    exponent. *)
Lemma normalize_represents m e z :
  - scale <= e <= 971 -> 0 <= z < 2 ^ 52 ->
  m * 2 ^ (e + scale) = z * 2 ^ scale ->
  match binary_normalize prec emax m e false with
  | S754_zero false => z = 0
  | S754_finite false m' e' => Zpos m' * 2 ^ (e' + scale) = z * 2 ^ scale
  | _ => False
  end.
Proof.
  intros He Hz H. pose proof scale_pos as T.
  assert (Q : 0 < 2 ^ (e + scale)) by (apply Z.pow_pos_nonneg; lia).
  destruct m as [|p|p]; cbn [binary_normalize].
  - nia.
  - destruct (binary_round_bounds p e 52 (z * 2 ^ scale) (z * 2 ^ scale))
      as [F B].
    + exact He.
    + lia.
    + rewrite H, (pow2_scale 52) by lia. nia.
    + change (fexp64 (52 + 1)) with (- 0). apply aligned_scale. lia.
    + change (fexp64 (52 + 1)) with (- 0). apply aligned_scale. lia.
    + lia.
    + destruct F as [F|(m' & e' & F & Fe)]; rewrite F in B |- *;
        cbn [scaled] in B.
      * nia.
      * lia.
  - exfalso. nia.
Qed.

Lemma represents_number z : 0 <= z < 2 ^ 52 -> represents (number_of_Z z) z.
Proof.
  intros Hz. unfold represents, number_of_Z.
  rewrite of_uint63_spec, Uint63.of_Z_spec.
  rewrite Z.mod_small
    by (split; [lia|]; change Uint63Axioms.wB with (2 ^ 63);
        change (2 ^ 63) with (2 ^ 52 * 2 ^ 11); lia).
  apply normalize_represents; [unfold scale; lia|exact Hz|].
  change (0 + scale) with scale. reflexivity.
Qed.

(** Integers add without error below 2^52. *)
Lemma represents_add a b za zb :
  represents a za -> represents b zb -> za + zb < 2 ^ 52 ->
  represents (a + b)%float (za + zb).
Proof.
  intros Ha Hb Hs.
  pose proof (represents_nonneg a za Ha) as Na.
  pose proof (represents_nonneg b zb Hb) as Nb.
  pose proof (Prim2SF_valid a) as Va. pose proof (Prim2SF_valid b) as Vb.
  revert Ha Hb. unfold represents. rewrite add_spec. unfold SF64add.
  destruct (Prim2SF a) as [[|]|sa| |[|] ma ea]; try contradiction;
    destruct (Prim2SF b) as [[|]|sb| |[|] mb eb]; try contradiction;
    cbn [SFadd].
  - lia.
  - intros -> H. now rewrite Z.add_0_l.
  - intros H ->. now rewrite Z.add_0_r.
  - intros Ha Hb.
    destruct (valid_finite _ _ _ Va) as (Ea & _ & _).
    destruct (valid_finite _ _ _ Vb) as (Eb & _ & _).
    cbn [cond_Zopp].
    destruct (shl_align_spec ma ea (Z.min ea eb)) as [_ A1];
      [unfold scale; lia | unfold scale; lia |].
    destruct (shl_align_spec mb eb (Z.min ea eb)) as [_ A2];
      [unfold scale; lia | unfold scale; lia |].
    replace (Z.min ea (Z.min ea eb)) with (Z.min ea eb) in A1 by lia.
    replace (Z.min eb (Z.min ea eb)) with (Z.min ea eb) in A2 by lia.
    apply normalize_represents; [unfold scale; lia|lia|].
    rewrite Z.mul_add_distr_r, A1, A2. lia.
Qed.

(** Integers subtract without error. *)
Lemma represents_sub a b za zb :
  represents a za -> represents b zb -> zb <= za < 2 ^ 52 ->
  represents (a - b)%float (za - zb).
Proof.
  intros Ha Hb Hs.
  pose proof (represents_nonneg a za Ha) as Na.
  pose proof (represents_nonneg b zb Hb) as Nb.
  pose proof (Prim2SF_valid a) as Va. pose proof (Prim2SF_valid b) as Vb.
  pose proof scale_pos as T.
  revert Ha Hb. unfold represents. rewrite sub_spec. unfold SF64sub.
  destruct (Prim2SF a) as [[|]|sa| |[|] ma ea]; try contradiction;
    destruct (Prim2SF b) as [[|]|sb| |[|] mb eb]; try contradiction;
    cbn [SFsub].
  - lia.
  - intros -> H. exfalso.
    destruct (valid_finite _ _ _ Vb) as (Eb & _ & _).
    assert (0 < 2 ^ (eb + scale)) by (apply Z.pow_pos_nonneg; unfold scale; lia).
    nia.
  - intros H ->. now rewrite Z.sub_0_r.
  - intros Ha Hb.
    destruct (valid_finite _ _ _ Va) as (Ea & _ & _).
    destruct (valid_finite _ _ _ Vb) as (Eb & _ & _).
    cbn [cond_Zopp].
    destruct (shl_align_spec ma ea (Z.min ea eb)) as [_ A1];
      [unfold scale; lia | unfold scale; lia |].
    destruct (shl_align_spec mb eb (Z.min ea eb)) as [_ A2];
      [unfold scale; lia | unfold scale; lia |].
    replace (Z.min ea (Z.min ea eb)) with (Z.min ea eb) in A1 by lia.
    replace (Z.min eb (Z.min ea eb)) with (Z.min ea eb) in A2 by lia.
    apply normalize_represents; [unfold scale; lia|lia|].
    rewrite Z.mul_sub_distr_r, A1, A2. lia.
Qed.

(** Integers compare as they are. *)
Lemma represents_leb a b za zb :
  represents a za -> represents b zb -> (a <=? b)%float = (za <=? zb).
Proof.
  intros Ha Hb.
  pose proof (Prim2SF_valid a) as Va. pose proof (Prim2SF_valid b) as Vb.
  pose proof scale_pos as T.
  assert (Sa : nonnegFinite (Prim2SF a) /\ scaled (Prim2SF a) = za * 2 ^ scale).
  { revert Ha. unfold represents.
    destruct (Prim2SF a) as [[|]|sa| |[|] ma ea]; try contradiction; cbn.
    - intros ->. split; [exact I|reflexivity].
    - intros H. split; [exact I|exact H]. }
  assert (Sb : nonnegFinite (Prim2SF b) /\ scaled (Prim2SF b) = zb * 2 ^ scale).
  { revert Hb. unfold represents.
    destruct (Prim2SF b) as [[|]|sb| |[|] mb eb]; try contradiction; cbn.
    - intros ->. split; [exact I|reflexivity].
    - intros H. split; [exact I|exact H]. }
  destruct Sa as [Na Sa], Sb as [Nb Sb].
  rewrite leb_spec.
  destruct (Z.leb_spec za zb) as [L|G].
  - apply scaled_SFleb; auto. nia.
  - destruct (SFleb (Prim2SF a) (Prim2SF b)) eqn:E; [exfalso|reflexivity].
    apply Binary64Order.SFleb_scaled in E; auto. nia.
Qed.

End Binary64Integers.

Lemma Fib_step n : Fib (S (S n)) = (Fib (S n) + Fib n)%Z.
Proof.
  unfold Fib. cbn [Fib_pair]. destruct (Fib_pair n) as [a b]. cbn. lia.
Qed.

Lemma Fib_bound n : n <= 76 -> (0 <= Fib n < 2 ^ 52)%Z.
Proof.
  intros H.
  do 77 (destruct n as [|n]; [vm_compute; split; congruence|]). lia.
Qed.

Lemma fibonacci_of_nat fuel : forall n,
  n < fuel -> n <= 76 ->
  fibonacci fuel (number_of_Z (Z.of_nat n)) = Some (number_of_Z (Fib n)).
Proof.
  induction fuel as [|fuel IH]; intros n Hf Hn; [lia|].
  cbn [fibonacci].
  assert (Rn : represents (number_of_Z (Z.of_nat n)) (Z.of_nat n)).
  { apply Binary64Integers.represents_number.
    split; [lia|]. change (2 ^ 52)%Z with 4503599627370496%Z. lia. }
  assert (R1 : represents 1 1) by (apply (Binary64Integers.represents_number 1); lia).
  assert (R2 : represents 2 2) by (apply (Binary64Integers.represents_number 2); lia).
  rewrite (Binary64Integers.represents_leb _ _ _ _ Rn R1).
  destruct (Z.leb_spec (Z.of_nat n) 1) as [L|G].
  - destruct n as [|[|n]]; [reflexivity|reflexivity|lia].
  - destruct n as [|[|n]]; [lia|lia|].
    assert (E1 : (number_of_Z (Z.of_nat (S (S n))) - 1)%float
                 = number_of_Z (Z.of_nat (S n))).
    { eapply Binary64Integers.represents_inj.
      - apply (Binary64Integers.represents_sub _ _ _ _ Rn R1).
        change (2 ^ 52)%Z with 4503599627370496%Z. lia.
      - replace (Z.of_nat (S (S n)) - 1)%Z with (Z.of_nat (S n)) by lia.
        apply Binary64Integers.represents_number.
        change (2 ^ 52)%Z with 4503599627370496%Z. lia. }
    assert (E2 : (number_of_Z (Z.of_nat (S (S n))) - 2)%float
                 = number_of_Z (Z.of_nat n)).
    { eapply Binary64Integers.represents_inj.
      - apply (Binary64Integers.represents_sub _ _ _ _ Rn R2).
        change (2 ^ 52)%Z with 4503599627370496%Z. lia.
      - replace (Z.of_nat (S (S n)) - 2)%Z with (Z.of_nat n) by lia.
        apply Binary64Integers.represents_number.
        change (2 ^ 52)%Z with 4503599627370496%Z. lia. }
    rewrite E1, E2, (IH (S n)), (IH n) by lia.
    f_equal. rewrite Fib_step.
    pose proof (Fib_bound (S (S n)) Hn) as B. rewrite Fib_step in B.
    pose proof (Fib_bound (S n) ltac:(lia)) as B1.
    pose proof (Fib_bound n ltac:(lia)) as B0.
    eapply Binary64Integers.represents_inj.
    + apply Binary64Integers.represents_add;
        [apply Binary64Integers.represents_number; exact B1
        |apply Binary64Integers.represents_number; exact B0|lia].
    + apply Binary64Integers.represents_number. lia.
Qed.

Lemma fibonacci_nan fuel : fibonacci fuel nan = None.
Proof.
  induction fuel as [|fuel IH]; [reflexivity|].
  cbn [fibonacci]. change (nan <=? 1)%float with false.
  change (nan - 1)%float with nan. now rewrite IH.
Qed.

(** More fuel does not change a result. *)
Lemma fibonacci_fuel fuel : forall n v,
  fibonacci fuel n = Some v -> fibonacci (S fuel) n = Some v.
Proof.
  induction fuel as [|fuel IH]; intros n v; [discriminate|].
  intros H. cbn [fibonacci] in H.
  change (fibonacci (S (S fuel)) n)
    with (if (n <=? 1)%float then Some n
          else match fibonacci (S fuel) (n - 1)%float,
                     fibonacci (S fuel) (n - 2)%float with
               | Some a, Some b => Some (a + b)%float
               | _, _ => None
               end).
  destruct (n <=? 1)%float; [exact H|].
  destruct (fibonacci fuel (n - 1)%float) as [a|] eqn:Ea; [|discriminate].
  destruct (fibonacci fuel (n - 2)%float) as [b|] eqn:Eb; [|discriminate].
  now rewrite (IH _ _ Ea), (IH _ _ Eb).
Qed.

(** X15.  [fibonacci] computes the Fibonacci numbers, without rounding: for
    every whole number [n] from 0 to 76 and fuel for [n + 1] nested calls the
    result is the [n]-th Fibonacci number, 832040 for the 30 of the page; a
    result does not depend on the fuel; on NaN the recursion never ends. *)
Theorem fibonacci_exact :
  (forall n fuel,
      n <= 76 -> n < fuel ->
      fibonacci fuel (number_of_Z (Z.of_nat n)) = Some (number_of_Z (Fib n)))
  /\ (forall n, Fib (S (S n)) = (Fib (S n) + Fib n)%Z)
  /\ Fib 0 = 0%Z /\ Fib 1 = 1%Z
  /\ (forall fuel fuel' n v,
      fibonacci fuel n = Some v -> fuel <= fuel' -> fibonacci fuel' n = Some v)
  /\ (forall fuel, fibonacci fuel nan = None)
  /\ fibonacci 31 30 = Some 832040%float.
Proof.
  split; [|split; [|split; [|split; [|split; [|split]]]]].
  - intros n fuel Hn Hf. now apply fibonacci_of_nat.
  - exact Fib_step.
  - reflexivity.
  - reflexivity.
  - intros fuel fuel' n v H L. induction L as [|k L IH]; [exact H|].
    now apply fibonacci_fuel.
  - exact fibonacci_nan.
  - replace 30%float with (number_of_Z (Z.of_nat 30)) by (vm_compute; reflexivity).
    replace 832040%float with (number_of_Z (Fib 30)) by (vm_compute; reflexivity).
    apply fibonacci_of_nat; lia.
Qed.

Lemma fibonacci_exact_witness :
  fibonacci 31 (number_of_Z (Z.of_nat 30)) = Some (number_of_Z (Fib 30)).
Proof.
  apply (proj1 fibonacci_exact); lia.
Defined.

(** The loop over the indices visits the elements in order. *)
Lemma index_loop_fold (arr : list float) : forall pre sum,
  fold_left (fun s i => (s + nth i (pre ++ arr) nan)%float)
    (seq (List.length pre) (List.length arr)) sum
  = fold_left PrimFloat.add arr sum.
Proof.
  induction arr as [|x arr IH]; intros pre sum; [reflexivity|].
  cbn [List.length seq fold_left].
  rewrite app_nth2, Nat.sub_diag by lia. cbn [nth].
  specialize (IH (pre ++ [x]) (sum + x)%float).
  rewrite <- app_assoc, length_app in IH. cbn [List.length app] in IH.
  rewrite Nat.add_1_r in IH. exact IH.
Qed.

Lemma calculateSum_fold arr : calculateSum arr = fold_left PrimFloat.add arr 0%float.
Proof. exact (index_loop_fold arr [] 0%float). Qed.

Lemma Zsum_from zs : forall acc, fold_left Z.add zs acc = (acc + Zsum zs)%Z.
Proof.
  unfold Zsum. induction zs as [|z zs IH]; intros acc; cbn [fold_left]; [lia|].
  rewrite IH, (IH (0 + z)%Z). lia.
Qed.

Lemma Zsum_cons z zs : Zsum (z :: zs) = (z + Zsum zs)%Z.
Proof. unfold Zsum at 1. cbn [fold_left]. now rewrite Zsum_from. Qed.

Lemma Zsum_nonneg zs : Forall (fun z => (0 <= z)%Z) zs -> (0 <= Zsum zs)%Z.
Proof.
  induction 1 as [|z zs Hz _ IH]; [reflexivity|]. rewrite Zsum_cons. lia.
Qed.

Lemma sum_of_integers zs : forall acc,
  (0 <= acc)%Z -> Forall (fun z => (0 <= z)%Z) zs ->
  (acc + Zsum zs < 2 ^ 52)%Z ->
  fold_left PrimFloat.add (map number_of_Z zs) (number_of_Z acc)
  = number_of_Z (acc + Zsum zs).
Proof.
  induction zs as [|z zs IH]; intros acc Ha Hz Hs.
  - cbn. apply (f_equal number_of_Z). unfold Zsum. cbn. lia.
  - inversion Hz as [|? ? Hz0 Hzs]; subst.
    pose proof (Zsum_nonneg zs Hzs) as Nz.
    rewrite Zsum_cons in Hs |- *. cbn [map fold_left].
    assert (E : (number_of_Z acc + number_of_Z z)%float = number_of_Z (acc + z)).
    { eapply Binary64Integers.represents_inj.
      - apply Binary64Integers.represents_add;
          [apply Binary64Integers.represents_number; lia
          |apply Binary64Integers.represents_number; lia|lia].
      - apply Binary64Integers.represents_number. lia. }
    rewrite E. rewrite IH; [apply (f_equal number_of_Z); lia|lia|exact Hzs|lia].
Qed.

Lemma Zsum_seq n : (2 * Zsum (map Z.of_nat (seq 0 n)) = Z.of_nat n * (Z.of_nat n - 1))%Z.
Proof.
  induction n as [|n IH]; [reflexivity|].
  rewrite seq_S, map_app. cbn [map Nat.add].
  unfold Zsum in *. rewrite fold_left_app. cbn [fold_left]. lia.
Qed.

(** X16.  [calculateSum] adds the elements in the order of the array, and
    without rounding when they are whole numbers, not negative, of a sum below
    2^52; on the array 0, 1, ..., length - 1 the page builds it returns length *
    (length - 1) / 2, which is 49995000 for the 10000 elements of [testArray]. *)
Theorem calculateSum_exact :
  (forall arr, calculateSum arr = fold_left PrimFloat.add arr 0%float)
  /\ (forall zs,
      Forall (fun z => (0 <= z)%Z) zs -> (Zsum zs < 2 ^ 52)%Z ->
      calculateSum (map number_of_Z zs) = number_of_Z (Zsum zs))
  /\ (forall length,
      (Z.of_nat length * (Z.of_nat length - 1) < 2 ^ 53)%Z ->
      calculateSum (testArrayOf length)
      = number_of_Z (Z.of_nat length * (Z.of_nat length - 1) / 2))
  /\ calculateSum testArray = 49995000%float.
Proof.
  assert (P2 : forall zs,
      Forall (fun z => (0 <= z)%Z) zs -> (Zsum zs < 2 ^ 52)%Z ->
      calculateSum (map number_of_Z zs) = number_of_Z (Zsum zs)).
  { intros zs Hz Hs. rewrite calculateSum_fold.
    change 0%float with (number_of_Z 0).
    now rewrite sum_of_integers by (auto; lia). }
  assert (P3 : forall length,
      (Z.of_nat length * (Z.of_nat length - 1) < 2 ^ 53)%Z ->
      calculateSum (testArrayOf length)
      = number_of_Z (Z.of_nat length * (Z.of_nat length - 1) / 2)).
  { intros n Hn. unfold testArrayOf.
    rewrite <- (map_map Z.of_nat number_of_Z).
    pose proof (Zsum_seq n) as G.
    rewrite P2.
    - apply (f_equal number_of_Z). rewrite <- G. now rewrite Z.mul_comm, Z.div_mul.
    - apply Forall_forall. intros z Hin. apply in_map_iff in Hin.
      destruct Hin as (i & <- & _). lia.
    - change (2 ^ 53)%Z with (2 * 2 ^ 52)%Z in Hn. lia. }
  split; [exact calculateSum_fold|split; [exact P2|split; [exact P3|]]].
  unfold testArray. rewrite P3.
  - vm_compute. reflexivity.
  - vm_compute. reflexivity.
Qed.

Lemma calculateSum_exact_witness :
  calculateSum (map number_of_Z [3; 0; 2 ^ 40; 7]%Z)
  = number_of_Z (Zsum [3; 0; 2 ^ 40; 7]%Z).
Proof.
  apply (proj1 (proj2 calculateSum_exact)).
  - repeat constructor; discriminate.
  - reflexivity.
Defined.

(** ** The identity of the records and the length of their histories *)

Lemma Real_identity_run evs : forall st st',
  RealRun.run evs st = Some st' ->
  map Real_identity (Real.functions st') = map Real_identity (Real.functions st).
Proof.
  induction evs as [|ev evs IH]; intros st st'; cbn [RealRun.run].
  - now intros [= <-].
  - destruct (RealRun.step ev st) as [st1|] eqn:E; [|discriminate].
    intros H. rewrite (IH _ _ H). clear IH H.
    destruct ev as [clock i t|clock|clock m]; cbn in E.
    + destruct (nth_error (Real.functions st) i) as [f|] eqn:En.
      * rewrite (executeFunction_unfold _ _ _ _ _ En) in E.
        injection E as <-. cbn.
        apply (assign_map_same _ _ _ f); [exact En|].
        unfold Real_identity.
        destruct (RealFacts.applySample_frame f t) as (-> & -> & -> & ->).
        reflexivity.
      * unfold Real.executeFunction in E. rewrite En in E. discriminate.
    + injection E as <-. cbn. rewrite map_map. reflexivity.
    + now injection E as <-.
Qed.

Lemma Simulated_identity_run evs : forall st st',
  SimulatedRun.run evs st = Some st' ->
  map Simulated_identity (Simulated.functions st')
  = map Simulated_identity (Simulated.functions st).
Proof.
  induction evs as [|ev evs IH]; intros st st'; cbn [SimulatedRun.run].
  - now intros [= <-].
  - destruct (SimulatedRun.step ev st) as [st1|] eqn:E; [|discriminate].
    intros H. rewrite (IH _ _ H). clear IH H.
    destruct ev as [clock i r|clock|clock m]; cbn in E.
    + destruct (nth_error (Simulated.functions st) i) as [f|] eqn:En.
      * rewrite (simulateExecution_unfold _ _ _ _ _ En) in E.
        injection E as <-. cbn.
        apply (assign_map_same _ _ _ f); [exact En|].
        unfold Simulated_identity.
        destruct (SimulatedFacts.sim_applySample_frame f r) as (-> & ->).
        reflexivity.
      * unfold Simulated.simulateExecution in E. rewrite En in E. discriminate.
    + injection E as <-. cbn. rewrite map_map. reflexivity.
    + now injection E as <-.
Qed.

(** X17.  The records keep their identity.  Whatever is sampled, reset or logged,
    the page shows the same records in the same places, each with the name,
    the code, the workload and the iterations it had; from the initial state
    these are the three functions of the page, under three different names
    (the keys of the cards). *)
Theorem records_keep_their_identity :
  (forall evs st st',
      RealRun.run evs st = Some st' ->
      map Real_identity (Real.functions st') = map Real_identity (Real.functions st))
  /\ (forall evs st st',
      SimulatedRun.run evs st = Some st' ->
      map Simulated_identity (Simulated.functions st')
      = map Simulated_identity (Simulated.functions st))
  /\ (forall evs st,
      RealRun.run evs Real.initialState = Some st ->
      map Real.name (Real.functions st)
      = ["calculateSum"; "fibonacci"; "matrixMultiply"]%string
      /\ map Real.execute (Real.functions st)
         = [Real.run_calculateSum; Real.run_fibonacci; Real.run_matrixMultiply]
      /\ map Real.iterations (Real.functions st) = [100; 1; 1]
      /\ NoDup (map Real.name (Real.functions st))).
Proof.
  split; [exact Real_identity_run|split; [exact Simulated_identity_run|]].
  intros evs st H. apply Real_identity_run in H.
  assert (N : map Real.name (Real.functions st)
              = ["calculateSum"; "fibonacci"; "matrixMultiply"]%string).
  { change Real.name with (fun f => fst (fst (fst (Real_identity f)))).
    rewrite <- (map_map Real_identity (fun p => fst (fst (fst p)))), H.
    reflexivity. }
  split; [exact N|split; [|split]].
  - change Real.execute with (fun f => snd (fst (Real_identity f))).
    rewrite <- (map_map Real_identity (fun p => snd (fst p))), H. reflexivity.
  - change Real.iterations with (fun f => snd (Real_identity f)).
    rewrite <- (map_map Real_identity (fun p => snd p)), H. reflexivity.
  - rewrite N. repeat constructor; cbn; intuition discriminate.
Qed.

Lemma records_keep_their_identity_witness :
  exists st,
    RealRun.run [RealRun.Sampled "12:00:00"%string 1 8%float;
                 RealRun.ResetPressed "12:00:01"%string]
      Real.initialState = Some st
    /\ map Real.name (Real.functions st)
       = ["calculateSum"; "fibonacci"; "matrixMultiply"]%string.
Proof.
  eexists. split; [vm_compute; reflexivity|].
  refine (proj1 (proj2 (proj2 records_keep_their_identity)
                   [RealRun.Sampled "12:00:00"%string 1 8%float;
                    RealRun.ResetPressed "12:00:01"%string] _ _)).
  vm_compute. reflexivity.
Defined.

(** X18.  The history of a record since the reset has one entry for each of its
    calls, up to the size of the window: 31 entries in the real variant, 21
    in the simulated one; it is empty exactly for the records not called
    since the reset. *)
Theorem history_length_follows_callCount :
  (forall clock st0 evs,
      Forall (RealRun.inRange (List.length (Real.functions st0))) evs ->
      exists st,
        RealRun.run evs (Real.resetAll clock st0) = Some st
        /\ Forall (fun f =>
                     List.length (Real.history f)
                     = Nat.min (Real.callCount (Real.stats f)) 31)
             (Real.functions st))
  /\ (forall clock st0 evs,
      Forall (SimulatedRun.inRange (List.length (Simulated.functions st0))) evs ->
      exists st,
        SimulatedRun.run evs (Simulated.resetAll clock st0) = Some st
        /\ Forall (fun f =>
                     List.length (Simulated.history f)
                     = Nat.min (Simulated.callCount (Simulated.stats f)) 21)
             (Simulated.functions st)).
Proof.
  split.
  - intros clock st0 evs Hr.
    destruct (RealFacts.run_total evs (Real.resetAll clock st0)) as [st E].
    { cbn. now rewrite length_map. }
    exists st. split; [exact E|].
    eapply RealFacts.run_records; [ | | |exact E].
    + intros f t H.
      rewrite RealFacts.applySample_history, RealFacts.callCount_applySample,
        length_app, slice_last_length, H. cbn [List.length]. lia.
    + intros f. reflexivity.
    + cbn. apply Forall_forall. intros f Hin.
      apply in_map_iff in Hin. now destruct Hin as [g [<- _]].
  - intros clock st0 evs Hr.
    destruct (SimulatedFacts.sim_run_total evs (Simulated.resetAll clock st0))
      as [st E].
    { cbn. now rewrite length_map. }
    exists st. split; [exact E|].
    eapply SimulatedFacts.sim_run_records; [ | | |exact E].
    + intros f r H.
      rewrite SimulatedFacts.sim_applySample_history,
        SimulatedFacts.sim_callCount_applySample,
        length_app, slice_last_length, H. cbn [List.length]. lia.
    + intros f. reflexivity.
    + cbn. apply Forall_forall. intros f Hin.
      apply in_map_iff in Hin. now destruct Hin as [g [<- _]].
Qed.

Lemma history_length_follows_callCount_witness :
  exists st,
    RealRun.run (repeat (RealRun.Sampled "12:00:00"%string 2 8%float) 40)
      (Real.resetAll "11:59:59"%string Real.initialState) = Some st
    /\ Forall (fun f =>
                 List.length (Real.history f)
                 = Nat.min (Real.callCount (Real.stats f)) 31)
         (Real.functions st).
Proof.
  apply (proj1 history_length_follows_callCount).
  cbn. repeat constructor.
Defined.

(** ** The level before any improvement *)

Module Binary64Quotient.
Import Binary64 Binary64Order.
#[local] Open Scope Z_scope.

(** A positive finite number divided by itself is 1. *)
Lemma SFdiv_self m e :
  SFdiv prec emax (S754_finite false m e) (S754_finite false m e) = Prim2SF 1.
Proof.
  cbn [SFdiv xorb]. unfold SFdiv_core_binary. cbv zeta.
  replace (Zdigits2 (Zpos m) + e - (Zdigits2 (Zpos m) + e)) with 0 by lia.
  replace (e - e) with 0 by lia.
  change (Z.min (fexp prec emax 0) 0) with (-53).
  change (0 - -53) with 53. cbv iota.
  rewrite Z.shiftl_mul_pow2 by lia.
  assert (D : Z.div_eucl (Zpos m * 2 ^ 53) (Zpos m) = (2 ^ 53, 0)).
  { pose proof (Z.div_mul (2 ^ 53) (Zpos m) ltac:(lia)) as Q.
    pose proof (Z.mod_mul (2 ^ 53) (Zpos m) ltac:(lia)) as R.
    rewrite (Z.mul_comm (2 ^ 53)) in Q, R. unfold Z.div, Z.modulo in Q, R.
    destruct (Z.div_eucl (Zpos m * 2 ^ 53) (Zpos m)) as [q r]. now subst. }
  rewrite D.
  replace (new_location (Zpos m) 0) with loc_Exact
    by (unfold new_location, new_location_even, new_location_odd;
        now destruct (Z.even (Zpos m))).
  vm_compute. reflexivity.
Qed.

Lemma div_self t :
  finiteDuration t -> (0 <? t)%float = true -> (t / t)%float = 1%float.
Proof.
  intros [H0 Hi] Hp.
  rewrite <- (SF2Prim_Prim2SF (t / t)), <- (SF2Prim_Prim2SF 1). f_equal.
  rewrite div_spec. unfold SF64div.
  rewrite ltb_spec in Hi, Hp. rewrite Prim2SF_0 in Hp.
  change (Prim2SF infinity) with (S754_infinity false) in Hi.
  destruct (Prim2SF t) as [s|[|]| |[|] m e]; try discriminate.
  apply SFdiv_self.
Qed.

End Binary64Quotient.

Lemma Real_level_without_improvement ts : forall f t,
  finiteDuration t -> (0 <? t)%float = true ->
  Real.firstTime (Real.stats f) = Some t ->
  Real.bestTime (Real.stats f) = Some t ->
  Real.optimizationLevel (Real.stats f) = 0%float ->
  Forall (fun x => (x <? t)%float = false) ts ->
  Real.firstTime (Real.stats (fst (Real_sampleAll f ts))) = Some t
  /\ Real.bestTime (Real.stats (fst (Real_sampleAll f ts))) = Some t
  /\ Real.optimizationLevel (Real.stats (fst (Real_sampleAll f ts))) = 0%float.
Proof.
  induction ts as [|x ts IH]; intros f t Ft Pt Hf Hb Hl Hts; [now cbn|].
  inversion Hts as [|? ? Hx Hts']; subst.
  rewrite Real_sampleAll_cons. cbn [fst]. apply IH; auto.
  - now rewrite RealTimes.firstTime_applySample, Hf.
  - now rewrite RealTimes.bestTime_applySample, Hb, Hx.
  - pose proof (RealTimes.level_applySample f x) as L. cbv zeta in L.
    rewrite Hf, Hb, Hx, Pt in L. rewrite L.
    rewrite (Binary64Quotient.div_self t Ft Pt). reflexivity.
Qed.

(** X19.  In the real variant the level stays at 0 until a sample is faster than
    the first one: after a reset, a first sample of a positive finite
    duration and any number of samples that are not faster than it, the
    first time and the best time are the duration of the first sample, and
    the level is 0 (the ratio best / first is exactly 1). *)
Theorem real_level_zero_until_faster :
  forall f t ts,
    finiteDuration t -> (0 <? t)%float = true ->
    Forall (fun x => (x <? t)%float = false) ts ->
    Real.firstTime
      (Real.stats (fst (Real_sampleAll (Real.resetRecord f) (t :: ts)))) = Some t
    /\ Real.bestTime
         (Real.stats (fst (Real_sampleAll (Real.resetRecord f) (t :: ts)))) = Some t
    /\ Real.optimizationLevel
         (Real.stats (fst (Real_sampleAll (Real.resetRecord f) (t :: ts))))
       = 0%float.
Proof.
  intros f t ts Ft Pt Hts. rewrite Real_sampleAll_cons. cbn [fst].
  apply Real_level_without_improvement; auto.
  - now rewrite RealTimes.firstTime_applySample.
  - now rewrite RealTimes.bestTime_applySample.
  - pose proof (RealTimes.level_applySample (Real.resetRecord f) t) as L.
    cbv zeta in L. cbn [Real.resetRecord Real.stats Real.zeroStats
      Real.firstTime Real.bestTime] in L.
    rewrite Pt in L. rewrite L.
    rewrite (Binary64Quotient.div_self t Ft Pt). reflexivity.
Qed.

Lemma real_level_zero_until_faster_witness :
  Real.optimizationLevel
    (Real.stats (fst (Real_sampleAll
       (Real.resetRecord
          (Real.mkFunction "f"%string ""%string Real.zeroStats []
             Real.run_fibonacci 1))
       [6.25%float; 8%float; 6.25%float])))
  = 0%float.
Proof.
  apply (real_level_zero_until_faster _ 6.25%float [8%float; 6.25%float]).
  - split; reflexivity.
  - reflexivity.
  - repeat constructor.
Defined.

(** ** The measured functions: the product of two matrices *)

Section Matrices.
Variable size : nat.

Lemma nth_map_seq {A : Type} (h : nat -> A) (d : A) n : forall s i,
  i < n -> nth i (map h (seq s n)) d = h (s + i).
Proof.
  induction n as [|n IH]; intros s i Hi; [lia|].
  destruct i as [|i]; cbn [seq map nth]; [now rewrite Nat.add_0_r|].
  rewrite IH by lia. f_equal. lia.
Qed.

Lemma assign_map_seq {A : Type} (h : nat -> A) (v : A) n : forall s i,
  i < n ->
  JS.assign i v (map h (seq s n))
  = map (fun i' => if i' =? s + i then v else h i') (seq s n).
Proof.
  induction n as [|n IH]; intros s i Hi; [lia|].
  destruct i as [|i]; cbn [seq map JS.assign].
  - rewrite Nat.add_0_r, Nat.eqb_refl. f_equal.
    apply map_ext_in. intros k Hk. apply in_seq in Hk.
    now replace (k =? s) with false by (symmetry; apply Nat.eqb_neq; lia).
  - replace (s =? s + S i) with false by (symmetry; apply Nat.eqb_neq; lia).
    f_equal. rewrite IH by lia.
    apply map_ext. intros k. now replace (S s + i) with (s + S i) by lia.
Qed.

Lemma fold_left_ext_in {A B : Type} (f g : A -> B -> A) (l : list B) :
  (forall a x, In x l -> f a x = g a x) ->
  forall a, fold_left f l a = fold_left g l a.
Proof.
  induction l as [|x l IH]; intros H a; cbn [fold_left]; [reflexivity|].
  rewrite H by now left. apply IH. intros a' y Hy. apply H. now right.
Qed.

Lemma existsb_seq j : j < size -> existsb (Nat.eqb j) (seq 0 size) = true.
Proof.
  intros H. apply existsb_exists. exists j. split; [|apply Nat.eqb_refl].
  apply in_seq. lia.
Qed.

Lemma existsb_eqb_false j js : ~ In j js -> existsb (Nat.eqb j) js = false.
Proof.
  intros H. destruct (existsb (Nat.eqb j) js) eqn:E; [exfalso|reflexivity].
  apply existsb_exists in E. destruct E as (x & Hx & E).
  apply Nat.eqb_eq in E. now subst.
Qed.

(** Matrices are compared entry by entry. *)
Lemma tab_ext g h :
  (forall i j, i < size -> j < size -> g i j = h i j) ->
  randomMatrix size g = randomMatrix size h.
Proof.
  intros H. unfold randomMatrix.
  apply map_ext_in. intros i Hi. apply in_seq in Hi.
  apply map_ext_in. intros j Hj. apply in_seq in Hj.
  apply H; lia.
Qed.

Lemma entry_tab g i j :
  i < size -> j < size -> entry (randomMatrix size g) i j = g i j.
Proof.
  intros Hi Hj. unfold entry, randomMatrix.
  rewrite (nth_map_seq _ [] size 0 i Hi), (nth_map_seq _ nan size 0 j Hj).
  reflexivity.
Qed.

Lemma addAt_tab g i j x :
  i < size -> j < size ->
  addAt i j x (randomMatrix size g)
  = randomMatrix size (upd g i j (g i j + x)%float).
Proof.
  intros Hi Hj. unfold addAt. rewrite (entry_tab g i j Hi Hj).
  unfold randomMatrix.
  rewrite (nth_map_seq _ [] size 0 i Hi). cbn [Nat.add].
  rewrite (assign_map_seq _ _ size 0 j Hj), (assign_map_seq _ _ size 0 i Hi).
  cbn [Nat.add].
  apply map_ext_in. intros i' Hi'. unfold upd.
  destruct (i' =? i) eqn:E; cbn [andb].
  - apply Nat.eqb_eq in E. subst i'. reflexivity.
  - reflexivity.
Qed.

Lemma zeroMatrix_tab : zeroMatrix size = randomMatrix size (fun _ _ => 0%float).
Proof.
  unfold zeroMatrix, randomMatrix.
  assert (R : forall {A : Type} (v : A) n s, repeat v n = map (fun _ => v) (seq s n)).
  { intros A v n. induction n as [|n IH]; intros s; cbn; [reflexivity|].
    f_equal. apply IH. }
  rewrite (R _ (repeat 0%float size) size 0). apply map_ext. intros _.
  apply R.
Qed.

(** The loop over [k] adds up one entry. *)
Lemma loop_k (p : nat -> float) i j ks : forall g,
  i < size -> j < size ->
  fold_left (fun result k => addAt i j (p k) result) ks (randomMatrix size g)
  = randomMatrix size
      (upd g i j (fold_left (fun acc k => (acc + p k)%float) ks (g i j))).
Proof.
  induction ks as [|k ks IH]; intros g Hi Hj; cbn [fold_left].
  - apply tab_ext. intros i' j' _ _. unfold upd.
    destruct ((i' =? i) && (j' =? j)) eqn:E; [|reflexivity].
    apply andb_prop in E. destruct E as [E1 E2].
    apply Nat.eqb_eq in E1, E2. now subst.
  - rewrite (addAt_tab g i j _ Hi Hj), IH by assumption.
    apply tab_ext. intros i' j' _ _. unfold upd.
    rewrite !Nat.eqb_refl. cbn [andb].
    destruct ((i' =? i) && (j' =? j)); reflexivity.
Qed.

Variables drawA drawB : nat -> nat -> float.

(** The body of the loop over [j], on an entry that is still zero. *)
Lemma loop_k_entry i j g :
  i < size -> j < size -> g i j = 0%float ->
  fold_left (fun result k =>
      addAt i j (entry (randomMatrix size drawA) i k
                 * entry (randomMatrix size drawB) k j)%float result)
    (seq 0 size) (randomMatrix size g)
  = randomMatrix size (upd g i j (dotProduct size drawA drawB i j)).
Proof.
  intros Hi Hj H0. rewrite (loop_k _ i j (seq 0 size) g Hi Hj), H0.
  f_equal. f_equal. unfold dotProduct.
  apply fold_left_ext_in. intros acc k Hk. apply in_seq in Hk.
  now rewrite !entry_tab by lia.
Qed.

(** The loop over [j] fills the columns listed of one row. *)
Lemma loop_j i js : forall g,
  i < size -> Forall (fun j => j < size) js -> NoDup js ->
  (forall j, In j js -> g i j = 0%float) ->
  fold_left (fun result j =>
      fold_left (fun result k =>
          addAt i j (entry (randomMatrix size drawA) i k
                     * entry (randomMatrix size drawB) k j)%float result)
        (seq 0 size) result)
    js (randomMatrix size g)
  = randomMatrix size
      (fun i' j' => if (i' =? i) && existsb (Nat.eqb j') js
                    then dotProduct size drawA drawB i j' else g i' j').
Proof.
  induction js as [|j js IH]; intros g Hi Hjs Hnd H0; cbn [fold_left].
  - apply tab_ext. intros i' j' _ _. cbn. now rewrite andb_false_r.
  - inversion Hjs as [|? ? Hj Hjs']; subst. inversion Hnd as [|? ? Hn Hnd']; subst.
    rewrite (loop_k_entry i j g Hi Hj) by (apply H0; now left).
    rewrite IH; auto.
    + apply tab_ext. intros i' j' _ _. unfold upd. cbn [existsb].
      destruct (i' =? i) eqn:Ei; cbn [andb]; [|reflexivity].
      destruct (j' =? j) eqn:Ej; cbn [orb]; [|reflexivity].
      apply Nat.eqb_eq in Ei, Ej. subst.
      now rewrite (existsb_eqb_false j js Hn).
    + intros j' Hin. unfold upd. rewrite Nat.eqb_refl. cbn [andb].
      replace (j' =? j) with false.
      * apply H0. now right.
      * symmetry. apply Nat.eqb_neq. intros ->. contradiction.
Qed.

(** The loop over [i] fills the rows listed. *)
Lemma loop_i is_ : forall g,
  Forall (fun i => i < size) is_ -> NoDup is_ ->
  (forall i j, In i is_ -> j < size -> g i j = 0%float) ->
  fold_left (fun result i =>
      fold_left (fun result j =>
          fold_left (fun result k =>
              addAt i j (entry (randomMatrix size drawA) i k
                         * entry (randomMatrix size drawB) k j)%float result)
            (seq 0 size) result)
        (seq 0 size) result)
    is_ (randomMatrix size g)
  = randomMatrix size
      (fun i' j' => if existsb (Nat.eqb i') is_
                    then dotProduct size drawA drawB i' j' else g i' j').
Proof.
  induction is_ as [|i is_ IH]; intros g His Hnd H0; cbn [fold_left].
  - reflexivity.
  - inversion His as [|? ? Hi His']; subst.
    inversion Hnd as [|? ? Hn Hnd']; subst.
    rewrite (loop_j i (seq 0 size) g Hi).
    + rewrite IH; auto.
      * apply tab_ext. intros i' j' Hi' Hj'. cbn [existsb].
        destruct (i' =? i) eqn:Ei; cbn [andb orb].
        -- apply Nat.eqb_eq in Ei. subst.
           now rewrite (existsb_eqb_false i is_ Hn), (existsb_seq j' Hj').
        -- reflexivity.
      * intros i' j' Hin Hj'.
        replace (i' =? i) with false; [cbn [andb]; apply H0; [now right|exact Hj']|].
        symmetry. apply Nat.eqb_neq. intros ->. contradiction.
    + apply Forall_forall. intros j Hj. apply in_seq in Hj. lia.
    + apply seq_NoDup.
    + intros j Hj. apply in_seq in Hj. apply H0; [now left|lia].
Qed.

End Matrices.

(** X20.  [matrixMultiply] multiplies: whatever the draws of its two
    matrices, the three nested loops leave in row [i], column [j] of the
    result the sum over [k] of [a[i][k] * b[k][j]], added up from 0 in the
    order of [k]; the result has [size] rows of [size] entries. *)
Theorem matrixMultiply_is_the_product :
  forall size drawA drawB,
    matrixMultiply size drawA drawB
    = randomMatrix size (dotProduct size drawA drawB)
    /\ List.length (matrixMultiply size drawA drawB) = size
    /\ Forall (fun row => List.length row = size)
         (matrixMultiply size drawA drawB)
    /\ (forall i j, i < size -> j < size ->
          entry (matrixMultiply size drawA drawB) i j
          = dotProduct size drawA drawB i j).
Proof.
  intros size drawA drawB.
  assert (E : matrixMultiply size drawA drawB
              = randomMatrix size (dotProduct size drawA drawB)).
  { unfold matrixMultiply. cbv zeta. rewrite zeroMatrix_tab.
    rewrite (loop_i size drawA drawB (seq 0 size)).
    - apply tab_ext. intros i j Hi Hj. now rewrite (existsb_seq size i Hi).
    - apply Forall_forall. intros i Hi. apply in_seq in Hi. lia.
    - apply seq_NoDup.
    - reflexivity. }
  rewrite E. split; [reflexivity|split; [|split]].
  - unfold randomMatrix. now rewrite length_map, length_seq.
  - unfold randomMatrix. apply Forall_forall. intros row Hin.
    apply in_map_iff in Hin. destruct Hin as (i & <- & _).
    now rewrite length_map, length_seq.
  - intros i j Hi Hj. now apply entry_tab.
Qed.

Lemma matrixMultiply_is_the_product_witness :
  entry (matrixMultiply 2 (fun i j => if Nat.eqb i j then 1%float else 0.5%float)
           (fun i j => if Nat.eqb i j then 2%float else 0.25%float)) 0 1
  = dotProduct 2 (fun i j => if Nat.eqb i j then 1%float else 0.5%float)
      (fun i j => if Nat.eqb i j then 2%float else 0.25%float) 0 1.
Proof.
  apply (proj2 (proj2 (proj2 (matrixMultiply_is_the_product 2 _ _)))); lia.
Defined.
